(** * A shallow embedding of [models/autoCodeNet.py]

    The file models the three classes of the source:

    - [ConvLSTMCell]: one gated convolutional recurrent step;
    - [ConvLSTM]: the multi-layer stack that iterates a cell over time;
    - [LongShortTimeAutoEncodeDecoder]: the encode / predict / decode
      pipeline over a nine-frame clip.

    Tensors are nested lists, outermost axis first.  Tensor entries are
    taken from an abstract scalar type with the five operations the source
    uses (zero, addition, multiplication, sigmoid, tanh); the real numbers
    are an instance.  Operations of the tensor library that raise on
    ill-shaped arguments return [None].  A tensor with an axis of length
    zero has no faithful nested-list form (the lengths of the inner axes
    are lost), so the statements are about tensors whose axes are
    nonempty; the two exceptions, a sequence without time steps and the
    windows of a clip that is too short, only depend on the length of
    the time axis, which is kept. *)

From Stdlib Require Import Reals Lra.
From stdpp Require Import base option list strings numbers.

Set Default Proof Using "Type*".

(** ** Scalars *)

Class Scalar (A : Type) := {
  szero : A;
  sadd : A → A → A;
  smul : A → A → A;
  ssigmoid : A → A;
  stanh : A → A
}.

(** The laws used by the zero fixed point.  They hold for real numbers;
    for IEEE floating point numbers [smul_zero_l] and [smul_zero_r] hold
    for finite [x] only. *)
Class ScalarLaws (A : Type) `{Scalar A} : Prop := {
  sadd_zero_zero : sadd szero szero = szero;
  smul_zero_l : ∀ x, smul szero x = szero;
  smul_zero_r : ∀ x, smul x szero = szero;
  stanh_zero : stanh szero = szero
}.

(** Scalars some of whose values are not finite.  [finite] singles out
    the values on which a product with zero is zero.  IEEE floating
    point numbers satisfy these laws with the finite numbers for
    [finite] and a negative zero identified with zero; an infinity or a
    not-a-number value times zero is not-a-number. *)
Class FiniteValues (A : Type) := finite : A → Prop.

Class FiniteLaws (A : Type) `{Scalar A, FiniteValues A} : Prop := {
  finite_zero : finite szero;
  finite_sigmoid_zero : finite (ssigmoid szero);
  fin_sadd_zero_zero : sadd szero szero = szero;
  fin_smul_zero_l : ∀ x, finite x → smul szero x = szero;
  fin_smul_zero_r : ∀ x, finite x → smul x szero = szero;
  fin_stanh_zero : stanh szero = szero
}.

Abbreviation T1 A := (list A) (only parsing).
Abbreviation T2 A := (list (list A)) (only parsing).
Abbreviation T3 A := (list (list (list A))) (only parsing).
Abbreviation T4 A := (list (list (list (list A)))) (only parsing).
Abbreviation T5 A := (list (list (list (list (list A))))) (only parsing).

(** ** Python exceptions raised while a module is constructed *)

Inductive exn :=
  | ValueError (msg : string)
  | IndexError
  | TypeError
  | RuntimeError.

Definition result (X : Type) : Type := exn + X.

Definition raise {X} (e : exn) : result X := inl e.

#[export] Instance result_ret : MRet result := λ X x, inr x.
#[export] Instance result_bind : MBind result := λ X Y f m,
  match m with inl e => inl e | inr x => f x end.

(** Dynamically typed constructor arguments. *)
#[local] Unset Elimination Schemes.
Inductive pyval :=
  | PyInt (z : Z)
  | PyStr (s : string)
  | PyNone
  | PyTuple (elems : list pyval)
  | PyList (elems : list pyval).
#[local] Set Elimination Schemes.

(** [isinstance(v, tuple)] and [isinstance(v, list)]. *)
Definition isinstance_tuple (v : pyval) : bool :=
  match v with PyTuple _ => true | _ => false end.

Definition isinstance_list (v : pyval) : bool :=
  match v with PyList _ => true | _ => false end.

(** [v[i]] on a tuple or a list; other values are not subscriptable. *)
Definition py_getitem (v : pyval) (i : nat) : result pyval :=
  match v with
  | PyTuple l | PyList l =>
      match l !! i with Some x => mret x | None => raise IndexError end
  | _ => raise TypeError
  end.

(** A value used as an integer. *)
Definition py_int (v : pyval) : result Z :=
  match v with PyInt z => mret z | _ => raise TypeError end.

(** A value used as a tensor dimension: negative sizes are refused by the
    tensor library. *)
Definition py_dim (v : pyval) : result nat :=
  z ← py_int v;
  if decide (0 ≤ z)%Z then mret (Z.to_nat z) else raise RuntimeError.

(** ** The tensor operations the source calls *)

Module torch.
Section ops.
Context {A : Type} `{Scalar A}.

  (** [t.size()] of a tensor with four, respectively five, axes. *)
Definition size4 {X} (t : T4 X) : nat * nat * nat * nat :=
    let t0 := default [] (head t) in
    let t1 := default [] (head t0) in
    let t2 := default [] (head t1) in
    (length t, length t0, length t1, length t2).

Definition size5 {X} (t : T5 X) : nat * nat * nat * nat * nat :=
    let t0 := default [] (head t) in
    let t1 := default [] (head t0) in
    let t2 := default [] (head t1) in
    let t3 := default [] (head t2) in
    (length t, length t0, length t1, length t2, length t3).

  (** [torch.zeros(b, c, h, w)]. *)
Definition zeros (b c h w : nat) : T4 A :=
    replicate b (replicate c (replicate h (replicate w szero))).

  (** [l[lo:hi]] for [0 <= lo <= hi]; out-of-range bounds are clamped. *)
Definition slice {X} (lo hi : nat) (l : list X) : list X :=
    take (hi - lo) (drop lo l).

  (** Exchange of the two outermost axes of a list of rows that have [n]
      entries each. *)
Fixpoint transpose {X} (n : nat) (l : T2 X) : T2 X :=
    match l with
    | [] => replicate n []
    | r :: rs => zip_with cons r (transpose n rs)
    end.

  (** [torch.transpose(x, 1, 2)] on five axes. *)
Definition transpose12 {X} (x : T5 X) : T5 X :=
    (λ e, transpose (length (default [] (head e))) e) <$> x.

  (** [x.permute(1, 0, 2, 3, 4)]. *)
Definition permute10 {X} (x : T5 X) : T5 X :=
    transpose (length (default [] (head x))) x.

  (** [torch.unsqueeze(t, 0)]. *)
Definition unsqueeze0 {X} (t : X) : list X := [t].

  (** [torch.cat([x, y], dim=1)] on four axes: all other axes must agree. *)
Definition cat1 (x y : T4 A) : option (T4 A) :=
    let '(b1, _, h1, w1) := size4 x in
    let '(b2, _, h2, w2) := size4 y in
    guard (b1 = b2 ∧ h1 = h2 ∧ w1 = w2);;
    Some (zip_with app x y).

  (** [torch.cat([x, y], 0)] on five axes. *)
Definition cat0 (x y : T5 A) : option (T5 A) :=
    let '(_, t1, c1, h1, w1) := size5 x in
    let '(_, t2, c2, h2, w2) := size5 y in
    guard (t1 = t2 ∧ c1 = c2 ∧ h1 = h2 ∧ w1 = w2);;
    Some (x ++ y).

  (** [torch.split(t, split_size, dim=1)]: consecutive groups of
      [split_size] channels, the last one possibly shorter. *)
Definition split1 (t : T4 A) (split_size : nat) : option (list (T4 A)) :=
    let '(_, c, _, _) := size4 t in
    if decide (split_size = 0) then
      if decide (c = 0) then Some [t] else None
    else
      let n := ((c + split_size - 1) `div` split_size) `max` 1 in
      Some ((λ j, (λ img, take split_size (drop (j * split_size) img)) <$> t)
              <$> seq 0 n).

  (** [torch.stack(ts, dim=1)] of tensors with four axes. *)
Definition stack1 (ts : list (T4 A)) : option (T5 A) :=
    match ts with
    | [] => None
    | t0 :: _ =>
        guard (Forall (λ t, size4 t = size4 t0) ts);;
        Some (transpose (length t0) ts)
    end.

  (** [x[:, t, :, :, :]]. *)
Definition select1 (x : T5 A) (t : nat) : option (T4 A) :=
    mapM (λ e, e !! t) x.

  (** One axis of a broadcasting binary operation: equal lengths are
      paired off, an axis of length one is repeated along the other. *)
Definition bmap2 {X Y Z} (f : X → Y → option Z) (l : list X) (k : list Y)
    : option (list Z) :=
    if decide (length l = length k) then mapM (λ p, f p.1 p.2) (zip l k)
    else match l, k with
         | [x], _ => mapM (f x) k
         | _, [y] => mapM (λ x, f x y) l
         | _, _ => None
         end.

Definition pointwise (f : A → A → A) : T4 A → T4 A → option (T4 A) :=
    bmap2 (bmap2 (bmap2 (bmap2 (λ a b, Some (f a b))))).

Definition map4 (f : A → A) (t : T4 A) : T4 A :=
    fmap (M:=list) (fmap (M:=list) (fmap (M:=list) (fmap (M:=list) f))) t.

Definition add : T4 A → T4 A → option (T4 A) := pointwise sadd.
Definition mul : T4 A → T4 A → option (T4 A) := pointwise smul.
Definition sigmoid : T4 A → T4 A := map4 ssigmoid.
Definition tanh : T4 A → T4 A := map4 stanh.

  (** Summation, in a fixed order. *)
Definition sum_list (l : list A) : A := foldr sadd szero l.
End ops.
End torch.

(** ** [nn.Conv2d]

    The convolution layer belongs to the tensor library; it is modelled
    as far as the source relies on it: stride one, zero padding, the
    kernel applied without flipping.  The parameter values come from an
    initialiser, [weight_init o c i j] for the weight of output channel
    [o], input channel [c] and kernel position [(i, j)], and [bias_init o]
    for the bias of output channel [o]; their shapes are fixed by the
    constructor. *)

Record conv_params (A : Type) := ConvParams {
  weight_init : nat → nat → nat → nat → A;
  bias_init : nat → A
}.
Arguments ConvParams {A} _ _.
Arguments weight_init {A} _ _ _ _ _.
Arguments bias_init {A} _ _.

Module Conv2d.
Record t (A : Type) := mk {
    in_channels : nat;
    out_channels : nat;
    kernel_size : list nat;
    padding : nat * nat;
    weight : T4 A;
    bias : option (list A)
  }.
Arguments mk {A} _ _ _ _ _ _.
Arguments in_channels {A} _.
Arguments out_channels {A} _.
Arguments kernel_size {A} _.
Arguments padding {A} _.
Arguments weight {A} _.
Arguments bias {A} _.

Section defs.
Context {A : Type} `{Scalar A}.

Definition tabulate {X} (n : nat) (f : nat → X) : list X := f <$> seq 0 n.

  (** The constructor.  A kernel that is not a pair gives a weight with
      more or fewer than four axes, which has no [T4] form; such a layer
      is constructed, and refuses every input. *)
Definition __init__ (in_channels out_channels : Z) (kernel_size : pyval)
      (padding : Z * Z) (bias : bool) (params : conv_params A) : result (t A) :=
    cin ← py_dim (PyInt in_channels);
    cout ← py_dim (PyInt out_channels);
    ks ← match kernel_size with
         | PyTuple l | PyList l => mapM py_dim l
         | _ => raise TypeError
         end;
    mret {|
      in_channels := cin;
      out_channels := cout;
      kernel_size := ks;
      padding := (Z.to_nat padding.1, Z.to_nat padding.2);
      weight :=
        match ks with
        | [kh; kw] =>
            tabulate cout (λ o, tabulate cin (λ c, tabulate kh (λ i,
              tabulate kw (λ j, weight_init params o c i j))))
        | _ => []
        end;
      bias := if bias then Some (tabulate cout (bias_init params)) else None
    |}.

Definition pad_row (pw : nat) (r : list A) : list A :=
    replicate pw szero ++ r ++ replicate pw szero.

  (** Zero padding of one channel of width [w]. *)
Definition pad2d (ph pw w : nat) (img : T2 A) : T2 A :=
    let blank := replicate (w + 2 * pw) szero in
    replicate ph blank ++ (pad_row pw <$> img) ++ replicate ph blank.

Definition dot (u v : list A) : A := torch.sum_list (zip_with smul u v).

  (** The kernel [k] laid on the channel [img] with its corner at row [y]
      and column [x]. *)
Definition corr2 (k img : T2 A) (y x : nat) : A :=
    torch.sum_list (zip_with (λ kr ir, dot kr (drop x ir)) k (drop y img)).

Definition corr3 (k img : T3 A) (y x : nat) : A :=
    torch.sum_list (zip_with (λ kc ic, corr2 kc ic y x) k img).

Definition add_bias (b : option A) (s : A) : A :=
    match b with Some v => sadd s v | None => s end.

Definition conv_image (self : t A) (hout wout : nat) (img : T3 A) : T3 A :=
    imap (λ o ko,
            tabulate hout (λ y, tabulate wout (λ x,
              add_bias (bias self ≫= (.!! o)) (corr3 ko img y x))))
         (weight self).

Definition forward (self : t A) (input : T4 A) : option (T4 A) :=
    let '(_, cin, kh, kw) := torch.size4 (weight self) in
    let '(ph, pw) := padding self in
    let '(_, c, h, w) := torch.size4 input in
    guard (length (kernel_size self) = 2);;
    guard (c = cin);;
    guard (kh ≤ h + 2 * ph ∧ kw ≤ w + 2 * pw);;
    Some ((λ img, conv_image self (h + 2 * ph - kh + 1) (w + 2 * pw - kw + 1)
                    (pad2d ph pw w <$> img)) <$> input).
End defs.
End Conv2d.

(** ** [ConvLSTMCell] *)

Module ConvLSTMCell.
Record t (A : Type) := mk {
    input_dim : nat;
    hidden_dim : nat;
    kernel_size : pyval;
    padding : Z * Z;
    bias : bool;
    conv : Conv2d.t A
  }.
Arguments mk {A} _ _ _ _ _ _.
Arguments input_dim {A} _.
Arguments hidden_dim {A} _.
Arguments kernel_size {A} _.
Arguments padding {A} _.
Arguments bias {A} _.
Arguments conv {A} _.

Section defs.
Context {A : Type} `{Scalar A}.

Definition __init__ (input_dim hidden_dim kernel_size : pyval) (bias : bool)
      (params : conv_params A) : result (t A) :=
    k0 ← py_getitem kernel_size 0;
    z0 ← py_int k0;
    k1 ← py_getitem kernel_size 1;
    z1 ← py_int k1;
    let padding := ((z0 `div` 2)%Z, (z1 `div` 2)%Z) in
    cin ← py_int input_dim;
    hd ← py_int hidden_dim;
    conv ← Conv2d.__init__ (cin + hd) (4 * hd) kernel_size padding bias params;
    mret {|
      input_dim := Z.to_nat cin;
      hidden_dim := Z.to_nat hd;
      kernel_size := kernel_size;
      padding := padding;
      bias := bias;
      conv := conv
    |}.

Definition forward (self : t A) (input_tensor : T4 A)
      (cur_state : T4 A * T4 A) : option (T4 A * T4 A) :=
    let '(h_cur, c_cur) := cur_state in
    combined ← torch.cat1 input_tensor h_cur;
    combined_conv ← Conv2d.forward (conv self) combined;
    chunks ← torch.split1 combined_conv (hidden_dim self);
    match chunks with
    | [cc_i; cc_f; cc_o; cc_g] =>
        let i := torch.sigmoid cc_i in
        let f := torch.sigmoid cc_f in
        let o := torch.sigmoid cc_o in
        let g := torch.tanh cc_g in
        fc ← torch.mul f c_cur;
        ig ← torch.mul i g;
        c_next ← torch.add fc ig;
        h_next ← torch.mul o (torch.tanh c_next);
        Some (h_next, c_next)
    | _ => None
    end.

Definition init_hidden (self : t A) (batch_size : nat)
      (image_size : nat * nat) : T4 A * T4 A :=
    let '(height, width) := image_size in
    (torch.zeros batch_size (hidden_dim self) height width,
     torch.zeros batch_size (hidden_dim self) height width).
End defs.
End ConvLSTMCell.

(** ** [ConvLSTM] *)

Module ConvLSTM.
Record t (A : Type) := mk {
    input_dim : pyval;
    hidden_dim : pyval;
    kernel_size : pyval;
    num_layers : Z;
    batch_first : bool;
    bias : bool;
    return_all_layers : bool;
    cell_list : list (ConvLSTMCell.t A)
  }.
Arguments mk {A} _ _ _ _ _ _ _ _.
Arguments input_dim {A} _.
Arguments hidden_dim {A} _.
Arguments kernel_size {A} _.
Arguments num_layers {A} _.
Arguments batch_first {A} _.
Arguments bias {A} _.
Arguments return_all_layers {A} _.
Arguments cell_list {A} _.

Definition _check_kernel_size_consistency (kernel_size : pyval) : result unit :=
    if negb (isinstance_tuple kernel_size ||
             (isinstance_list kernel_size &&
              match kernel_size with
              | PyList l => forallb isinstance_tuple l
              | _ => false
              end))
    then raise (ValueError "`kernel_size` must be tuple or list of tuples")
    else mret ().

Definition _extend_for_multilayer (param : pyval) (num_layers : Z) : pyval :=
    if negb (isinstance_list param)
    then PyList (replicate (Z.to_nat num_layers) param)
    else param.

  (** [len(v)]. *)
Definition py_len (v : pyval) : result Z :=
    match v with
    | PyTuple l | PyList l => mret (Z.of_nat (length l))
    | PyStr s => mret (Z.of_nat (String.length s))
    | _ => raise TypeError
    end.

Section defs.
Context {A : Type} `{Scalar A}.

Definition __init__ (input_dim hidden_dim kernel_size : pyval)
      (num_layers : Z) (batch_first bias return_all_layers : bool)
      (params : nat → conv_params A) : result (t A) :=
    _check_kernel_size_consistency kernel_size;;
    let kernel_size := _extend_for_multilayer kernel_size num_layers in
    let hidden_dim := _extend_for_multilayer hidden_dim num_layers in
    len_k ← py_len kernel_size;
    len_h ← py_len hidden_dim;
    if negb (bool_decide (len_k = len_h) && bool_decide (len_h = num_layers))
    then raise (ValueError "Inconsistent list length.")
    else
      cell_list ← mapM (λ i,
        cur_input_dim ← (if decide (i = 0) then mret input_dim
                         else py_getitem hidden_dim (i - 1));
        hd ← py_getitem hidden_dim i;
        ks ← py_getitem kernel_size i;
        ConvLSTMCell.__init__ cur_input_dim hd ks bias (params i))
        (seq 0 (Z.to_nat num_layers));
      mret {|
        input_dim := input_dim;
        hidden_dim := hidden_dim;
        kernel_size := kernel_size;
        num_layers := num_layers;
        batch_first := batch_first;
        bias := bias;
        return_all_layers := return_all_layers;
        cell_list := cell_list
      |}.

Definition _init_hidden (self : t A) (batch_size : nat)
      (image_size : nat * nat) : option (list (T4 A * T4 A)) :=
    mapM (λ i, cell ← cell_list self !! i;
               Some (ConvLSTMCell.init_hidden cell batch_size image_size))
         (seq 0 (Z.to_nat (num_layers self))).

  (** The loop over the time steps [ts] of one layer; [output_inner]
      collects the working states. *)
Fixpoint time_loop (cell : ConvLSTMCell.t A) (cur_layer_input : T5 A)
      (ts : list nat) (hc : T4 A * T4 A) (output_inner : list (T4 A))
    : option (T4 A * T4 A * list (T4 A)) :=
    match ts with
    | [] => Some (hc, output_inner)
    | t :: ts' =>
        x ← torch.select1 cur_layer_input t;
        hc' ← ConvLSTMCell.forward cell x hc;
        time_loop cell cur_layer_input ts' hc' (output_inner ++ [hc'.1])
    end.

  (** The loop over the layers. *)
Fixpoint layer_loop (self : t A) (hidden_state : list (T4 A * T4 A))
      (seq_len : nat) (layers : list nat) (cur_layer_input : T5 A)
      (layer_output_list : list (T5 A)) (last_state_list : list (T4 A * T4 A))
    : option (list (T5 A) * list (T4 A * T4 A)) :=
    match layers with
    | [] => Some (layer_output_list, last_state_list)
    | layer_idx :: layers' =>
        hc ← hidden_state !! layer_idx;
        cell ← cell_list self !! layer_idx;
        '(hc', output_inner) ← time_loop cell cur_layer_input (seq 0 seq_len) hc [];
        layer_output ← torch.stack1 output_inner;
        layer_loop self hidden_state seq_len layers' layer_output
          (layer_output_list ++ [layer_output]) (last_state_list ++ [hc'])
    end.

  (** [l[-1:]]. *)
Definition last1 {X} (l : list X) : list X := drop (length l - 1) l.

  (** The two lists the body of [forward] has built when it reaches its
      [return] statement. *)
Definition forward_lists (self : t A) (input_tensor : T5 A)
      (hidden_state : option (list (T4 A * T4 A)))
    : option (list (T5 A) * list (T4 A * T4 A)) :=
    let input_tensor :=
      if negb (batch_first self) then torch.permute10 input_tensor
      else input_tensor in
    let '(b, seq_len, _, h, w) := torch.size5 input_tensor in
    hidden_state ← match hidden_state with
                   | None => _init_hidden self b (h, w)
                   | Some hs => Some hs
                   end;
    '(layer_output_list, last_state_list) ←
      layer_loop self hidden_state seq_len (seq 0 (Z.to_nat (num_layers self)))
        input_tensor [] [];
    if negb (return_all_layers self)
    then Some (last1 layer_output_list, last1 last_state_list)
    else Some (layer_output_list, last_state_list).

  (** [forward] returns the list of last states only. *)
Definition forward (self : t A) (input_tensor : T5 A)
      (hidden_state : option (list (T4 A * T4 A)))
    : option (list (T4 A * T4 A)) :=
    snd <$> forward_lists self input_tensor hidden_state.
End defs.
End ConvLSTM.

(** ** [LongShortTimeAutoEncodeDecoder] *)

Module LongShortTimeAutoEncodeDecoder.
Record t (A : Type) := mk {
    convLstmMotionAwareBlock : ConvLSTM.t A;
    convLstmMotionPredBlock : ConvLSTM.t A;
    convLstmDecode : ConvLSTM.t A
  }.
Arguments mk {A} _ _ _.
Arguments convLstmMotionAwareBlock {A} _.
Arguments convLstmMotionPredBlock {A} _.
Arguments convLstmDecode {A} _.

Section defs.
Context {A : Type} `{Scalar A}.

Definition __init__ (aware pred decode : nat → conv_params A) : result (t A) :=
    a ← ConvLSTM.__init__ (PyInt 3) (PyInt 3) (PyTuple [PyInt 3; PyInt 3]) 1
          true true false aware;
    p ← ConvLSTM.__init__ (PyInt 3) (PyInt 3) (PyTuple [PyInt 3; PyInt 3]) 1
          true true false pred;
    d ← ConvLSTM.__init__ (PyInt 3) (PyInt 3) (PyTuple [PyInt 3; PyInt 3]) 1
          true true false decode;
    mret {| convLstmMotionAwareBlock := a;
            convLstmMotionPredBlock := p;
            convLstmDecode := d |}.

  (** [torch.transpose(inputs9[:, :, lo:hi, :, :], 1, 2)]. *)
Definition window (inputs9 : T5 A) (lo hi : nat) : T5 A :=
    torch.transpose12 (fmap (M:=list) (fmap (M:=list) (torch.slice lo hi)) inputs9).

  (** The tensor [inputs13355779] handed to the first stack. *)
Definition windows (inputs9 : T5 A) : option (T5 A) :=
    let inputs13 := window inputs9 0 3 in
    let inputs35 := window inputs9 2 5 in
    let inputs57 := window inputs9 4 7 in
    let inputs79 := window inputs9 6 9 in
    inputs13355779 ← torch.cat0 inputs13 inputs35;
    inputs13355779 ← torch.cat0 inputs13355779 inputs57;
    torch.cat0 inputs13355779 inputs79.

  (** [stack(x, hidden_state)[0][k]] for [k = 0] (working state) and
      [k = 1] (memory state). *)
Definition last_state (stack : ConvLSTM.t A) (x : T5 A)
      (hidden_state : option (list (T4 A * T4 A))) : option (T4 A * T4 A) :=
    r ← ConvLSTM.forward stack x hidden_state; r !! 0.

  (** The decode stage: everything after [c79Pred] has been computed. *)
Definition decode (self : t A) (c13355779 c79Pred : T4 A) : option (T4 A) :=
    c79 ← c13355779 !! 3;
    let cReal := torch.unsqueeze0 (torch.unsqueeze0 c79) in
    let '(s0, s1, s2, s3) := torch.size4 c79Pred in
    let convLSTMDecodeStateInit := [(torch.zeros s0 s1 s2 s3, c79Pred)] in
    hc ← last_state (convLstmDecode self) cReal (Some convLSTMDecodeStateInit);
    Some hc.1.

Definition forward (self : t A) (inputs9 : T5 A) : option (T4 A) :=
    inputs13355779 ← windows inputs9;
    hc ← last_state (convLstmMotionAwareBlock self) inputs13355779 None;
    let c13355779 := hc.2 in
    let c133557 := torch.unsqueeze0 (torch.slice 0 3 c13355779) in
    hc' ← last_state (convLstmMotionPredBlock self) c133557 None;
    let c79Pred := hc'.2 in
    decode self c13355779 c79Pred.
End defs.
End LongShortTimeAutoEncodeDecoder.

(** ** The real numbers as scalars *)

#[export] Instance R_scalar : Scalar R := {|
  szero := 0%R;
  sadd := Rplus;
  smul := Rmult;
  ssigmoid := λ x, (/ (1 + exp (- x)))%R;
  stanh := Rtrigo_def.tanh
|}.

#[export] Instance R_finite : FiniteValues R := λ _, True.

(** ** Scalars with a not-a-number value

    A scalar type extended with one value that every operation
    propagates, as floating point arithmetic propagates not-a-number. *)

Inductive xnum (A : Type) :=
  | Num (a : A)
  | NaN.
Arguments Num {A} _.
Arguments NaN {A}.

#[export] Instance xnum_scalar {A : Type} `{Scalar A} : Scalar (xnum A) | 100 := {|
  szero := Num szero;
  sadd := λ x y, match x, y with Num a, Num b => Num (sadd a b) | _, _ => NaN end;
  smul := λ x y, match x, y with Num a, Num b => Num (smul a b) | _, _ => NaN end;
  ssigmoid := λ x, match x with Num a => Num (ssigmoid a) | NaN => NaN end;
  stanh := λ x, match x with Num a => Num (stanh a) | NaN => NaN end
|}.

#[export] Instance xnum_finite {A : Type} : FiniteValues (xnum A) :=
  λ x, match x with Num _ => True | NaN => False end.

(** ** Shapes *)

Section shapes.
Context {X : Type}.

Definition shape1 (n : nat) (t : T1 X) : Prop := length t = n.
Definition shape2 (h w : nat) (t : T2 X) : Prop :=
    length t = h ∧ Forall (shape1 w) t.
Definition shape3 (c h w : nat) (t : T3 X) : Prop :=
    length t = c ∧ Forall (shape2 h w) t.
Definition shape4 (b c h w : nat) (t : T4 X) : Prop :=
    length t = b ∧ Forall (shape3 c h w) t.
Definition shape5 (b t c h w : nat) (x : T5 X) : Prop :=
    length x = b ∧ Forall (shape4 t c h w) x.

  (** Entry [(b, c, y, x)] of a tensor with four axes. *)
Definition at4 (t : T4 X) (b c y x : nat) : option X :=
    r ← t !! b; r ← r !! c; r ← r !! y; r !! x.

  (** Frame [(b, i, j)] of a tensor with five axes. *)
Definition at3 (t : T5 X) (b i j : nat) : option (T2 X) :=
    r ← t !! b; r ← r !! i; r !! j.
End shapes.

(** ** Well-formed cells and stacks: what the constructors establish *)

Section wellformed.
Context {A : Type}.

Definition conv_ok (cin cout kh kw ph pw : nat) (m : Conv2d.t A) : Prop :=
    Conv2d.kernel_size m = [kh; kw] ∧
    Conv2d.padding m = (ph, pw) ∧
    shape4 cout cin kh kw (Conv2d.weight m) ∧
    ∀ bs, Conv2d.bias m = Some bs → length bs = cout.

Definition cell_ok (cin hd kh kw : nat) (cell : ConvLSTMCell.t A) : Prop :=
    ConvLSTMCell.hidden_dim cell = hd ∧
    conv_ok (cin + hd) (4 * hd) kh kw (kh `div` 2) (kw `div` 2)
      (ConvLSTMCell.conv cell).

  (** A layer is described by its number of hidden channels and its
      kernel; the input channels of a layer are the hidden channels of the
      layer below. *)
Inductive cells_ok : nat → list (nat * (nat * nat)) →
      list (ConvLSTMCell.t A) → Prop :=
    | cells_ok_nil cin : cells_ok cin [] []
    | cells_ok_cons cin hd kh kw dims cell cells :
        cell_ok cin hd kh kw cell →
        cells_ok hd dims cells →
        cells_ok cin ((hd, (kh, kw)) :: dims) (cell :: cells).

Definition stack_ok (cin : nat) (dims : list (nat * (nat * nat)))
      (self : ConvLSTM.t A) : Prop :=
    ConvLSTM.num_layers self = Z.of_nat (length dims) ∧
    cells_ok cin dims (ConvLSTM.cell_list self).

  (** The same-padding configurations: at least one hidden channel and a
      kernel of odd height and width. *)
Definition layer_valid (d : nat * (nat * nat)) : Prop :=
    0 < d.1 ∧ Nat.Odd d.2.1 ∧ Nat.Odd d.2.2.
End wellformed.

(** ** All parameters zero *)

Section zero.
Context {A : Type} `{Scalar A}.

Definition zero_params : conv_params A :=
    ConvParams (λ _ _ _ _, szero) (λ _, szero).

Definition conv_zero (m : Conv2d.t A) : Prop :=
    Forall (Forall (Forall (Forall (λ v, v = szero)))) (Conv2d.weight m) ∧
    ∀ bs, Conv2d.bias m = Some bs → Forall (λ v, v = szero) bs.

Definition cell_zero (cell : ConvLSTMCell.t A) : Prop :=
    conv_zero (ConvLSTMCell.conv cell).

Definition stack_zero (self : ConvLSTM.t A) : Prop :=
    Forall cell_zero (ConvLSTM.cell_list self).
End zero.

(** ** Closed forms on well-shaped arguments

    What the operations above compute once every shape check has passed;
    the properties below relate them to the operations themselves. *)

Section closed_forms.
Context {A : Type} `{Scalar A}.

Definition zip4 (f : A → A → A) : T4 A → T4 A → T4 A :=
    zip_with (zip_with (zip_with (zip_with f))).

  (** Channel group [j] of width [hd]. *)
Definition chunk (hd j : nat) (cc : T4 A) : T4 A :=
    (λ img, take hd (drop (j * hd) img)) <$> cc.

Definition conv_out (m : Conv2d.t A) (kh kw ph pw h w : nat) (x : T4 A)
    : T4 A :=
    (λ img, Conv2d.conv_image m (h + 2 * ph - kh + 1) (w + 2 * pw - kw + 1)
              (Conv2d.pad2d ph pw w <$> img)) <$> x.

  (** The gates applied to the convolution output [cc] and the memory
      state [c_cur]; the result is the pair (working state, memory state). *)
Definition gate_step (hd : nat) (cc c_cur : T4 A) : T4 A * T4 A :=
    let i := torch.sigmoid (chunk hd 0 cc) in
    let f := torch.sigmoid (chunk hd 1 cc) in
    let o := torch.sigmoid (chunk hd 2 cc) in
    let g := torch.tanh (chunk hd 3 cc) in
    let c_next := zip4 sadd (zip4 smul f c_cur) (zip4 smul i g) in
    (zip4 smul o (torch.tanh c_next), c_next).
End closed_forms.

(** ** States *)

Section states.
Context {A : Type} `{Scalar A}.

Definition state_shape (b hd h w : nat) (hc : T4 A * T4 A) : Prop :=
    shape4 b hd h w hc.1 ∧ shape4 b hd h w hc.2.

Definition zero_state (b hd h w : nat) : T4 A * T4 A :=
    (torch.zeros b hd h w, torch.zeros b hd h w).

  (** The configuration of the three stacks of the pipeline: one layer,
      three input and three hidden channels, a three by three kernel,
      batch-major input, only the last layer returned. *)
Definition stack331 (self : ConvLSTM.t A) : Prop :=
    stack_ok 3 [(3, (3, 3))] self ∧
    ConvLSTM.batch_first self = true ∧
    ConvLSTM.return_all_layers self = false.

Definition net_ok (net : LongShortTimeAutoEncodeDecoder.t A) : Prop :=
    stack331 (LongShortTimeAutoEncodeDecoder.convLstmMotionAwareBlock net) ∧
    stack331 (LongShortTimeAutoEncodeDecoder.convLstmMotionPredBlock net) ∧
    stack331 (LongShortTimeAutoEncodeDecoder.convLstmDecode net).

Definition net_zero (net : LongShortTimeAutoEncodeDecoder.t A) : Prop :=
    stack_zero (LongShortTimeAutoEncodeDecoder.convLstmMotionAwareBlock net) ∧
    stack_zero (LongShortTimeAutoEncodeDecoder.convLstmMotionPredBlock net) ∧
    stack_zero (LongShortTimeAutoEncodeDecoder.convLstmDecode net).
End states.

(** ** Vocabulary of the statements *)

Section vocabulary.
Context {A : Type} `{Scalar A}.

  (** Repeated steps of one cell, one input per step. *)
Fixpoint steps (cell : ConvLSTMCell.t A) (xs : list (T4 A))
      (hc : T4 A * T4 A) : option (T4 A * T4 A) :=
    match xs with
    | [] => Some hc
    | x :: xs' => hc' ← ConvLSTMCell.forward cell x hc; steps cell xs' hc'
    end.

  (** A clip with the frames of [extra] appended after those of [clip]. *)
Definition append_frames (clip extra : T5 A) : T5 A :=
    zip_with (zip_with app) clip extra.

  (** A tensor filled with one value. *)
Definition full5 (b c t h w : nat) (v : A) : T5 A :=
    replicate b (replicate c (replicate t (replicate h (replicate w v)))).
End vocabulary.

(** The kernel sizes the specification calls valid: a pair of integers, or
    a list of such pairs. *)
Definition spec_is_pair (v : pyval) : bool :=
  match v with PyTuple [PyInt _; PyInt _] => true | _ => false end.

Definition spec_kernel_size_valid (v : pyval) : bool :=
  spec_is_pair v ||
  match v with PyList l => forallb spec_is_pair l | _ => false end.

(** ** Vocabulary of the further properties

    Reference definitions, written here and not taken from the source:
    the further properties relate the loops and the indexing of the
    source to them. *)

Section vocabulary_extra.
Context {A : Type} `{Scalar A}.

(** [x[:, t]] of a batch-major sequence, as a total function. *)
Definition time_slice (x : T5 A) (t : nat) : T4 A :=
  (λ e : T4 A, default [] (e !! t)) <$> x.

Definition time_slices (x : T5 A) (T : nat) : list (T4 A) :=
  time_slice x <$> seq 0 T.

(** [clip[:, :, t]] of a clip in batch, channel, time order. *)
Definition frame (clip : T5 A) (t : nat) : T4 A :=
  (λ e : T4 A, (λ ch : T3 A, default [] (ch !! t)) <$> e) <$> clip.

(** The length of the time axis of a batch-major sequence, as [size(1)]
    gives it. *)
Definition time_len (x : T5 A) : nat := (torch.size5 x).1.1.1.2.

(** Two batch-major sequences, one after the other in time. *)
Definition time_cat (x1 x2 : T5 A) : T5 A := zip_with app x1 x2.

(** Every entry of a tensor with four axes satisfies [P]. *)
Definition all4 (P : A → Prop) (t : T4 A) : Prop :=
  Forall (Forall (Forall (Forall P))) t.

(** Two states, one after the other along the batch axis. *)
Definition state_app (hc1 hc2 : T4 A * T4 A) : T4 A * T4 A :=
  (hc1.1 ++ hc2.1, hc1.2 ++ hc2.2).

(** Repeated steps of one cell that also collect the working states. *)
Fixpoint steps_out (cell : ConvLSTMCell.t A) (xs : list (T4 A))
    (hc : T4 A * T4 A) : option (T4 A * T4 A * list (T4 A)) :=
  match xs with
  | [] => Some (hc, [])
  | x :: xs' =>
      hc' ← ConvLSTMCell.forward cell x hc;
      '(hc'', outs) ← steps_out cell xs' hc';
      Some (hc'', hc'.1 :: outs)
  end.

(** The layers of a stack run one after the other on a list of inputs:
    every layer starts from its own initial state, and the working
    states of a layer are the inputs of the next. *)
Fixpoint run_layers (cells : list (ConvLSTMCell.t A))
    (hs : list (T4 A * T4 A)) (xs : list (T4 A))
    : option (list (T4 A * T4 A)) :=
  match cells, hs with
  | [], _ => Some []
  | cell :: cells', hc :: hs' =>
      '(hc', outs) ← steps_out cell xs hc;
      rest ← run_layers cells' hs' outs;
      Some (hc' :: rest)
  | _ :: _, [] => None
  end.
End vocabulary_extra.

(** * Properties *)

(** ** Lists and shapes *)

Section list_facts.
Context {X : Type}.

Lemma length_tabulate {Y} n (f : nat → Y) : length (Conv2d.tabulate n f) = n.
  Proof. unfold Conv2d.tabulate. by rewrite length_fmap, length_seq. Qed.

Lemma lookup_tabulate {Y} n (f : nat → Y) i :
    i < n → Conv2d.tabulate n f !! i = Some (f i).
  Proof.
    intros Hi. unfold Conv2d.tabulate.
    rewrite list_lookup_fmap, lookup_seq_lt by done. done.
  Qed.

Lemma Forall_tabulate {Y} (P : Y → Prop) n (f : nat → Y) :
    (∀ i, i < n → P (f i)) → Forall P (Conv2d.tabulate n f).
  Proof.
    intros Hf. unfold Conv2d.tabulate. apply Forall_fmap, Forall_lookup.
    intros i j [-> ?]%lookup_seq. by apply Hf.
  Qed.

Lemma tabulate_const {Y} n (y : Y) :
    Conv2d.tabulate n (λ _, y) = replicate n y.
  Proof.
    unfold Conv2d.tabulate. generalize 0.
    induction n as [|n IH]; intros s; simpl; [done|]. by rewrite IH.
  Qed.

Lemma tabulate_ext {Y} n (f g : nat → Y) :
    (∀ i, i < n → f i = g i) → Conv2d.tabulate n f = Conv2d.tabulate n g.
  Proof.
    intros Hfg. unfold Conv2d.tabulate. apply list_eq. intros i.
    rewrite !list_lookup_fmap.
    destruct (seq 0 n !! i) as [j|] eqn:Hj; simpl; [|done].
    apply lookup_seq in Hj as [-> ?]. f_equal. apply Hfg. lia.
  Qed.

Lemma shape4_size (b c h w : nat) (t : T4 X) :
    shape4 b c h w t → 0 < b → 0 < c → 0 < h →
    torch.size4 t = (b, c, h, w).
  Proof.
    intros [Hb Ht] ? ? ?. unfold torch.size4.
    destruct t as [|t0 t]; simpl in *; [lia|].
    apply list.Forall_cons in Ht as [[Hc Ht0] _].
    destruct t0 as [|t1 t0]; simpl in *; [lia|].
    apply list.Forall_cons in Ht0 as [[Hh Ht1] _].
    destruct t1 as [|t2 t1]; simpl in *; [lia|].
    apply list.Forall_cons in Ht1 as [Hw _]. unfold shape1 in Hw.
    by rewrite Hb, Hc, Hh, Hw.
  Qed.

Lemma shape5_size (b t c h w : nat) (x : T5 X) :
    shape5 b t c h w x → 0 < b → 0 < t → 0 < c → 0 < h →
    torch.size5 x = (b, t, c, h, w).
  Proof.
    intros [Hb Hx] ? ? ? ?. unfold torch.size5.
    destruct x as [|x0 x]; simpl in *; [lia|].
    apply list.Forall_cons in Hx as [Hx0 _].
    pose proof (shape4_size _ _ _ _ _ Hx0) as Hs. unfold torch.size4 in Hs.
    specialize (Hs ltac:(done) ltac:(done) ltac:(done)).
    injection Hs as -> -> -> ->. by rewrite Hb.
  Qed.

Lemma shape4_zeros `{Scalar A} b c h w : shape4 b c h w (torch.zeros b c h w).
  Proof.
    unfold torch.zeros.
    repeat (split; [by rewrite length_replicate|apply Forall_replicate]).
    apply length_replicate.
  Qed.
End list_facts.

(** ** The convolution *)

Section conv_facts.
Context {A : Type} `{Scalar A}.

Lemma conv_forward_eq cin cout kh kw ph pw (m : Conv2d.t A) b h w (x : T4 A) :
    conv_ok cin cout kh kw ph pw m → 0 < cout → 0 < cin → 0 < kh →
    shape4 b cin h w x → 0 < b → 0 < h →
    kh ≤ h + 2 * ph → kw ≤ w + 2 * pw →
    Conv2d.forward m x = Some (conv_out m kh kw ph pw h w x).
  Proof.
    intros (Hks & Hpad & Hw & _) ? ? ? Hx ? ? ? ?. unfold Conv2d.forward.
    rewrite (shape4_size _ _ _ _ _ Hw), Hpad, (shape4_size _ _ _ _ _ Hx) by done.
    rewrite Hks. simpl.
    rewrite !option_guard_True by done. done.
  Qed.

Lemma conv_out_shape cin cout kh kw ph pw (m : Conv2d.t A) b h w (x : T4 A) :
    conv_ok cin cout kh kw ph pw m → length x = b →
    shape4 b cout (h + 2 * ph - kh + 1) (w + 2 * pw - kw + 1)
      (conv_out m kh kw ph pw h w x).
  Proof.
    intros (_ & _ & [Hw _] & _) Hb. unfold conv_out. split.
    - by rewrite length_fmap.
    - apply Forall_fmap, Forall_true. intros img. simpl.
      unfold Conv2d.conv_image. split.
      + by rewrite length_imap.
      + apply Forall_lookup. intros o r. rewrite list_lookup_imap.
        intros Hr. apply fmap_Some in Hr as (ko & _ & ->).
        split; [apply length_tabulate|].
        apply Forall_tabulate. intros y _. apply length_tabulate.
  Qed.
End conv_facts.

(** ** Elementwise operations and channel groups *)

Section pointwise_facts.
Context {A : Type} `{Scalar A}.

Lemma mapM_zip_with {X Y Z} (f : X → Y → option Z) (g : X → Y → Z) l k :
    Forall2 (λ x y, f x y = Some (g x y)) l k →
    mapM (λ p, f p.1 p.2) (zip l k) = Some (zip_with g l k).
  Proof.
    intros Hlk. apply mapM_Some.
    induction Hlk; simpl; constructor; auto.
  Qed.

Lemma bmap2_zip_with {X Y Z} (f : X → Y → option Z) (g : X → Y → Z) l k :
    Forall2 (λ x y, f x y = Some (g x y)) l k →
    torch.bmap2 f l k = Some (zip_with g l k).
  Proof.
    intros Hlk. unfold torch.bmap2.
    rewrite decide_True by eauto using Forall2_length.
    by apply mapM_zip_with.
  Qed.

Lemma Forall2_of_Forall {X Y} (P : X → Prop) (Q : Y → Prop) l k :
    length l = length k → Forall P l → Forall Q k →
    Forall2 (λ x y, P x ∧ Q y) l k.
  Proof.
    intros Hlen Hl. revert k Hlen.
    induction Hl as [|x l ? ? IH]; intros [|y k] ? Hk; simplify_eq/=; [constructor|].
    apply list.Forall_cons in Hk as [? ?]. constructor; auto.
  Qed.

Lemma bmap2_zip_with_shape {X Y Z} (P : X → Prop) (Q : Y → Prop)
      (f : X → Y → option Z) (g : X → Y → Z) l k :
    length l = length k → Forall P l → Forall Q k →
    (∀ x y, P x → Q y → f x y = Some (g x y)) →
    torch.bmap2 f l k = Some (zip_with g l k).
  Proof.
    intros Hlen Hl Hk Hfg. apply bmap2_zip_with.
    pose proof (Forall2_of_Forall P Q l k Hlen Hl Hk) as Hlk.
    clear Hlen Hl Hk. induction Hlk as [|???? [??]]; constructor; auto.
  Qed.

Lemma pointwise_zip4 (f : A → A → A) b c h w (s t : T4 A) :
    shape4 b c h w s → shape4 b c h w t →
    torch.pointwise f s t = Some (zip4 f s t).
  Proof.
    intros [Hs1 Hs] [Ht1 Ht]. unfold torch.pointwise, zip4.
    eapply bmap2_zip_with_shape; [congruence|done..|].
    clear. intros s t [Hs1 Hs] [Ht1 Ht].
    eapply bmap2_zip_with_shape; [congruence|done..|].
    clear. intros s t [Hs1 Hs] [Ht1 Ht].
    eapply bmap2_zip_with_shape; [congruence|done..|].
    clear. unfold shape1. intros s t Hs Ht.
    eapply (bmap2_zip_with_shape (λ _, True) (λ _, True)); [congruence| | |done];
      by apply Forall_true.
  Qed.

Lemma Forall_zip_with_shape {X Y Z} (P : X → Prop) (Q : Y → Prop) (R : Z → Prop)
      (g : X → Y → Z) l k :
    (∀ x y, P x → Q y → R (g x y)) →
    Forall P l → Forall Q k → Forall R (zip_with g l k).
  Proof.
    intros Hg Hl. revert k. induction Hl; intros [|y k] Hk; simpl; try constructor.
    - apply list.Forall_cons in Hk as [? ?]. eauto.
    - apply list.Forall_cons in Hk as [? ?]. eauto.
  Qed.

Lemma zip4_shape (f : A → A → A) b c h w (s t : T4 A) :
    shape4 b c h w s → shape4 b c h w t → shape4 b c h w (zip4 f s t).
  Proof.
    intros [Hs1 Hs] [Ht1 Ht]. unfold zip4. split.
    { rewrite length_zip_with. lia. }
    eapply Forall_zip_with_shape; [|done..].
    clear. intros s t [Hs1 Hs] [Ht1 Ht]. split.
    { rewrite length_zip_with. lia. }
    eapply Forall_zip_with_shape; [|done..].
    clear. intros s t [Hs1 Hs] [Ht1 Ht]. split.
    { rewrite length_zip_with. lia. }
    eapply Forall_zip_with_shape; [|done..].
    clear. unfold shape1. intros s t Hs Ht. rewrite length_zip_with. lia.
  Qed.

Lemma map4_shape (f : A → A) b c h w (s : T4 A) :
    shape4 b c h w s → shape4 b c h w (torch.map4 f s).
  Proof.
    intros [Hs1 Hs]. unfold torch.map4. split; [by rewrite length_fmap|].
    apply Forall_fmap. eapply list.Forall_impl; [done|].
    intros s3 [Hs3 Hs3']. simpl. split; [by rewrite length_fmap|].
    apply Forall_fmap. eapply list.Forall_impl; [done|].
    intros s2 [Hs2 Hs2']. simpl. split; [by rewrite length_fmap|].
    apply Forall_fmap. eapply list.Forall_impl; [done|].
    unfold shape1. intros s1 Hs1'. simpl. by rewrite length_fmap.
  Qed.

Lemma at4_zip4 (f : A → A → A) (s t : T4 A) i j y x :
    at4 (zip4 f s t) i j y x =
    a ← at4 s i j y x; b ← at4 t i j y x; Some (f a b).
  Proof.
    unfold at4, zip4. rewrite lookup_zip_with.
    destruct (s !! i) as [s1|]; simpl; [|done].
    destruct (t !! i) as [t1|]; simpl;
      [|by destruct (s1 !! j) as [s2|]; simpl;
           [destruct (s2 !! y) as [s3|]; simpl; [destruct (s3 !! x)|]|]].
    rewrite lookup_zip_with.
    destruct (s1 !! j) as [s2|]; simpl; [|done].
    destruct (t1 !! j) as [t2|]; simpl;
      [|by destruct (s2 !! y) as [s3|]; simpl; [destruct (s3 !! x)|]].
    rewrite lookup_zip_with.
    destruct (s2 !! y) as [s3|]; simpl; [|done].
    destruct (t2 !! y) as [t3|]; simpl; [|by destruct (s3 !! x)].
    rewrite lookup_zip_with.
    destruct (s3 !! x) as [s4|]; simpl; [|done]. done.
  Qed.

Lemma at4_map4 (f : A → A) (s : T4 A) i j y x :
    at4 (torch.map4 f s) i j y x = f <$> at4 s i j y x.
  Proof.
    unfold at4, torch.map4. rewrite list_lookup_fmap.
    destruct (s !! i) as [s1|]; simpl; [|done].
    rewrite list_lookup_fmap.
    destruct (s1 !! j) as [s2|]; simpl; [|done].
    rewrite list_lookup_fmap.
    destruct (s2 !! y) as [s3|]; simpl; [|done].
    by rewrite list_lookup_fmap.
  Qed.

Lemma chunk_shape b c h w hd j (cc : T4 A) :
    shape4 b c h w cc → j * hd + hd ≤ c → shape4 b hd h w (chunk hd j cc).
  Proof.
    intros [Hb Hcc] Hj. unfold chunk. split; [by rewrite length_fmap|].
    apply Forall_fmap. eapply list.Forall_impl; [done|].
    intros img [Hc Himg]. simpl. split.
    - rewrite length_take, length_drop. lia.
    - by apply Forall_take, Forall_drop.
  Qed.

Lemma at4_chunk hd j (cc : T4 A) i k y x :
    k < hd → at4 (chunk hd j cc) i k y x = at4 cc i (j * hd + k) y x.
  Proof.
    intros Hk. unfold at4, chunk. rewrite list_lookup_fmap.
    destruct (cc !! i) as [img|]; simpl; [|done].
    rewrite lookup_take, decide_True, lookup_drop by done. done.
  Qed.

Lemma split1_four b hd h w (cc : T4 A) :
    shape4 b (4 * hd) h w cc → 0 < b → 0 < hd → 0 < h →
    torch.split1 cc hd =
      Some [chunk hd 0 cc; chunk hd 1 cc; chunk hd 2 cc; chunk hd 3 cc].
  Proof.
    intros Hcc ? ? ?. unfold torch.split1.
    rewrite (shape4_size _ _ _ _ _ Hcc) by lia.
    rewrite decide_False by lia.
    replace ((4 * hd + hd - 1) `div` hd) with 4.
    2:{ apply (Nat.div_unique _ _ _ (hd - 1)); lia. }
    done.
  Qed.
End pointwise_facts.

(** ** One step of a cell *)

Section cell_facts.
Context {A : Type} `{Scalar A}.

Lemma odd_half k : Nat.Odd k → 2 * (k `div` 2) + 1 = k.
  Proof.
    intros [m ->]. replace ((2 * m + 1) `div` 2) with m; [lia|].
    apply (Nat.div_unique _ _ _ 1); lia.
  Qed.

Lemma cat1_eq b c1 c2 h w (x y : T4 A) :
    shape4 b c1 h w x → shape4 b c2 h w y →
    0 < b → 0 < c1 → 0 < c2 → 0 < h →
    torch.cat1 x y = Some (zip_with app x y).
  Proof.
    intros Hx Hy ? ? ? ?. unfold torch.cat1.
    rewrite (shape4_size _ _ _ _ _ Hx), (shape4_size _ _ _ _ _ Hy) by done.
    by rewrite option_guard_True.
  Qed.

Lemma cat1_shape b c1 c2 h w (x y : T4 A) :
    shape4 b c1 h w x → shape4 b c2 h w y →
    shape4 b (c1 + c2) h w (zip_with app x y).
  Proof.
    intros [Hx1 Hx] [Hy1 Hy]. split.
    { rewrite length_zip_with. lia. }
    eapply Forall_zip_with_shape; [|done..].
    intros x3 y3 [Hx3 Hx3'] [Hy3 Hy3']. split.
    - rewrite length_app. lia.
    - by apply Forall_app.
  Qed.

Lemma gate_step_shape b hd h w (cc c : T4 A) :
    shape4 b (4 * hd) h w cc → shape4 b hd h w c →
    shape4 b hd h w (gate_step hd cc c).1 ∧
    shape4 b hd h w (gate_step hd cc c).2.
  Proof.
    intros Hcc Hc. unfold gate_step. simpl.
    assert (∀ j, j < 4 → shape4 b hd h w (chunk hd j cc)) as Hch.
    { intros j Hj. eapply chunk_shape; [done|]. nia. }
    assert (shape4 b hd h w
      (zip4 sadd (zip4 smul (torch.sigmoid (chunk hd 1 cc)) c)
         (zip4 smul (torch.sigmoid (chunk hd 0 cc)) (torch.tanh (chunk hd 3 cc)))))
      as Hnext.
    { repeat first [apply zip4_shape | apply map4_shape | apply Hch; lia | done]. }
    split; [|done].
    repeat first [apply zip4_shape | apply map4_shape | apply Hch; lia | done].
  Qed.

  (** One step of a well-formed cell on well-shaped arguments. *)
Lemma cell_forward_eq cin hd kh kw (cell : ConvLSTMCell.t A) b h w
      (x hp c : T4 A) :
    cell_ok cin hd kh kw cell → 0 < cin → 0 < hd → Nat.Odd kh → Nat.Odd kw →
    shape4 b cin h w x → shape4 b hd h w hp → shape4 b hd h w c →
    0 < b → 0 < h → 0 < w →
    let cc := conv_out (ConvLSTMCell.conv cell) kh kw (kh `div` 2) (kw `div` 2)
                h w (zip_with app x hp) in
    shape4 b (4 * hd) h w cc ∧
    Conv2d.forward (ConvLSTMCell.conv cell) (zip_with app x hp) = Some cc ∧
    ConvLSTMCell.forward cell x (hp, c) = Some (gate_step hd cc c).
  Proof.
    intros [Hhd Hconv] ? ? Hkh Hkw Hx Hhp Hc ? ? ? cc.
    pose proof (odd_half _ Hkh) as Hkh2. pose proof (odd_half _ Hkw) as Hkw2.
    pose proof (cat1_shape _ _ _ _ _ _ _ Hx Hhp) as Hcomb.
    assert (shape4 b (4 * hd) h w cc) as Hcc.
    { pose proof (conv_out_shape _ _ _ _ _ _ _ b h w (zip_with app x hp) Hconv
                    (proj1 Hcomb)) as Hs.
      replace (h + 2 * (kh `div` 2) - kh + 1) with h in Hs by lia.
      replace (w + 2 * (kw `div` 2) - kw + 1) with w in Hs by lia. done. }
    assert (Conv2d.forward (ConvLSTMCell.conv cell) (zip_with app x hp) = Some cc)
      as Hfwd.
    { eapply conv_forward_eq; [done| | | |done|..]; lia. }
    split; [done|]. split; [done|].
    unfold ConvLSTMCell.forward.
    rewrite (cat1_eq _ _ _ _ _ _ _ Hx Hhp) by done. simpl.
    rewrite Hfwd. simpl. rewrite Hhd.
    rewrite (split1_four _ _ _ _ _ Hcc) by done. simpl.
    assert (∀ j, j < 4 → shape4 b hd h w (chunk hd j cc)) as Hch.
    { intros j Hj. eapply chunk_shape; [done|]. nia. }
    unfold torch.mul, torch.add, torch.sigmoid, torch.tanh.
    rewrite (pointwise_zip4 smul b hd h w) by
      (repeat first [apply map4_shape | apply Hch; lia | done]).
    simpl.
    rewrite (pointwise_zip4 smul b hd h w) by
      (repeat first [apply map4_shape | apply Hch; lia | done]).
    simpl.
    rewrite (pointwise_zip4 sadd b hd h w) by
      (repeat first [apply zip4_shape | apply map4_shape | apply Hch; lia | done]).
    simpl.
    rewrite (pointwise_zip4 smul b hd h w) by
      (repeat first [apply zip4_shape | apply map4_shape | apply Hch; lia | done]).
    done.
  Qed.
End cell_facts.

(** ** Construction of a cell *)

Section init_facts.
Context {A : Type} `{Scalar A}.

Lemma shape4_tabulate b c h w (f : nat → nat → nat → nat → A) :
    shape4 b c h w
      (Conv2d.tabulate b (λ o, Conv2d.tabulate c (λ k, Conv2d.tabulate h (λ i,
         Conv2d.tabulate w (λ j, f o k i j))))).
  Proof.
    split; [apply length_tabulate|]. apply Forall_tabulate. intros o _.
    split; [apply length_tabulate|]. apply Forall_tabulate. intros k _.
    split; [apply length_tabulate|]. apply Forall_tabulate. intros i _.
    apply length_tabulate.
  Qed.

  (** The cell constructor succeeds on a pair of integers and establishes
      the invariant. *)
Lemma cell_init_ok (cin hd kh kw : nat) (bias : bool) (params : conv_params A) :
    ∃ cell,
      ConvLSTMCell.__init__ (PyInt (Z.of_nat cin)) (PyInt (Z.of_nat hd))
        (PyTuple [PyInt (Z.of_nat kh); PyInt (Z.of_nat kw)]) bias params
      = inr cell ∧
      cell_ok cin hd kh kw cell ∧
      (params = zero_params → cell_zero cell).
  Proof.
    unfold ConvLSTMCell.__init__, Conv2d.__init__, py_dim. simpl.
    rewrite !decide_True by lia. simpl.
    eexists. split; [reflexivity|]. split.
    - split; simpl; [lia|]. split; [by rewrite !Nat2Z.id|]. simpl.
      split.
      { rewrite !Z2Nat.inj_div, !Nat2Z.id by lia. done. }
      replace (Z.to_nat (Z.of_nat cin + Z.of_nat hd)) with (cin + hd) by lia.
      replace (Z.to_nat (4 * Z.of_nat hd)) with (4 * hd) by lia.
      rewrite !Nat2Z.id. split; [apply shape4_tabulate|].
      intros bs. destruct bias; [|done]. intros [= <-]. apply length_tabulate.
    - intros ->. split; simpl.
      + repeat (apply Forall_tabulate; intros ? _). done.
      + intros bs. destruct bias; [|done]. intros [= <-].
        apply Forall_tabulate. done.
  Qed.
End init_facts.

(** ** Zero parameters *)

Section zero_facts.
Context {A : Type} `{ScalarLaws A}.

Lemma sum_list_zero (l : list A) :
    Forall (λ v, v = szero) l → torch.sum_list l = szero.
  Proof.
    unfold torch.sum_list. induction 1 as [|x l -> _ IH]; simpl; [done|].
    rewrite IH. apply sadd_zero_zero.
  Qed.

Lemma dot_zero (u v : list A) :
    Forall (λ a, a = szero) u → Conv2d.dot u v = szero.
  Proof.
    intros Hu. apply sum_list_zero. revert v.
    induction Hu as [|x u -> _ IH]; intros [|y v]; simpl; constructor; auto.
    apply smul_zero_l.
  Qed.

Lemma sum_zip_with_zero {X Y} (f : X → Y → A) (P : X → Prop) l k :
    Forall P l → (∀ x y, P x → f x y = szero) →
    torch.sum_list (zip_with f l k) = szero.
  Proof.
    intros Hl Hf. apply sum_list_zero. revert k.
    induction Hl as [|x l ? _ IH]; intros [|y k]; simpl; constructor; auto.
  Qed.

Lemma corr3_zero (k img : T3 A) y x :
    Forall (Forall (Forall (λ v, v = szero))) k → Conv2d.corr3 k img y x = szero.
  Proof.
    intros Hk. unfold Conv2d.corr3.
    eapply sum_zip_with_zero; [done|]. intros kc ic Hkc.
    unfold Conv2d.corr2. eapply sum_zip_with_zero; [done|]. intros kr ir Hkr.
    by apply dot_zero.
  Qed.

Lemma conv_out_zero cin cout kh kw ph pw (m : Conv2d.t A) b h w ho wo (x : T4 A) :
    conv_ok cin cout kh kw ph pw m → conv_zero m → length x = b →
    ho = h + 2 * ph - kh + 1 → wo = w + 2 * pw - kw + 1 →
    conv_out m kh kw ph pw h w x = torch.zeros b cout ho wo.
  Proof.
    intros (_ & _ & [Hcout _] & Hbias) [Hw Hb] <- -> ->. unfold conv_out, torch.zeros.
    apply const_fmap. intros _ img _. unfold Conv2d.conv_image.
    apply list_eq. intros o. rewrite list_lookup_imap.
    destruct (decide (o < cout)) as [Ho|Ho].
    - rewrite (lookup_replicate_2 _ _ _ Ho).
      destruct (Conv2d.weight m !! o) as [ko|] eqn:Hko.
      2:{ apply lookup_ge_None in Hko. lia. }
      simpl. f_equal. rewrite <- tabulate_const. apply tabulate_ext. intros y _.
      rewrite <- tabulate_const. apply tabulate_ext. intros x' _.
      rewrite corr3_zero by (by eapply Forall_lookup_1 in Hw).
      destruct (Conv2d.bias m) as [bs|] eqn:Hbs; simpl; [|done].
      destruct (bs !! o) as [v|] eqn:Hv; simpl; [|done].
      specialize (Hb bs eq_refl). eapply Forall_lookup_1 in Hb; [|done].
      rewrite Hb. apply sadd_zero_zero.
    - rewrite (lookup_ge_None_2 (Conv2d.weight m)) by lia.
      symmetry. apply lookup_replicate_None. lia.
  Qed.

Lemma gate_step_zero b hd h w :
    gate_step hd (torch.zeros b (4 * hd) h w) (torch.zeros b hd h w) =
      (torch.zeros b hd h w, torch.zeros b hd h w).
  Proof.
    assert (∀ j, j < 4 →
      chunk hd j (torch.zeros b (4 * hd) h w) = torch.zeros (A:=A) b hd h w) as Hch.
    { intros j Hj. unfold chunk, torch.zeros. rewrite fmap_replicate.
      rewrite drop_replicate, take_replicate. do 2 f_equal. nia. }
    unfold gate_step. rewrite !Hch by lia.
    unfold torch.sigmoid, torch.tanh, torch.map4, zip4, torch.zeros.
    rewrite !fmap_replicate, !zip_with_replicate, !stanh_zero, !smul_zero_r.
    rewrite sadd_zero_zero, !fmap_replicate, !zip_with_replicate.
    by rewrite stanh_zero, smul_zero_r.
  Qed.

  (** With all parameters zero the zero state is kept, whatever the input. *)
Lemma cell_forward_zero cin hd kh kw (cell : ConvLSTMCell.t A) b h w (x : T4 A) :
    cell_ok cin hd kh kw cell → cell_zero cell →
    0 < cin → 0 < hd → Nat.Odd kh → Nat.Odd kw →
    shape4 b cin h w x → 0 < b → 0 < h → 0 < w →
    ConvLSTMCell.forward cell x (torch.zeros b hd h w, torch.zeros b hd h w) =
      Some (torch.zeros b hd h w, torch.zeros b hd h w).
  Proof.
    intros Hok Hz ? ? Hkh Hkw Hx ? ? ?.
    destruct (cell_forward_eq cin hd kh kw cell b h w x _ _ Hok
      ltac:(done) ltac:(done) Hkh Hkw Hx (shape4_zeros b hd h w) (shape4_zeros b hd h w)
      ltac:(done) ltac:(done) ltac:(done)) as (_ & _ & ->).
    f_equal. destruct Hok as [_ Hconv].
    rewrite (conv_out_zero _ _ _ _ _ _ _ b h w h w _ Hconv Hz).
    - apply gate_step_zero.
    - destruct Hx as [Hb _]. rewrite length_zip_with, Hb.
      unfold torch.zeros. rewrite length_replicate. lia.
    - pose proof (odd_half _ Hkh). lia.
    - pose proof (odd_half _ Hkw). lia.
  Qed.
End zero_facts.

(** ** Zero parameters, on finite inputs *)

Section finite_zero_facts.
Context {A : Type} `{FiniteLaws A}.








End finite_zero_facts.

(** ** Transposition *)

Section transpose_facts.
Context {X : Type}.

Lemma transpose_shape (P : X → Prop) n (l : T2 X) :
    Forall (λ r, length r = n ∧ Forall P r) l →
    length (torch.transpose n l) = n ∧
    Forall (λ col, length col = length l ∧ Forall P col) (torch.transpose n l).
  Proof.
    induction 1 as [|r l [Hr HP] _ [IH1 IH2]]; simpl.
    - split; [apply length_replicate|]. by apply Forall_replicate.
    - split; [rewrite length_zip_with; lia|].
      eapply (Forall_zip_with_shape P); [|done..].
      intros x col ? [Hc ?]. split; [simpl; by rewrite Hc|]. by constructor.
  Qed.

Lemma transpose_lookup n (l : T2 X) i j :
    Forall (λ r, length r = n) l → j < n →
    torch.transpose n l !! j ≫= (.!! i) = l !! i ≫= (.!! j).
  Proof.
    intros Hl Hj. revert i. induction Hl as [|r l Hr Hl IH]; intros i; simpl.
    - by rewrite lookup_replicate_2.
    - rewrite lookup_zip_with.
      destruct (r !! j) as [x|] eqn:Hx.
      2:{ apply lookup_ge_None in Hx. lia. }
      simpl. specialize (IH 0) as IH0.
      destruct (torch.transpose n l !! j) as [col|] eqn:Hcol; simpl.
      + destruct i as [|i]; simpl; [done|]. specialize (IH i). by simpl in IH.
      + apply lookup_ge_None in Hcol.
        pose proof (transpose_shape (λ _, True) n l) as [Hlen _].
        { eapply list.Forall_impl; [done|]. intros ? ?. split; [done|].
          by apply Forall_true. }
        lia.
  Qed.
End transpose_facts.

(** ** The loops of the stack *)

Section stack_facts.
Context {A : Type} `{Scalar A}.

Lemma select1_shape b t c h w (x : T5 A) i :
    shape5 b t c h w x → i < t →
    ∃ xi, torch.select1 x i = Some xi ∧ shape4 b c h w xi.
  Proof.
    intros [Hb Hx] Hi. unfold torch.select1.
    destruct (mapM_is_Some_2 (λ e : T4 A, e !! i) x) as [xi Hxi].
    { eapply list.Forall_impl; [done|]. intros e [He _]. simpl.
      apply lookup_lt_is_Some. lia. }
    exists xi. split; [done|]. apply mapM_Some_1 in Hxi.
    split; [by rewrite <- (list.Forall2_length _ _ _ Hxi)|].
    clear Hb. induction Hxi as [|e ei x xi Hei _ IH]; [constructor|].
    apply list.Forall_cons in Hx as [[_ He] Hx].
    constructor; [|by apply IH]. by eapply Forall_lookup_1 in He.
  Qed.

Lemma stack1_shape b c h w (ts : list (T4 A)) :
    Forall (shape4 b c h w) ts → ts ≠ [] → 0 < b → 0 < c → 0 < h →
    ∃ x, torch.stack1 ts = Some x ∧ shape5 b (length ts) c h w x.
  Proof.
    intros Hts Hne ? ? ?. unfold torch.stack1.
    destruct ts as [|t0 ts']; [done|]. set (ts := t0 :: ts') in *.
    assert (shape4 b c h w t0) as Ht0 by (by apply list.Forall_cons in Hts as [? _]).
    rewrite option_guard_True.
    2:{ eapply list.Forall_impl; [done|]. intros t Ht. simpl.
        by rewrite !(shape4_size b c h w). }
    simpl. eexists. split; [done|].
    destruct Ht0 as [-> _].
    destruct (transpose_shape (shape3 c h w) b ts) as [Hlen Hcols]; [done|].
    split; [done|]. done.
  Qed.

Lemma cells_ok_length cin dims (cells : list (ConvLSTMCell.t A)) :
    cells_ok cin dims cells → length cells = length dims.
  Proof. induction 1; simpl; congruence. Qed.

Lemma init_hidden_eq (self : ConvLSTM.t A) b h w :
    mapM (λ i, cell ← ConvLSTM.cell_list self !! i;
               Some (ConvLSTMCell.init_hidden cell b (h, w)))
         (seq 0 (length (ConvLSTM.cell_list self)))
    = Some ((λ cell, ConvLSTMCell.init_hidden cell b (h, w))
              <$> ConvLSTM.cell_list self).
  Proof.
    apply mapM_Some. apply Forall2_same_length_lookup_2.
    { by rewrite length_seq, length_fmap. }
    intros i j hc [-> Hi]%lookup_seq. rewrite list_lookup_fmap. simpl.
    destruct (ConvLSTM.cell_list self !! i); simpl; congruence.
  Qed.

Section invariant.
Variables b h w : nat.
Hypothesis Hb : 0 < b.
Hypothesis Hh : 0 < h.
Hypothesis Hw : 0 < w.
    (** [Inv hd hc]: a property of the state [hc] of a layer with [hd]
        hidden channels that every step keeps; [Q]: a property of the
        cells it relies on. *)
Variable Inv : nat → T4 A * T4 A → Prop.
Variable Q : ConvLSTMCell.t A → Prop.
Hypothesis Inv_shape : ∀ hd hc,
      Inv hd hc → shape4 b hd h w hc.1 ∧ shape4 b hd h w hc.2.
Hypothesis Inv_step : ∀ cin hd kh kw cell x hc,
      cell_ok cin hd kh kw cell → Q cell →
      0 < cin → 0 < hd → Nat.Odd kh → Nat.Odd kw →
      shape4 b cin h w x → Inv hd hc →
      ∃ hc', ConvLSTMCell.forward cell x hc = Some hc' ∧ Inv hd hc'.

Lemma time_loop_inv cin hd kh kw cell T (x : T5 A) :
      cell_ok cin hd kh kw cell → Q cell →
      0 < cin → 0 < hd → Nat.Odd kh → Nat.Odd kw →
      shape5 b T cin h w x →
      ∀ ts, Forall (λ t, t < T) ts → ∀ hc out, Inv hd hc →
      ∃ hc' outs,
        ConvLSTM.time_loop cell x ts hc out = Some (hc', out ++ outs) ∧
        Inv hd hc' ∧ length outs = length ts ∧
        Forall (shape4 b hd h w) outs.
    Proof.
      intros Hok HQ ? ? ? ? Hx ts Hts.
      induction Hts as [|t ts Ht _ IH]; intros hc out Hhc; simpl.
      - exists hc, []. by rewrite app_nil_r.
      - destruct (select1_shape _ _ _ _ _ _ _ Hx Ht) as (xt & -> & Hxt). simpl.
        destruct (Inv_step _ _ _ _ _ _ _ Hok HQ ltac:(done) ltac:(done)
                    ltac:(done) ltac:(done) Hxt Hhc) as (hc1 & -> & Hhc1).
        simpl.
        destruct (IH hc1 (out ++ [hc1.1]) Hhc1) as (hc' & outs & -> & ? & ? & ?).
        exists hc', (hc1.1 :: outs). rewrite <- app_assoc. simpl.
        split; [done|]. split; [done|]. split; [lia|].
        constructor; [|done]. by apply Inv_shape.
    Qed.

Lemma layer_loop_inv (self : ConvLSTM.t A) hs T :
      0 < T →
      ∀ cin dims cells, cells_ok cin dims cells →
      ∀ k x lo ls,
      Forall layer_valid dims → Forall Q cells → 0 < cin →
      (∀ i, i < length dims → ConvLSTM.cell_list self !! (k + i) = cells !! i) →
      (∀ i d, dims !! i = Some d → ∃ hc, hs !! (k + i) = Some hc ∧ Inv d.1 hc) →
      shape5 b T cin h w x →
      ∃ lo' ls',
        ConvLSTM.layer_loop self hs T (seq k (length dims)) x lo ls
          = Some (lo ++ lo', ls ++ ls') ∧
        Forall2 (λ d o, shape5 b T d.1 h w o) dims lo' ∧
        Forall2 (λ d hc, Inv d.1 hc) dims ls'.
    Proof.
      intros HT cin dims cells Hcells.
      induction Hcells as [cin|cin hd kh kw dims cell cells Hcell Hcells IH];
        intros k x lo ls Hvalid HQ Hcin Hlook Hhs Hx; simpl.
      - exists [], []. rewrite !app_nil_r. repeat split; constructor.
      - apply list.Forall_cons in Hvalid as [(Hhd & Hkh & Hkw) Hvalid].
        apply list.Forall_cons in HQ as [HQ1 HQ].
        simpl in Hhd, Hkh, Hkw.
        destruct (Hhs 0 _ eq_refl) as (hc & Hhc & HI).
        rewrite Nat.add_0_r in Hhc. rewrite Hhc. simpl.
        pose proof (Hlook 0 ltac:(simpl; lia)) as Hl0.
        rewrite Nat.add_0_r in Hl0. rewrite Hl0. simpl.
        destruct (time_loop_inv _ _ _ _ _ _ _ Hcell HQ1 Hcin Hhd Hkh Hkw Hx
                    (seq 0 T) ltac:(apply Forall_seq; lia) hc [] HI)
          as (hc' & outs & -> & Hhc' & Hlen & Houts).
        simpl. rewrite length_seq in Hlen.
        destruct (stack1_shape _ _ _ _ _ Houts) as (x' & -> & Hx'); [|done..|].
        { intros ->. simpl in Hlen. lia. }
        simpl. rewrite Hlen in Hx'.
        destruct (IH (S k) x' (lo ++ [x']) (ls ++ [hc']) Hvalid HQ Hhd)
          as (lo' & ls' & -> & Hlo & Hls).
        + intros i Hi. replace (S k + i) with (k + S i) by lia.
          rewrite Hlook by (simpl; lia). done.
        + intros i d Hd. replace (S k + i) with (k + S i) by lia.
          by apply (Hhs (S i)).
        + done.
        + exists (x' :: lo'), (hc' :: ls'). rewrite <- !app_assoc. simpl.
          split; [done|]. split; by constructor.
    Qed.

Lemma init_states_inv cin dims (cells : list (ConvLSTMCell.t A)) :
      cells_ok cin dims cells →
      (∀ hd, Inv hd (torch.zeros b hd h w, torch.zeros b hd h w)) →
      Forall2 (λ d hc, Inv d.1 hc) dims
        ((λ cell, ConvLSTMCell.init_hidden cell b (h, w)) <$> cells).
    Proof.
      intros Hcells Hz.
      induction Hcells as [|cin' hd kh kw dims cell cells [Hhd _] _ IH]; simpl;
        constructor; [|done].
      rewrite Hhd. apply Hz.
    Qed.

Lemma forward_lists_inv cin dims (self : ConvLSTM.t A) T (x : T5 A) hidden :
      stack_ok cin dims self → Forall layer_valid dims →
      Forall Q (ConvLSTM.cell_list self) → 0 < cin → 0 < T →
      shape5 b T cin h w
        (if negb (ConvLSTM.batch_first self) then torch.permute10 x else x) →
      match hidden with
      | None => ∀ hd, Inv hd (torch.zeros b hd h w, torch.zeros b hd h w)
      | Some hs => Forall2 (λ d hc, Inv d.1 hc) dims hs
      end →
      ∃ lo ls,
        ConvLSTM.forward_lists self x hidden =
          Some (if ConvLSTM.return_all_layers self then (lo, ls)
                else (ConvLSTM.last1 lo, ConvLSTM.last1 ls)) ∧
        Forall2 (λ d o, shape5 b T d.1 h w o) dims lo ∧
        Forall2 (λ d hc, Inv d.1 hc) dims ls.
    Proof.
      intros [HL Hcells] Hvalid HQ Hcin HT Hx Hhid. unfold ConvLSTM.forward_lists.
      set (x' := if negb (ConvLSTM.batch_first self) then torch.permute10 x else x)
        in *.
      rewrite (shape5_size _ _ _ _ _ _ Hx) by done.
      assert (∃ hs, match hidden with
                    | Some hs => Some hs
                    | None => ConvLSTM._init_hidden self b (h, w)
                    end = Some hs ∧ Forall2 (λ d hc, Inv d.1 hc) dims hs)
        as (hs & -> & Hhs).
      { destruct hidden as [hs|]; [by exists hs|].
        unfold ConvLSTM._init_hidden.
        rewrite HL, Nat2Z.id. rewrite <- (cells_ok_length _ _ _ Hcells).
        rewrite init_hidden_eq. eexists. split; [done|].
        by eapply init_states_inv. }
      simpl. rewrite HL, Nat2Z.id.
      destruct (layer_loop_inv self hs T HT cin dims _ Hcells 0 x' [] []
                  Hvalid HQ Hcin) as (lo & ls & -> & Hlo & Hls).
      - done.
      - intros i d Hd. simpl.
        destruct (Forall2_lookup_l _ _ _ _ _ Hhs Hd) as (hc & ? & ?). eauto.
      - done.
      - simpl. exists lo, ls. by destruct (ConvLSTM.return_all_layers self).
    Qed.
End invariant.
End stack_facts.

(** ** The windows of the pipeline *)

Section window_facts.
Context {A : Type} `{Scalar A}.

Lemma slice_length {X} lo hi (l : list X) :
    lo ≤ hi → hi ≤ length l → length (torch.slice lo hi l) = hi - lo.
  Proof. intros. unfold torch.slice. rewrite length_take, length_drop. lia. Qed.

Lemma slice_lookup {X} lo hi (l : list X) i :
    i < hi - lo → torch.slice lo hi l !! i = l !! (lo + i).
  Proof.
    intros. unfold torch.slice. by rewrite lookup_take, decide_True, lookup_drop.
  Qed.

Lemma window_shape b c t h w (x : T5 A) lo hi :
    shape5 b c t h w x → 0 < c → lo < hi → hi ≤ t →
    shape5 b (hi - lo) c h w (LongShortTimeAutoEncodeDecoder.window x lo hi).
  Proof.
    intros [Hb Hx] ? ? ?. unfold LongShortTimeAutoEncodeDecoder.window, torch.transpose12.
    split; [by rewrite !length_fmap|].
    rewrite <- list_fmap_compose. apply Forall_fmap.
    eapply list.Forall_impl; [done|]. intros e [Hc He]. simpl.
    assert (Forall (λ r, length r = hi - lo ∧ Forall (shape2 h w) r)
              (torch.slice lo hi <$> e)) as He'.
    { apply Forall_fmap. eapply list.Forall_impl; [done|].
      intros r [Ht Hr]. simpl. split; [apply slice_length; lia|].
      unfold torch.slice. by apply Forall_take, Forall_drop. }
    assert (length (default [] (head (torch.slice lo hi <$> e))) = hi - lo) as ->.
    { destruct e as [|r e]; simpl in *; [lia|].
      by apply list.Forall_cons in He' as [[? _] _]. }
    destruct (transpose_shape _ _ _ He') as [Hlen Hcols].
    split; [done|]. eapply list.Forall_impl; [done|].
    intros col [Hcol ?]. simpl in *. split; [|done].
    by rewrite Hcol, length_fmap.
  Qed.

  (** Step [t] of a window is frame [lo + t] of the clip. *)
Lemma window_lookup b c t h w (x : T5 A) lo hi i j k :
    shape5 b c t h w x → 0 < c → lo < hi → hi ≤ t → j < hi - lo →
    at3 (LongShortTimeAutoEncodeDecoder.window x lo hi) i j k = at3 x i k (lo + j).
  Proof.
    intros [Hb Hx] ? ? ? Hj.
    unfold at3, LongShortTimeAutoEncodeDecoder.window, torch.transpose12.
    rewrite <- list_fmap_compose, list_lookup_fmap.
    destruct (x !! i) as [e|] eqn:He; simpl; [|done].
    eapply Forall_lookup_1 in Hx as [Hc He']; [|done].
    assert (Forall (λ r, length r = hi - lo) (torch.slice lo hi <$> e)) as Hlen.
    { apply Forall_fmap. eapply list.Forall_impl; [done|].
      intros r [Ht Hr]. simpl. apply slice_length; lia. }
    assert (length (default [] (head (torch.slice lo hi <$> e))) = hi - lo) as ->.
    { destruct e as [|r e]; simpl in *; [lia|].
      by apply list.Forall_cons in Hlen as [? _]. }
    etrans; [exact (transpose_lookup _ _ k j Hlen Hj)|].
    rewrite list_lookup_fmap.
    destruct (e !! k) as [r|]; simpl; [|done].
    by apply slice_lookup.
  Qed.

Lemma cat0_eq b1 b2 t c h w (x y : T5 A) :
    shape5 b1 t c h w x → shape5 b2 t c h w y →
    0 < b1 → 0 < b2 → 0 < t → 0 < c → 0 < h →
    torch.cat0 x y = Some (x ++ y) ∧ shape5 (b1 + b2) t c h w (x ++ y).
  Proof.
    intros Hx Hy ? ? ? ? ?. unfold torch.cat0.
    rewrite (shape5_size _ _ _ _ _ _ Hx), (shape5_size _ _ _ _ _ _ Hy) by done.
    rewrite option_guard_True by done. split; [done|].
    destruct Hx as [Hx1 Hx], Hy as [Hy1 Hy]. split.
    - rewrite length_app. lia.
    - by apply Forall_app.
  Qed.

  (** The four windows, stacked along the batch axis. *)
Lemma windows_eq b c t h w (x : T5 A) :
    shape5 b c t h w x → 0 < b → 0 < c → 0 < h → 9 ≤ t →
    LongShortTimeAutoEncodeDecoder.windows x =
      Some (LongShortTimeAutoEncodeDecoder.window x 0 3 ++
            LongShortTimeAutoEncodeDecoder.window x 2 5 ++
            LongShortTimeAutoEncodeDecoder.window x 4 7 ++
            LongShortTimeAutoEncodeDecoder.window x 6 9) ∧
    shape5 (4 * b) 3 c h w
      (LongShortTimeAutoEncodeDecoder.window x 0 3 ++
       LongShortTimeAutoEncodeDecoder.window x 2 5 ++
       LongShortTimeAutoEncodeDecoder.window x 4 7 ++
       LongShortTimeAutoEncodeDecoder.window x 6 9).
  Proof.
    intros Hx ? ? ? ?. unfold LongShortTimeAutoEncodeDecoder.windows.
    pose proof (window_shape _ _ _ _ _ x 0 3 Hx) as W1.
    pose proof (window_shape _ _ _ _ _ x 2 5 Hx) as W2.
    pose proof (window_shape _ _ _ _ _ x 4 7 Hx) as W3.
    pose proof (window_shape _ _ _ _ _ x 6 9 Hx) as W4.
    simpl in W1, W2, W3, W4.
    specialize (W1 ltac:(lia) ltac:(lia) ltac:(lia)).
    specialize (W2 ltac:(lia) ltac:(lia) ltac:(lia)).
    specialize (W3 ltac:(lia) ltac:(lia) ltac:(lia)).
    specialize (W4 ltac:(lia) ltac:(lia) ltac:(lia)).
    destruct (cat0_eq _ _ _ _ _ _ _ _ W1 W2) as [-> W12]; [lia..|]. simpl.
    destruct (cat0_eq _ _ _ _ _ _ _ _ W12 W3) as [-> W123]; [lia..|]. simpl.
    destruct (cat0_eq _ _ _ _ _ _ _ _ W123 W4) as [-> W1234]; [lia..|].
    rewrite <- !app_assoc. split; [done|].
    rewrite <- !app_assoc in W1234.
    by replace (b + (b + (b + (b + 0)))) with (b + b + b + b) by lia.
  Qed.
End window_facts.

(** ** The stages of the pipeline *)

Section pipeline_facts.
Context {A : Type} `{Scalar A}.

  (** A one-layer stack run for one step on an explicit initial state is
      one step of its cell. *)
Lemma last_state_one_step (self : ConvLSTM.t A) cell (c79 : T3 A) hc :
    ConvLSTM.cell_list self = [cell] → ConvLSTM.num_layers self = 1%Z →
    ConvLSTM.batch_first self = true → ConvLSTM.return_all_layers self = false →
    LongShortTimeAutoEncodeDecoder.last_state self
      (torch.unsqueeze0 (torch.unsqueeze0 c79)) (Some [hc])
    = ConvLSTMCell.forward cell (torch.unsqueeze0 c79) hc.
  Proof.
    intros Hcells HL Hbf Hret.
    unfold LongShortTimeAutoEncodeDecoder.last_state, ConvLSTM.forward,
      ConvLSTM.forward_lists, torch.unsqueeze0.
    rewrite Hbf, Hret, HL. simpl. rewrite Hcells. simpl.
    destruct (ConvLSTMCell.forward cell [c79] hc) as [hc'|]; simpl; [|done].
    rewrite option_guard_True by (by constructor). done.
  Qed.

Lemma stack331_cell (self : ConvLSTM.t A) :
    stack331 self →
    ∃ cell, ConvLSTM.cell_list self = [cell] ∧ cell_ok 3 3 3 3 cell ∧
            ConvLSTM.num_layers self = 1%Z.
  Proof.
    intros ([HL Hcells] & _ & _). inversion Hcells as [|???????? Hnil]; subst.
    inversion Hnil; subst. eauto.
  Qed.

Lemma odd_3 : Nat.Odd 3.
  Proof. by exists 1. Qed.

Section invariant.
Variables h w : nat.
Hypothesis Hh : 0 < h.
Hypothesis Hw : 0 < w.
Variable Inv : nat → nat → T4 A * T4 A → Prop.
Variable Q : ConvLSTMCell.t A → Prop.
Hypothesis Inv_shape : ∀ b hd hc, Inv b hd hc → state_shape b hd h w hc.
Hypothesis Inv_step : ∀ b cin hd kh kw cell x hc,
      0 < b → cell_ok cin hd kh kw cell → Q cell →
      0 < cin → 0 < hd → Nat.Odd kh → Nat.Odd kw →
      shape4 b cin h w x → Inv b hd hc →
      ∃ hc', ConvLSTMCell.forward cell x hc = Some hc' ∧ Inv b hd hc'.
Hypothesis Inv_zero : ∀ b hd, Inv b hd (zero_state b hd h w).
Hypothesis Inv_reset : ∀ b hd hc,
      Inv b hd hc → Inv b hd (torch.zeros b hd h w, hc.2).

Lemma last_state_inv (self : ConvLSTM.t A) b T (x : T5 A) :
      stack331 self → Forall Q (ConvLSTM.cell_list self) →
      0 < b → 0 < T → shape5 b T 3 h w x →
      ∃ hc, LongShortTimeAutoEncodeDecoder.last_state self x None = Some hc ∧
            Inv b 3 hc.
    Proof.
      intros (Hok & Hbf & Hret) HQ Hb HT Hx.
      destruct (forward_lists_inv b h w Hb Hh Hw (Inv b) Q (Inv_shape b)
                  (λ cin hd kh kw cell x hc, Inv_step b cin hd kh kw cell x hc Hb)
                  3 [(3, (3, 3))] self T x None Hok)
        as (lo & ls & Hfwd & Hlo & Hls).
      - repeat constructor; simpl; apply odd_3.
      - done.
      - lia.
      - done.
      - by rewrite Hbf.
      - intros hd. apply Inv_zero.
      - apply Forall2_cons_inv_l in Hls as (hc & ls' & Hhc & ->%Forall2_nil_inv_l & ->).
        exists hc. split; [|done].
        unfold LongShortTimeAutoEncodeDecoder.last_state, ConvLSTM.forward.
        rewrite Hfwd, Hret. done.
    Qed.

    (** The three stages of the pipeline on a clip of batch size [b]. *)
Lemma pipeline_inv (net : LongShortTimeAutoEncodeDecoder.t A) b t (clip : T5 A) :
      net_ok net →
      Forall Q (ConvLSTM.cell_list
                  (LongShortTimeAutoEncodeDecoder.convLstmMotionAwareBlock net)) →
      Forall Q (ConvLSTM.cell_list
                  (LongShortTimeAutoEncodeDecoder.convLstmMotionPredBlock net)) →
      Forall Q (ConvLSTM.cell_list
                  (LongShortTimeAutoEncodeDecoder.convLstmDecode net)) →
      0 < b → 9 ≤ t → shape5 b 3 t h w clip →
      ∃ stacked hc_enc hc_pred c79 cell hc_dec,
        LongShortTimeAutoEncodeDecoder.windows clip = Some stacked ∧
        LongShortTimeAutoEncodeDecoder.last_state
          (LongShortTimeAutoEncodeDecoder.convLstmMotionAwareBlock net)
          stacked None = Some hc_enc ∧
        Inv (4 * b) 3 hc_enc ∧
        LongShortTimeAutoEncodeDecoder.last_state
          (LongShortTimeAutoEncodeDecoder.convLstmMotionPredBlock net)
          (torch.unsqueeze0 (torch.slice 0 3 hc_enc.2)) None = Some hc_pred ∧
        Inv 1 3 hc_pred ∧
        hc_enc.2 !! 3 = Some c79 ∧
        ConvLSTM.cell_list (LongShortTimeAutoEncodeDecoder.convLstmDecode net)
          = [cell] ∧
        ConvLSTMCell.forward cell (torch.unsqueeze0 c79)
          (torch.zeros 1 3 h w, hc_pred.2) = Some hc_dec ∧
        Inv 1 3 hc_dec ∧
        LongShortTimeAutoEncodeDecoder.forward net clip = Some hc_dec.1.
    Proof.
      intros (Ha & Hp & Hd) HQa HQp HQd Hb Ht Hclip.
      destruct (windows_eq _ _ _ _ _ _ Hclip) as [Hwin Hstacked]; [lia..|].
      destruct (last_state_inv _ (4 * b) 3 _ Ha HQa ltac:(lia) ltac:(lia) Hstacked)
        as (hc_enc & Henc & Ienc).
      pose proof (Inv_shape _ _ _ Ienc) as [_ [Hc1 Hc2]].
      assert (shape5 1 3 3 h w (torch.unsqueeze0 (torch.slice 0 3 hc_enc.2))) as Hpin.
      { split; [done|]. constructor; [|constructor]. split.
        - apply slice_length; lia.
        - unfold torch.slice. by apply Forall_take, Forall_drop. }
      destruct (last_state_inv _ 1 3 _ Hp HQp ltac:(lia) ltac:(lia) Hpin)
        as (hc_pred & Hpred & Ipred).
      pose proof (Inv_shape _ _ _ Ipred) as [_ Hcp].
      destruct (hc_enc.2 !! 3) as [c79|] eqn:Hc79.
      2:{ apply lookup_ge_None in Hc79. lia. }
      assert (shape4 1 3 h w (torch.unsqueeze0 c79)) as Hx.
      { split; [done|]. constructor; [|constructor].
        by eapply Forall_lookup_1 in Hc2. }
      destruct (stack331_cell _ Hd) as (cell & Hcells & Hcell & HL).
      rewrite Hcells in HQd. apply list.Forall_cons in HQd as [HQcell _].
      destruct (Inv_step 1 3 3 3 3 cell (torch.unsqueeze0 c79)
                  (torch.zeros 1 3 h w, hc_pred.2))
        as (hc_dec & Hdec & Idec);
        [lia|done|done|lia|lia|apply odd_3|apply odd_3|done|by apply Inv_reset|].
      eexists. exists hc_enc, hc_pred, c79, cell, hc_dec.
      repeat (split; [done|]).
      unfold LongShortTimeAutoEncodeDecoder.forward.
      rewrite Hwin. simpl. rewrite Henc. simpl. rewrite Hpred. simpl.
      unfold LongShortTimeAutoEncodeDecoder.decode.
      rewrite Hc79. cbv beta iota delta [mbind option_bind].
      rewrite (shape4_size _ _ _ _ _ Hcp) by lia.
      destruct Hd as (_ & Hbf & Hret).
      rewrite (last_state_one_step _ cell) by done.
      rewrite Hdec. done.
    Qed.
End invariant.
End pipeline_facts.

(** ** Shapes are kept; zero states are kept by zero parameters *)

Section shape_instances.
Context {A : Type} `{Scalar A}.

Lemma cell_step_shape b h w cin hd kh kw (cell : ConvLSTMCell.t A) x hc :
    0 < b → 0 < h → 0 < w →
    cell_ok cin hd kh kw cell → 0 < cin → 0 < hd → Nat.Odd kh → Nat.Odd kw →
    shape4 b cin h w x → state_shape b hd h w hc →
    ∃ hc', ConvLSTMCell.forward cell x hc = Some hc' ∧ state_shape b hd h w hc'.
  Proof.
    intros ? ? ? Hok ? ? Hkh Hkw Hx [Hh Hc]. destruct hc as [hp c]. simpl in *.
    destruct (cell_forward_eq cin hd kh kw cell b h w x hp c) as (Hcc & _ & Hfwd);
      [done..|].
    eexists. split; [exact Hfwd|]. by apply gate_step_shape.
  Qed.

Lemma stack_forward_shape b h w cin dims (self : ConvLSTM.t A) T (x : T5 A) :
    0 < b → 0 < h → 0 < w →
    stack_ok cin dims self → Forall layer_valid dims → 0 < cin → 0 < T →
    shape5 b T cin h w
      (if negb (ConvLSTM.batch_first self) then torch.permute10 x else x) →
    ∃ lo ls,
      ConvLSTM.forward_lists self x None =
        Some (if ConvLSTM.return_all_layers self then (lo, ls)
              else (ConvLSTM.last1 lo, ConvLSTM.last1 ls)) ∧
      Forall2 (λ d o, shape5 b T d.1 h w o) dims lo ∧
      Forall2 (λ d hc, state_shape b d.1 h w hc) dims ls.
  Proof.
    intros Hb Hh Hw Hok Hvalid Hcin HT Hx.
    eapply (forward_lists_inv b h w Hb Hh Hw (λ hd, state_shape b hd h w)
             (λ _, True)); try done.
    - intros. by eapply cell_step_shape.
    - by apply Forall_true.
    - intros hd. split; apply shape4_zeros.
  Qed.

Lemma pipeline_shape h w (net : LongShortTimeAutoEncodeDecoder.t A) b t
      (clip : T5 A) :
    0 < h → 0 < w → net_ok net → 0 < b → 9 ≤ t → shape5 b 3 t h w clip →
    ∃ stacked hc_enc hc_pred c79 cell hc_dec,
      LongShortTimeAutoEncodeDecoder.windows clip = Some stacked ∧
      LongShortTimeAutoEncodeDecoder.last_state
        (LongShortTimeAutoEncodeDecoder.convLstmMotionAwareBlock net)
        stacked None = Some hc_enc ∧
      state_shape (4 * b) 3 h w hc_enc ∧
      LongShortTimeAutoEncodeDecoder.last_state
        (LongShortTimeAutoEncodeDecoder.convLstmMotionPredBlock net)
        (torch.unsqueeze0 (torch.slice 0 3 hc_enc.2)) None = Some hc_pred ∧
      state_shape 1 3 h w hc_pred ∧
      hc_enc.2 !! 3 = Some c79 ∧
      ConvLSTM.cell_list (LongShortTimeAutoEncodeDecoder.convLstmDecode net)
        = [cell] ∧
      ConvLSTMCell.forward cell (torch.unsqueeze0 c79)
        (torch.zeros 1 3 h w, hc_pred.2) = Some hc_dec ∧
      state_shape 1 3 h w hc_dec ∧
      LongShortTimeAutoEncodeDecoder.forward net clip = Some hc_dec.1.
  Proof.
    intros Hh Hw Hnet Hb Ht Hclip.
    eapply (pipeline_inv h w Hh Hw (λ b hd, state_shape b hd h w) (λ _, True));
      try done; try (by apply Forall_true).
    - intros. by eapply cell_step_shape.
    - intros. split; apply shape4_zeros.
    - intros ? ? ? [? ?]. split; [apply shape4_zeros|done].
  Qed.
End shape_instances.

Section zero_instances.
Context {A : Type} `{ScalarLaws A}.

Lemma stack_forward_zero b h w cin dims (self : ConvLSTM.t A) T (x : T5 A) :
    0 < b → 0 < h → 0 < w →
    stack_ok cin dims self → stack_zero self →
    Forall layer_valid dims → 0 < cin → 0 < T →
    shape5 b T cin h w
      (if negb (ConvLSTM.batch_first self) then torch.permute10 x else x) →
    ∃ lo ls,
      ConvLSTM.forward_lists self x None =
        Some (if ConvLSTM.return_all_layers self then (lo, ls)
              else (ConvLSTM.last1 lo, ConvLSTM.last1 ls)) ∧
      Forall2 (λ d o, shape5 b T d.1 h w o) dims lo ∧
      Forall2 (λ d hc, hc = zero_state b d.1 h w) dims ls.
  Proof.
    intros Hb Hh Hw Hok Hz Hvalid Hcin HT Hx.
    eapply (forward_lists_inv b h w Hb Hh Hw (λ hd hc, hc = zero_state b hd h w)
             cell_zero); try done.
    - intros hd hc ->. split; apply shape4_zeros.
    - intros cin' hd kh kw cell x' hc Hcell HQ ? ? ? ? Hx' ->.
      eexists. split; [|done]. by eapply cell_forward_zero.
  Qed.

Lemma pipeline_zero h w (net : LongShortTimeAutoEncodeDecoder.t A) b t
      (clip : T5 A) :
    0 < h → 0 < w → net_ok net → net_zero net →
    0 < b → 9 ≤ t → shape5 b 3 t h w clip →
    LongShortTimeAutoEncodeDecoder.forward net clip = Some (torch.zeros 1 3 h w).
  Proof.
    intros Hh Hw Hnet (Hza & Hzp & Hzd) Hb Ht Hclip.
    destruct (pipeline_inv h w Hh Hw (λ b hd hc, hc = zero_state b hd h w)
                cell_zero) with (net := net) (b := b) (t := t) (clip := clip)
      as (? & ? & ? & ? & ? & hc_dec & _ & _ & _ & _ & _ & _ & _ & _ & -> & ->);
      try done.
    - intros ? ? ? ->. split; apply shape4_zeros.
    - intros b' cin' hd kh kw cell x' hc ? Hcell HQ ? ? ? ? Hx' ->.
      eexists. split; [|done]. by eapply cell_forward_zero.
    - by intros ? ? ? ->.
  Qed.
End zero_instances.

(** ** Construction of the stacks of the pipeline *)

Section constructors.
Context {A : Type} `{Scalar A}.

  (** The stacks of the pipeline as their constructor builds them. *)
Lemma stack331_init (params : nat → conv_params A) :
    ∃ self,
      ConvLSTM.__init__ (PyInt 3) (PyInt 3) (PyTuple [PyInt 3; PyInt 3]) 1
        true true false params = inr self ∧
      stack331 self ∧
      (params 0 = zero_params → stack_zero self).
  Proof.
    destruct (cell_init_ok 3 3 3 3 true (params 0)) as (cell & Hcell & Hok & Hz).
    change (Z.of_nat 3) with 3%Z in Hcell.
    eexists. split; [|split].
    - unfold ConvLSTM.__init__. cbn -[ConvLSTMCell.__init__ Z.to_nat].
      change (Z.to_nat 1) with 1. cbn -[ConvLSTMCell.__init__].
      destruct (decide (0 = 0)); [|congruence]. cbn -[ConvLSTMCell.__init__].
      rewrite Hcell. rewrite !bool_decide_eq_true_2 by done. cbn. reflexivity.
    - split; [|done]. split; [done|]. cbn.
      apply cells_ok_cons; [exact Hok|apply cells_ok_nil].
    - intros Hp. constructor; [by apply Hz|constructor].
  Qed.

Lemma net_init (aware pred decode : nat → conv_params A) :
    ∃ net,
      LongShortTimeAutoEncodeDecoder.__init__ aware pred decode = inr net ∧
      net_ok net ∧
      (aware 0 = zero_params → pred 0 = zero_params → decode 0 = zero_params →
       net_zero net).
  Proof.
    destruct (stack331_init aware) as (a & Ha & Hoka & Hza).
    destruct (stack331_init pred) as (p & Hp & Hokp & Hzp).
    destruct (stack331_init decode) as (d & Hd & Hokd & Hzd).
    unfold LongShortTimeAutoEncodeDecoder.__init__.
    rewrite Ha. cbn -[ConvLSTM.__init__]. rewrite Hp. cbn -[ConvLSTM.__init__].
    rewrite Hd. cbn.
    eexists. split; [reflexivity|]. split; [done|].
    intros. split; [|split]; auto.
  Qed.
End constructors.

(** * The claims *)

(** ** Construction *)

Lemma forallb_false_Exists {X} (f : X → bool) (l : list X) :
  forallb f l = false ↔ Exists (λ e, f e = false) l.
Proof.
  induction l as [|x l IH]; simpl.
  - split; [done|]. by intros ?%Exists_nil.
  - rewrite Exists_cons, andb_false_iff, IH. done.
Qed.

Lemma check_rejects_iff (ks : pyval) :
  ConvLSTM._check_kernel_size_consistency ks ≠ inr () ↔
  (isinstance_tuple ks = false ∧ isinstance_list ks = false) ∨
  (∃ l, ks = PyList l ∧ Exists (λ e, isinstance_tuple e = false) l).
Proof.
  unfold ConvLSTM._check_kernel_size_consistency.
  destruct ks as [z|s| |l|l]; simpl; try (split; [by left|done]).
  - split; [done|]. intros [[? _]|(l' & ? & _)]; done.
  - destruct (forallb isinstance_tuple l) eqn:Hl; simpl.
    + split; [done|]. intros [[_ ?]|(l' & [= <-] & Hex)]; [done|].
      apply forallb_false_Exists in Hex. congruence.
    + split; [|done]. intros _. right. exists l. split; [done|].
      by apply forallb_false_Exists.
Qed.

Lemma check_error (ks : pyval) :
  ConvLSTM._check_kernel_size_consistency ks ≠ inr () →
  ConvLSTM._check_kernel_size_consistency ks =
    inl (ValueError "`kernel_size` must be tuple or list of tuples").
Proof.
  unfold ConvLSTM._check_kernel_size_consistency. by case_match.
Qed.

(** C9. The kernel-size check of the stack constructor accepts every
    tuple, whatever its arity and whatever its elements: a 1-tuple, a
    3-tuple and a tuple of non-integers pass.  It rejects exactly the
    values that are neither a tuple nor a list, and the lists with at
    least one element that is not a tuple; a rejection is the
    [ValueError] of the check. *)
Theorem kernel_size_check_accepts_every_tuple :
  (∀ elems, ConvLSTM._check_kernel_size_consistency (PyTuple elems) = inr ()) ∧
  ConvLSTM._check_kernel_size_consistency (PyTuple [PyInt 3]) = inr () ∧
  ConvLSTM._check_kernel_size_consistency (PyTuple [PyInt 3; PyInt 3; PyInt 3])
    = inr () ∧
  ConvLSTM._check_kernel_size_consistency (PyTuple [PyStr "a"; PyNone]) = inr () ∧
  (∀ ks,
     ConvLSTM._check_kernel_size_consistency ks ≠ inr () ↔
     (isinstance_tuple ks = false ∧ isinstance_list ks = false) ∨
     (∃ l, ks = PyList l ∧ Exists (λ e, isinstance_tuple e = false) l)) ∧
  (∀ ks,
     ConvLSTM._check_kernel_size_consistency ks ≠ inr () →
     ConvLSTM._check_kernel_size_consistency ks =
       inl (ValueError "`kernel_size` must be tuple or list of tuples")).
Proof.
  repeat split; try done.
  - apply check_rejects_iff.
  - apply check_rejects_iff.
  - apply check_error.
Qed.

(** C5, as the specification states it, fails: a kernel size that is
    neither a pair nor a list of pairs, the triple [(3, 3, 3)], passes the
    validation of the constructor and a stack is built. *)
Lemma construction_accepts_a_triple :
  spec_kernel_size_valid (PyTuple [PyInt 3; PyInt 3; PyInt 3]) = false ∧
  ∃ self : ConvLSTM.t R,
    ConvLSTM.__init__ (PyInt 3) (PyInt 3) (PyTuple [PyInt 3; PyInt 3; PyInt 3]) 1
      true true false (λ _, zero_params) = inr self.
Proof. split; [reflexivity|]. eexists. reflexivity. Qed.

Section construction.
Context {A : Type} `{Scalar A}.

  (** C5, amended.  The constructor of the stack raises the configuration
      error of the kernel-size check when [kernel_size] is neither a tuple
      nor a list whose elements are all tuples; a bare integer is such a
      value.  When the check passes, [kernel_size] and [hidden_dim] are
      broadcast to lists, and the constructor raises the configuration
      error of the length check unless both lengths equal [num_layers].
      An error is the whole result: no stack is returned with it. *)
Theorem construction_validates_configuration
      (input_dim hidden_dim kernel_size : pyval) (num_layers : Z)
      (batch_first bias return_all_layers : bool) (params : nat → conv_params A) :
    let r := ConvLSTM.__init__ input_dim hidden_dim kernel_size num_layers
               batch_first bias return_all_layers params in
    (isinstance_tuple kernel_size = false →
     (∀ l, kernel_size = PyList l → Exists (λ e, isinstance_tuple e = false) l) →
     r = inl (ValueError "`kernel_size` must be tuple or list of tuples")) ∧
    (∀ z, kernel_size = PyInt z →
     r = inl (ValueError "`kernel_size` must be tuple or list of tuples")) ∧
    (∃ len_k len_h,
       ConvLSTM.py_len (ConvLSTM._extend_for_multilayer kernel_size num_layers)
         = inr len_k ∧
       ConvLSTM.py_len (ConvLSTM._extend_for_multilayer hidden_dim num_layers)
         = inr len_h ∧
       (ConvLSTM._check_kernel_size_consistency kernel_size = inr () →
        ¬ (len_k = len_h ∧ len_h = num_layers) →
        r = inl (ValueError "Inconsistent list length."))) ∧
    (∀ e, r = inl e → ∀ self, r ≠ inr self).
  Proof.
    intros r.
    assert (ConvLSTM._check_kernel_size_consistency kernel_size ≠ inr () →
            r = inl (ValueError "`kernel_size` must be tuple or list of tuples"))
      as Hrej.
    { intros Hc%check_error. unfold r, ConvLSTM.__init__. by rewrite Hc. }
    split; [|split; [|split]].
    - intros Ht Hl. apply Hrej, check_rejects_iff.
      destruct kernel_size as [z|s| |l|l]; try (by left).
      right. exists l. split; [done|]. by apply Hl.
    - intros z ->. by apply Hrej.
    - assert (∀ p, ∃ l, ConvLSTM._extend_for_multilayer p num_layers = PyList l)
        as Hext.
      { intros p. unfold ConvLSTM._extend_for_multilayer.
        destruct p; simpl; eauto. }
      destruct (Hext kernel_size) as [lk Hlk], (Hext hidden_dim) as [lh Hlh].
      exists (Z.of_nat (length lk)), (Z.of_nat (length lh)).
      rewrite Hlk, Hlh. split; [done|]. split; [done|].
      intros Hc Hne. unfold r, ConvLSTM.__init__. rewrite Hc, Hlk, Hlh. simpl.
      repeat case_bool_decide; simpl; try done.
      by destruct Hne.
    - intros e He self. rewrite He. done.
  Qed.
End construction.

Lemma construction_validates_configuration_witness :
  ConvLSTM.__init__ (A:=R) (PyInt 3) (PyInt 3) (PyInt 3) 1 true true false
    (λ _, zero_params)
  = inl (ValueError "`kernel_size` must be tuple or list of tuples") ∧
  ConvLSTM.__init__ (A:=R) (PyInt 3) (PyList [PyInt 3; PyInt 3])
    (PyTuple [PyInt 3; PyInt 3]) 1 true true false (λ _, zero_params)
  = inl (ValueError "Inconsistent list length.").
Proof.
  split.
  - apply (construction_validates_configuration (A:=R) (PyInt 3) (PyInt 3)
             (PyInt 3) 1 true true false (λ _, zero_params)).
    + reflexivity.
    + intros l Hl. discriminate Hl.
  - destruct (construction_validates_configuration (A:=R) (PyInt 3)
                (PyList [PyInt 3; PyInt 3]) (PyTuple [PyInt 3; PyInt 3]) 1
                true true false (λ _, zero_params))
      as (_ & _ & (len_k & len_h & Hk & Hh & Hlen) & _).
    apply Hlen; [reflexivity|].
    injection Hk as <-. injection Hh as <-. simpl. lia.
Defined.

(** ** The cell *)

Lemma R_laws : ScalarLaws R.
Proof.
  split; simpl.
  - lra.
  - intros x. lra.
  - intros x. lra.
  - unfold Rtrigo_def.tanh. rewrite sinh_0. lra.
Qed.

#[export] Existing Instance R_laws.

Section cell_claims.
Context {A : Type} `{Scalar A}.

Lemma at4_is_Some b c h w (t : T4 A) i k y x :
    shape4 b c h w t → i < b → k < c → y < h → x < w →
    is_Some (at4 t i k y x).
  Proof.
    intros [Hb Ht] Hi Hk Hy Hx. unfold at4.
    destruct (t !! i) as [t3|] eqn:H3.
    2:{ apply lookup_ge_None in H3. lia. }
    eapply Forall_lookup_1 in Ht as [Hc Ht3]; [|done]. simpl.
    destruct (t3 !! k) as [t2|] eqn:H2.
    2:{ apply lookup_ge_None in H2. lia. }
    eapply Forall_lookup_1 in Ht3 as [Hh Ht2]; [|done]. simpl.
    destruct (t2 !! y) as [t1|] eqn:H1.
    2:{ apply lookup_ge_None in H1. lia. }
    eapply Forall_lookup_1 in Ht2; [|done]. simpl.
    apply lookup_lt_is_Some. unfold shape1 in Ht2. lia.
  Qed.

Lemma at4_cat b c1 c2 h w (s t : T4 A) i k y x :
    shape4 b c1 h w s → shape4 b c2 h w t → i < b →
    (k < c1 → at4 (zip_with app s t) i k y x = at4 s i k y x) ∧
    at4 (zip_with app s t) i (c1 + k) y x = at4 t i k y x.
  Proof.
    intros [Hs1 Hs] [Ht1 Ht] Hi. unfold at4. rewrite lookup_zip_with.
    destruct (s !! i) as [s3|] eqn:H3.
    2:{ apply lookup_ge_None in H3. lia. }
    destruct (t !! i) as [t3|] eqn:H3'.
    2:{ apply lookup_ge_None in H3'. lia. }
    eapply Forall_lookup_1 in Hs as [Hc _]; [|done]. simpl. split.
    - intros Hk. by rewrite lookup_app_l by lia.
    - rewrite lookup_app_r by lia. by replace (c1 + k - length s3) with k by lia.
  Qed.

  (** C1. For every input of shape [b, cin, h, w] and state [(hp, c)] of
      shape [b, hd, h, w], one step of a cell with an odd kernel
      concatenates the input and the working state along the channel
      axis, applies the convolution, whose result has [4 * hd] channels
      and the spatial size of the input, and returns the memory state
      [forget * c + input * candidate] and the working state
      [output * tanh] of it, entry by entry: the four channel groups of
      the convolution result are, in this order, the pre-activations of
      the input, forget and output gates (through sigmoid) and of the
      candidate (through tanh). *)
Theorem cell_step_is_gated_update cin hd kh kw (cell : ConvLSTMCell.t A)
      b h w (x hp c : T4 A) :
    cell_ok cin hd kh kw cell → 0 < cin → 0 < hd → Nat.Odd kh → Nat.Odd kw →
    0 < b → 0 < h → 0 < w →
    shape4 b cin h w x → shape4 b hd h w hp → shape4 b hd h w c →
    ∃ combined cc h_next c_next,
      torch.cat1 x hp = Some combined ∧
      shape4 b (cin + hd) h w combined ∧
      (∀ i k y x', i < b →
         (k < cin → at4 combined i k y x' = at4 x i k y x') ∧
         at4 combined i (cin + k) y x' = at4 hp i k y x') ∧
      Conv2d.forward (ConvLSTMCell.conv cell) combined = Some cc ∧
      shape4 b (4 * hd) h w cc ∧
      ConvLSTMCell.forward cell x (hp, c) = Some (h_next, c_next) ∧
      shape4 b hd h w h_next ∧
      shape4 b hd h w c_next ∧
      ∀ i k y x', i < b → k < hd → y < h → x' < w →
        ∃ vi vf vo vg vc,
          at4 cc i k y x' = Some vi ∧
          at4 cc i (hd + k) y x' = Some vf ∧
          at4 cc i (2 * hd + k) y x' = Some vo ∧
          at4 cc i (3 * hd + k) y x' = Some vg ∧
          at4 c i k y x' = Some vc ∧
          at4 c_next i k y x' =
            Some (sadd (smul (ssigmoid vf) vc) (smul (ssigmoid vi) (stanh vg))) ∧
          at4 h_next i k y x' =
            Some (smul (ssigmoid vo)
                    (stanh (sadd (smul (ssigmoid vf) vc)
                                 (smul (ssigmoid vi) (stanh vg))))).
  Proof.
    intros Hok ? ? Hkh Hkw ? ? ? Hx Hhp Hc.
    destruct (cell_forward_eq cin hd kh kw cell b h w x hp c) as (Hcc & Hconv & Hfwd);
      [done..|].
    set (cc := conv_out (ConvLSTMCell.conv cell) kh kw (kh `div` 2) (kw `div` 2)
                 h w (zip_with app x hp)) in *.
    destruct (gate_step_shape b hd h w cc c Hcc Hc) as [Hsh Hsc].
    exists (zip_with app x hp), cc, (gate_step hd cc c).1, (gate_step hd cc c).2.
    split; [by eapply cat1_eq|]. split; [by apply cat1_shape|].
    split; [intros; by eapply at4_cat|]. split; [done|]. split; [done|].
    split; [by rewrite Hfwd; destruct (gate_step hd cc c)|].
    split; [done|]. split; [done|].
    intros i k y x' Hi Hk Hy Hx'.
    destruct (at4_is_Some _ _ _ _ cc i k y x' Hcc) as [vi Hvi]; [lia..|].
    destruct (at4_is_Some _ _ _ _ cc i (hd + k) y x' Hcc) as [vf Hvf]; [lia..|].
    destruct (at4_is_Some _ _ _ _ cc i (2 * hd + k) y x' Hcc) as [vo Hvo]; [lia..|].
    destruct (at4_is_Some _ _ _ _ cc i (3 * hd + k) y x' Hcc) as [vg Hvg]; [lia..|].
    destruct (at4_is_Some _ _ _ _ c i k y x' Hc) as [vc Hvc]; [lia..|].
    exists vi, vf, vo, vg, vc. repeat (split; [done|]).
    assert (at4 (gate_step hd cc c).2 i k y x' =
            Some (sadd (smul (ssigmoid vf) vc) (smul (ssigmoid vi) (stanh vg))))
      as Hnext.
    { unfold gate_step, torch.sigmoid, torch.tanh. cbn [fst snd].
      rewrite !at4_zip4, !at4_map4, !at4_chunk by done.
      replace (0 * hd + k) with k by lia.
      replace (1 * hd + k) with (hd + k) by lia.
      by rewrite Hvi, Hvf, Hvg, Hvc. }
    split; [done|].
    unfold gate_step, torch.sigmoid, torch.tanh in Hnext |- *.
    cbn [fst snd] in Hnext |- *.
    rewrite at4_zip4, !at4_map4, Hnext, at4_chunk by done.
    by rewrite Hvo.
  Qed.
End cell_claims.

Lemma cell_step_is_gated_update_witness :
  ∃ (cell : ConvLSTMCell.t R) hc,
    ConvLSTMCell.__init__ (PyInt 2) (PyInt 1) (PyTuple [PyInt 3; PyInt 3]) true
      zero_params = inr cell ∧
    ConvLSTMCell.forward cell (torch.zeros 1 2 4 4)
      (torch.zeros 1 1 4 4, torch.zeros 1 1 4 4) = Some hc.
Proof.
  destruct (cell_init_ok (A:=R) 2 1 3 3 true zero_params) as (cell & Hcell & Hok & _).
  destruct (cell_step_is_gated_update 2 1 3 3 cell 1 4 4 (torch.zeros 1 2 4 4)
              (torch.zeros 1 1 4 4) (torch.zeros 1 1 4 4) Hok)
    as (? & ? & h_next & c_next & _ & _ & _ & _ & _ & Hfwd & _);
    [lia|lia|by exists 1|by exists 1|lia|lia|lia|apply shape4_zeros..|].
  exists cell, (h_next, c_next). split; [exact Hcell|exact Hfwd].
Defined.

Section cell_claims2.
Context {A : Type} `{Scalar A}.

Lemma cell_init_padding (cin hd kh kw : nat) (bias : bool)
      (params : conv_params A) cell :
    ConvLSTMCell.__init__ (PyInt (Z.of_nat cin)) (PyInt (Z.of_nat hd))
      (PyTuple [PyInt (Z.of_nat kh); PyInt (Z.of_nat kw)]) bias params
    = inr cell →
    ConvLSTMCell.padding cell =
      ((Z.of_nat kh `div` 2)%Z, (Z.of_nat kw `div` 2)%Z).
  Proof.
    unfold ConvLSTMCell.__init__, Conv2d.__init__, py_dim. simpl.
    rewrite !decide_True by lia. simpl. by intros [= <-].
  Qed.

  (** C8. With the padding [(kh // 2, kw // 2)] that the constructor of
      the cell chooses, for a kernel of size 3 or 5 and an input of
      spatial size 8 by 8 the convolution output and the two states
      returned by a step have spatial size 8 by 8. *)
Theorem same_padding_keeps_spatial_size (k cin hd b : nat) (bias : bool)
      (params : conv_params A) (x hp c : T4 A) :
    k = 3 ∨ k = 5 → 0 < cin → 0 < hd → 0 < b →
    shape4 b cin 8 8 x → shape4 b hd 8 8 hp → shape4 b hd 8 8 c →
    ∃ cell cc h_next c_next,
      ConvLSTMCell.__init__ (PyInt (Z.of_nat cin)) (PyInt (Z.of_nat hd))
        (PyTuple [PyInt (Z.of_nat k); PyInt (Z.of_nat k)]) bias params
      = inr cell ∧
      ConvLSTMCell.padding cell =
        ((Z.of_nat k `div` 2)%Z, (Z.of_nat k `div` 2)%Z) ∧
      Conv2d.padding (ConvLSTMCell.conv cell) = (k `div` 2, k `div` 2) ∧
      Conv2d.forward (ConvLSTMCell.conv cell) (zip_with app x hp) = Some cc ∧
      shape4 b (4 * hd) 8 8 cc ∧
      ConvLSTMCell.forward cell x (hp, c) = Some (h_next, c_next) ∧
      shape4 b hd 8 8 h_next ∧
      shape4 b hd 8 8 c_next.
  Proof.
    intros Hk ? ? ? Hx Hhp Hc.
    destruct (cell_init_ok cin hd k k bias params) as (cell & Hcell & Hok & _).
    assert (Nat.Odd k) as Hodd.
    { destruct Hk as [-> | ->]; [by exists 1|by exists 2]. }
    destruct (cell_forward_eq cin hd k k cell b 8 8 x hp c) as (Hcc & Hconv & Hfwd);
      [done..|lia|lia|].
    set (cc := conv_out (ConvLSTMCell.conv cell) k k (k `div` 2) (k `div` 2)
                 8 8 (zip_with app x hp)) in *.
    destruct (gate_step_shape b hd 8 8 cc c Hcc Hc) as [Hsh Hsc].
    exists cell, cc, (gate_step hd cc c).1, (gate_step hd cc c).2.
    split; [done|]. split; [by eapply cell_init_padding|].
    split; [by destruct Hok as (_ & _ & ? & _)|].
    split; [done|]. split; [done|].
    split; [by rewrite Hfwd; destruct (gate_step hd cc c)|]. done.
  Qed.
End cell_claims2.

Lemma same_padding_keeps_spatial_size_witness :
  ∃ (cell : ConvLSTMCell.t R) h_next c_next,
    ConvLSTMCell.__init__ (PyInt 2) (PyInt 1) (PyTuple [PyInt 5; PyInt 5]) true
      zero_params = inr cell ∧
    ConvLSTMCell.forward cell (torch.zeros 1 2 8 8)
      (torch.zeros 1 1 8 8, torch.zeros 1 1 8 8) = Some (h_next, c_next) ∧
    shape4 1 1 8 8 h_next ∧ shape4 1 1 8 8 c_next.
Proof.
  destruct (same_padding_keeps_spatial_size (A:=R) 5 2 1 1 true zero_params
              (torch.zeros 1 2 8 8) (torch.zeros 1 1 8 8) (torch.zeros 1 1 8 8))
    as (cell & cc & h_next & c_next & Hcell & _ & _ & _ & _ & Hfwd & Hh & Hc);
    [by right|lia|lia|lia|apply shape4_zeros..|].
  exists cell, h_next, c_next. split; [exact Hcell|]. split; [exact Hfwd|].
  split; [exact Hh|exact Hc].
Defined.

Lemma R_finite_laws : FiniteLaws R.
Proof.
  split; try done.
  - apply sadd_zero_zero.
  - intros x _. apply smul_zero_l.
  - intros x _. apply smul_zero_r.
  - apply stanh_zero.
Qed.

#[export] Existing Instance R_finite_laws.

(** A scalar type with the zero laws, extended with a not-a-number
    value: the finite values are those of the scalar type. *)
Lemma xnum_laws {A : Type} `{ScalarLaws A} : FiniteLaws (xnum A).
Proof.
  split.
  - done.
  - done.
  - simpl. by rewrite sadd_zero_zero.
  - intros [a|] Ha; [|done]. simpl. by rewrite smul_zero_l.
  - intros [a|] Ha; [|done]. simpl. by rewrite smul_zero_r.
  - simpl. by rewrite stanh_zero.
Qed.

#[export] Existing Instance xnum_laws.

Section cell_claims3.
Context {A : Type} `{FiniteLaws A}.

End cell_claims3.



(** ** The pipeline *)

Section pipeline_claims.
Context {A : Type} `{Scalar A}.

Lemma at3_app_l {X} (l k : T5 X) i j c :
    i < length l → at3 (l ++ k) i j c = at3 l i j c.
  Proof. intros. unfold at3. by rewrite lookup_app_l. Qed.

Lemma at3_app_r {X} (l k : T5 X) n i j c :
    length l = n → at3 (l ++ k) (n + i) j c = at3 k i j c.
  Proof.
    intros <-. unfold at3. rewrite lookup_app_r by lia.
    by replace (length l + i - length l) with i by lia.
  Qed.

  (** Row [wi * b + i] of the stacked windows is window [wi] of batch
      element [i]. *)
Lemma windows_lookup b c t h w (x : T5 A) wi i j k :
    shape5 b c t h w x → 0 < c → 9 ≤ t → wi < 4 → i < b → j < 3 →
    at3 (LongShortTimeAutoEncodeDecoder.window x 0 3 ++
         LongShortTimeAutoEncodeDecoder.window x 2 5 ++
         LongShortTimeAutoEncodeDecoder.window x 4 7 ++
         LongShortTimeAutoEncodeDecoder.window x 6 9) (wi * b + i) j k
    = at3 x i k (2 * wi + j).
  Proof.
    intros Hx ? ? Hwi Hi Hj.
    assert (∀ lo, lo + 3 ≤ t →
              length (LongShortTimeAutoEncodeDecoder.window x lo (lo + 3)) = b)
      as Hlen.
    { intros lo Hlo.
      by destruct (window_shape b c t h w x lo (lo + 3) Hx) as [? _]; [lia..|]. }
    pose proof (Hlen 0 ltac:(lia)) as L0. pose proof (Hlen 2 ltac:(lia)) as L2.
    pose proof (Hlen 4 ltac:(lia)) as L4. pose proof (Hlen 6 ltac:(lia)) as L6.
    simpl in L0, L2, L4, L6.
    destruct wi as [|[|[|[|?]]]]; [| | |  |lia].
    - simpl. rewrite at3_app_l by lia.
      by rewrite (window_lookup b c t h w) by (done || lia).
    - replace (1 * b + i) with (b + i) by lia.
      rewrite (at3_app_r _ _ b) by done. rewrite at3_app_l by lia.
      by rewrite (window_lookup b c t h w) by (done || lia).
    - replace (2 * b + i) with (b + (b + i)) by lia.
      rewrite !(at3_app_r _ _ b) by done. rewrite at3_app_l by lia.
      by rewrite (window_lookup b c t h w) by (done || lia).
    - replace (3 * b + i) with (b + (b + (b + i))) by lia.
      rewrite !(at3_app_r _ _ b) by done.
      by rewrite (window_lookup b c t h w) by (done || lia).
  Qed.

  (** C3. For a clip of shape [b, c, 9, h, w] (in particular [c = 3]) the
      pipeline hands to the first stack a tensor of shape
      [4 * b, 3, c, h, w]: four windows of three frames, concatenated
      along the batch axis and transposed to batch, time, channel order.
      Step [j] of window [wi] of batch element [i] is frame [2 * wi + j]
      of the clip, so the windows cover the frames {0,1,2}, {2,3,4},
      {4,5,6} and {6,7,8}, and frames 2, 4 and 6 each lie in two
      windows. *)
Theorem windows_are_four_overlapping_triples b c h w (clip : T5 A) :
    shape5 b c 9 h w clip → 0 < b → 0 < c → 0 < h →
    ∃ inputs13355779,
      LongShortTimeAutoEncodeDecoder.windows clip = Some inputs13355779 ∧
      inputs13355779 =
        LongShortTimeAutoEncodeDecoder.window clip 0 3 ++
        LongShortTimeAutoEncodeDecoder.window clip 2 5 ++
        LongShortTimeAutoEncodeDecoder.window clip 4 7 ++
        LongShortTimeAutoEncodeDecoder.window clip 6 9 ∧
      shape5 (4 * b) 3 c h w inputs13355779 ∧
      (∀ wi i j k, wi < 4 → i < b → j < 3 →
         at3 inputs13355779 (wi * b + i) j k = at3 clip i k (2 * wi + j)) ∧
      (∀ wi i k, wi < 3 → i < b →
         at3 inputs13355779 (wi * b + i) 2 k = at3 clip i k (2 * wi + 2) ∧
         at3 inputs13355779 ((wi + 1) * b + i) 0 k = at3 clip i k (2 * wi + 2)).
  Proof.
    intros Hclip ? ? ?.
    destruct (windows_eq b c 9 h w clip Hclip) as [Hwin Hshape]; [lia..|].
    eexists. split; [exact Hwin|]. split; [done|]. split; [done|].
    split.
    - intros wi i j k ? ? ?. by apply (windows_lookup b c 9 h w).
    - intros wi i k ? ?. split.
      + by rewrite (windows_lookup b c 9 h w) by (done || lia).
      + rewrite (windows_lookup b c 9 h w) by (done || lia). f_equal. lia.
  Qed.

Lemma slice_take {X} n lo hi (l : list X) :
    hi ≤ n → torch.slice lo hi (take n l) = torch.slice lo hi l.
  Proof.
    intros. unfold torch.slice. apply list_eq. intros i.
    rewrite !lookup_take. case_decide; [|done].
    rewrite !lookup_drop, lookup_take. by rewrite decide_True by lia.
  Qed.

Lemma window_take9 (x : T5 A) lo hi :
    hi ≤ 9 →
    LongShortTimeAutoEncodeDecoder.window
      (fmap (M:=list) (fmap (M:=list) (take 9)) x) lo hi
    = LongShortTimeAutoEncodeDecoder.window x lo hi.
  Proof.
    intros. unfold LongShortTimeAutoEncodeDecoder.window. f_equal.
    rewrite <- list_fmap_compose. apply list_fmap_ext. intros _ e _. simpl.
    rewrite <- list_fmap_compose. apply list_fmap_ext. intros _ r _. simpl.
    by apply slice_take.
  Qed.

Lemma forward_take9 (net : LongShortTimeAutoEncodeDecoder.t A) (x : T5 A) :
    LongShortTimeAutoEncodeDecoder.forward net
      (fmap (M:=list) (fmap (M:=list) (take 9)) x)
    = LongShortTimeAutoEncodeDecoder.forward net x.
  Proof.
    unfold LongShortTimeAutoEncodeDecoder.forward,
      LongShortTimeAutoEncodeDecoder.windows.
    by rewrite !window_take9 by lia.
  Qed.

Lemma append_frames_take9 b c t t' h w (clip extra : T5 A) :
    shape5 b c t h w clip → shape5 b c t' h w extra → 9 ≤ t →
    fmap (M:=list) (fmap (M:=list) (take 9)) (append_frames clip extra)
    = fmap (M:=list) (fmap (M:=list) (take 9)) clip.
  Proof.
    intros [Hb Hclip] [Hb' Hextra] Ht. unfold append_frames.
    apply list_eq. intros i. rewrite !list_lookup_fmap, lookup_zip_with.
    destruct (clip !! i) as [e|] eqn:He; simpl; [|done].
    destruct (extra !! i) as [e'|] eqn:He'; simpl.
    2:{ apply lookup_ge_None in He'. apply lookup_lt_Some in He. lia. }
    f_equal.
    eapply Forall_lookup_1 in Hclip as [Hc Hfr]; [|done].
    eapply Forall_lookup_1 in Hextra as [Hc' _]; [|done].
    apply list_eq. intros k. rewrite !list_lookup_fmap, lookup_zip_with.
    destruct (e !! k) as [r|] eqn:Hr; simpl; [|done].
    destruct (e' !! k) as [r'|] eqn:Hr'; simpl.
    2:{ apply lookup_ge_None in Hr'. apply lookup_lt_Some in Hr. lia. }
    f_equal. eapply Forall_lookup_1 in Hfr as [Hlen _]; [|done].
    rewrite take_app_le by lia. done.
  Qed.

  (** C10. The output of the pipeline is a function of the frames 0 to 8
      of the clip: two clips that agree on them give the same result, so
      for a clip with at least nine frames, frames appended after them do
      not change the result. *)
Theorem output_depends_on_first_nine_frames
      (net : LongShortTimeAutoEncodeDecoder.t A) :
    (∀ clip clip' : T5 A,
       fmap (M:=list) (fmap (M:=list) (take 9)) clip
         = fmap (M:=list) (fmap (M:=list) (take 9)) clip' →
       LongShortTimeAutoEncodeDecoder.forward net clip
         = LongShortTimeAutoEncodeDecoder.forward net clip') ∧
    (∀ b c t t' h w (clip extra : T5 A),
       shape5 b c t h w clip → shape5 b c t' h w extra → 9 ≤ t →
       LongShortTimeAutoEncodeDecoder.forward net (append_frames clip extra)
         = LongShortTimeAutoEncodeDecoder.forward net clip).
  Proof.
    split.
    - intros clip clip' Heq.
      rewrite <- (forward_take9 net clip), <- (forward_take9 net clip').
      by rewrite Heq.
    - intros b c t t' h w clip extra Hclip Hextra Ht.
      rewrite <- (forward_take9 net (append_frames clip extra)).
      rewrite <- (forward_take9 net clip).
      by rewrite (append_frames_take9 b c t t' h w clip extra).
  Qed.
End pipeline_claims.

Lemma windows_are_four_overlapping_triples_witness :
  ∃ inputs13355779,
    LongShortTimeAutoEncodeDecoder.windows (full5 2 3 9 4 4 1%R)
      = Some inputs13355779 ∧
    shape5 8 3 3 4 4 inputs13355779.
Proof.
  destruct (windows_are_four_overlapping_triples 2 3 4 4 (full5 2 3 9 4 4 1%R))
    as (stacked & Hwin & _ & Hshape & _); [|lia|lia|lia|].
  - unfold full5.
    repeat (split; [by rewrite length_replicate|apply Forall_replicate]).
    apply length_replicate.
  - exists stacked. split; [exact Hwin|exact Hshape].
Defined.

Lemma output_depends_on_first_nine_frames_witness :
  ∃ net : LongShortTimeAutoEncodeDecoder.t R,
    LongShortTimeAutoEncodeDecoder.__init__
      (λ _, zero_params) (λ _, zero_params) (λ _, zero_params) = inr net ∧
    LongShortTimeAutoEncodeDecoder.forward net
      (append_frames (full5 1 3 9 2 2 1%R) (full5 1 3 4 2 2 2%R))
    = LongShortTimeAutoEncodeDecoder.forward net (full5 1 3 9 2 2 1%R).
Proof.
  destruct (net_init (A:=R) (λ _, zero_params) (λ _, zero_params)
              (λ _, zero_params)) as (net & Hnet & _).
  exists net. split; [exact Hnet|].
  apply (proj2 (output_depends_on_first_nine_frames net) 1 3 9 4 2 2).
  - unfold full5.
    repeat (split; [by rewrite length_replicate|apply Forall_replicate]).
    apply length_replicate.
  - unfold full5.
    repeat (split; [by rewrite length_replicate|apply Forall_replicate]).
    apply length_replicate.
  - lia.
Defined.

Lemma shape5_full5 {A} b c t h w (v : A) : shape5 b c t h w (full5 b c t h w v).
Proof.
  unfold full5.
  repeat (split; [by rewrite length_replicate|apply Forall_replicate]).
  apply length_replicate.
Qed.

Section zero_pipeline.
Context {A : Type} `{ScalarLaws A}.

  (** C6. With every weight and bias of the three stacks zero, the
      pipeline maps the zero clip of shape [1, 3, 9, 16, 16] to the zero
      tensor of shape [1, 3, 16, 16]; the constructor with zero parameter
      values builds such a pipeline. *)
Theorem zero_clip_gives_zero_output :
    (∀ net : LongShortTimeAutoEncodeDecoder.t A,
       net_ok net → net_zero net →
       LongShortTimeAutoEncodeDecoder.forward net (full5 1 3 9 16 16 szero)
         = Some (torch.zeros 1 3 16 16)) ∧
    shape4 1 3 16 16 (torch.zeros (A:=A) 1 3 16 16) ∧
    Forall (Forall (Forall (Forall (λ v : A, v = szero)))) (torch.zeros 1 3 16 16) ∧
    ∃ net : LongShortTimeAutoEncodeDecoder.t A,
      LongShortTimeAutoEncodeDecoder.__init__
        (λ _, zero_params) (λ _, zero_params) (λ _, zero_params) = inr net ∧
      net_ok net ∧ net_zero net.
  Proof.
    split; [|split; [|split]].
    - intros net Hok Hz.
      apply (pipeline_zero 16 16 net 1 9); [lia|lia|done|done|lia|lia|].
      apply shape5_full5.
    - apply shape4_zeros.
    - unfold torch.zeros. by repeat apply Forall_replicate.
    - destruct (net_init (A:=A) (λ _, zero_params) (λ _, zero_params)
                  (λ _, zero_params)) as (net & Hnet & Hok & Hz).
      exists net. auto.
  Qed.
End zero_pipeline.

Lemma zero_clip_gives_zero_output_witness :
  ∃ net : LongShortTimeAutoEncodeDecoder.t R,
    LongShortTimeAutoEncodeDecoder.__init__
      (λ _, zero_params) (λ _, zero_params) (λ _, zero_params) = inr net ∧
    LongShortTimeAutoEncodeDecoder.forward net (full5 1 3 9 16 16 0%R)
      = Some (torch.zeros 1 3 16 16).
Proof.
  destruct (zero_clip_gives_zero_output (A:=R)) as (Hfwd & _ & _ & net & Hnet & Hok & Hz).
  exists net. split; [exact Hnet|]. exact (Hfwd net Hok Hz).
Defined.

(** C4, as the specification states it, fails: for a clip of batch size
    two the output does not have batch size two. *)
Lemma decode_output_has_batch_size_one :
  ∃ (net : LongShortTimeAutoEncodeDecoder.t R) out,
    LongShortTimeAutoEncodeDecoder.__init__
      (λ _, zero_params) (λ _, zero_params) (λ _, zero_params) = inr net ∧
    LongShortTimeAutoEncodeDecoder.forward net (full5 2 3 9 1 1 0%R) = Some out ∧
    shape4 1 3 1 1 out ∧
    ¬ shape4 2 3 1 1 out.
Proof.
  destruct (net_init (A:=R) (λ _, zero_params) (λ _, zero_params)
              (λ _, zero_params)) as (net & Hnet & Hok & Hz).
  exists net, (torch.zeros 1 3 1 1). split; [done|]. split.
  - apply (pipeline_zero 1 1 net 2 9); [lia|lia|done|by apply Hz|lia|lia|].
    apply shape5_full5.
  - split; [apply shape4_zeros|]. by intros [? _].
Qed.

Section decode_claim.
Context {A : Type} `{Scalar A}.

  (** C4, amended.  For a clip of shape [b, 3, 9, h, w] the decode stage
      takes row 3 of the memory state of the first stack, which for
      [b = 1] is the row of the fourth window (frames 6 to 8), makes it a
      sequence of one step and batch size one, starts the third stack
      from a working state of zeros, of the shape [1, 3, h, w] of the
      predicted memory state, and from the predicted memory state, runs
      exactly one step of its cell, and returns the working state of that
      step, of shape [1, 3, h, w]. *)
Theorem decode_is_one_step_from_predicted_memory
      (net : LongShortTimeAutoEncodeDecoder.t A) b h w (clip : T5 A) :
    net_ok net → 0 < b → 0 < h → 0 < w → shape5 b 3 9 h w clip →
    ∃ inputs13355779 hc_enc hc_pred c79 cell hc_dec,
      LongShortTimeAutoEncodeDecoder.windows clip = Some inputs13355779 ∧
      LongShortTimeAutoEncodeDecoder.last_state
        (LongShortTimeAutoEncodeDecoder.convLstmMotionAwareBlock net)
        inputs13355779 None = Some hc_enc ∧
      LongShortTimeAutoEncodeDecoder.last_state
        (LongShortTimeAutoEncodeDecoder.convLstmMotionPredBlock net)
        (torch.unsqueeze0 (torch.slice 0 3 hc_enc.2)) None = Some hc_pred ∧
      hc_enc.2 !! 3 = Some c79 ∧
      (b = 1 → ∀ j k, j < 3 → at3 inputs13355779 3 j k = at3 clip 0 k (6 + j)) ∧
      torch.size4 hc_pred.2 = (1, 3, h, w) ∧
      ConvLSTM.cell_list (LongShortTimeAutoEncodeDecoder.convLstmDecode net)
        = [cell] ∧
      LongShortTimeAutoEncodeDecoder.last_state
        (LongShortTimeAutoEncodeDecoder.convLstmDecode net)
        (torch.unsqueeze0 (torch.unsqueeze0 c79))
        (Some [(torch.zeros 1 3 h w, hc_pred.2)])
      = ConvLSTMCell.forward cell (torch.unsqueeze0 c79)
          (torch.zeros 1 3 h w, hc_pred.2) ∧
      ConvLSTMCell.forward cell (torch.unsqueeze0 c79)
        (torch.zeros 1 3 h w, hc_pred.2) = Some hc_dec ∧
      LongShortTimeAutoEncodeDecoder.decode net hc_enc.2 hc_pred.2
        = Some hc_dec.1 ∧
      LongShortTimeAutoEncodeDecoder.forward net clip = Some hc_dec.1 ∧
      shape4 1 3 h w hc_dec.1.
  Proof.
    intros Hnet Hb Hh Hw Hclip.
    destruct (pipeline_shape h w net b 9 clip Hh Hw Hnet Hb ltac:(lia) Hclip)
      as (stacked & hc_enc & hc_pred & c79 & cell & hc_dec & Hwin & Henc & Senc
          & Hpred & Spred & Hc79 & Hcells & Hdec & Sdec & Hfwd).
    exists stacked, hc_enc, hc_pred, c79, cell, hc_dec.
    destruct (windows_eq b 3 9 h w clip Hclip) as [Hwin' _]; [lia..|].
    assert (torch.size4 hc_pred.2 = (1, 3, h, w)) as Hsize.
    { destruct Spred as [_ ?]. by apply shape4_size; [|lia..]. }
    destruct Hnet as (_ & _ & Hd).
    destruct (stack331_cell _ Hd) as (cell' & Hcells' & _ & HL).
    assert (cell' = cell) as -> by congruence.
    destruct Hd as (_ & Hbf & Hret).
    pose proof (last_state_one_step _ cell c79 (torch.zeros 1 3 h w, hc_pred.2)
                  Hcells HL Hbf Hret) as Hone.
    repeat (split; [done|]). split.
    { intros -> j k Hj. rewrite Hwin in Hwin'. injection Hwin' as ->.
      replace (6 + j) with (2 * 3 + j) by lia.
      by rewrite <- (windows_lookup 1 3 9 h w clip 3 0 j k) by (done || lia). }
    split; [done|]. split; [done|]. split; [done|]. split; [done|]. split.
    { unfold LongShortTimeAutoEncodeDecoder.decode.
      rewrite Hc79. cbv beta iota delta [mbind option_bind].
      rewrite Hsize, Hone, Hdec. done. }
    split; [done|]. by destruct Sdec.
  Qed.
End decode_claim.

Lemma decode_is_one_step_from_predicted_memory_witness :
  ∃ (net : LongShortTimeAutoEncodeDecoder.t R) out,
    LongShortTimeAutoEncodeDecoder.__init__
      (λ _, zero_params) (λ _, zero_params) (λ _, zero_params) = inr net ∧
    LongShortTimeAutoEncodeDecoder.forward net (full5 1 3 9 2 2 1%R) = Some out ∧
    shape4 1 3 2 2 out.
Proof.
  destruct (net_init (A:=R) (λ _, zero_params) (λ _, zero_params)
              (λ _, zero_params)) as (net & Hnet & Hok & _).
  destruct (decode_is_one_step_from_predicted_memory net 1 2 2
              (full5 1 3 9 2 2 1%R) Hok)
    as (? & ? & ? & ? & ? & hc_dec & _ & _ & _ & _ & _ & _ & _ & _ & _ & _
        & Hfwd & Hshape);
    [lia|lia|lia|apply shape5_full5|].
  exists net, hc_dec.1. split; [exact Hnet|]. split; [exact Hfwd|exact Hshape].
Defined.

(** ** The stack *)

(** C2.  The code does not return what the claim, the docstring of the
    class and the docstring of [forward] say.  On a stack of one layer
    and an input of two time steps the body of [forward] builds the
    list of output sequences, here one sequence [o] of shape
    [1, 2, 3, 1, 1], and the list of last states, and returns the list
    of last states alone.  The output sequences cannot be recovered
    from the returned value: an input of one time step gives the same
    returned value and another output sequence. *)
Theorem forward_does_not_return_output_sequences :
  ∃ (self : ConvLSTM.t R) (o : T5 R),
    ConvLSTM.__init__ (PyInt 3) (PyInt 3) (PyTuple [PyInt 3; PyInt 3]) 1
      true true false (λ _, zero_params) = inr self ∧
    ConvLSTM.forward_lists self (full5 1 2 3 1 1 0%R) None
      = Some ([o], [zero_state 1 3 1 1]) ∧
    shape5 1 2 3 1 1 o ∧
    ConvLSTM.forward self (full5 1 2 3 1 1 0%R) None
      = Some [zero_state 1 3 1 1] ∧
    ConvLSTM.forward self (full5 1 1 3 1 1 0%R) None
      = Some [zero_state 1 3 1 1] ∧
    fst <$> ConvLSTM.forward_lists self (full5 1 1 3 1 1 0%R) None
      ≠ fst <$> ConvLSTM.forward_lists self (full5 1 2 3 1 1 0%R) None.
Proof.
  destruct (stack331_init (A:=R) (λ _, zero_params))
    as (self & Hself & (Hok & Hbf & Hret) & Hz).
  specialize (Hz eq_refl).
  assert (∀ T, 0 < T →
            ∃ o, ConvLSTM.forward_lists self (full5 1 T 3 1 1 0%R) None
                   = Some ([o], [zero_state 1 3 1 1]) ∧
                 shape5 1 T 3 1 1 o) as Hrun.
  { intros T HT.
    destruct (stack_forward_zero 1 1 1 3 [(3, (3, 3))] self T
                (full5 1 T 3 1 1 0%R)) as (lo & ls & Hfwd & Hlo & Hls);
      try done; try lia.
    { repeat constructor; by exists 1. }
    { rewrite Hbf. apply shape5_full5. }
    apply Forall2_cons_inv_l in Hlo as (o & lo' & Ho & ->%Forall2_nil_inv_l & ->).
    apply Forall2_cons_inv_l in Hls as (hc & ls' & -> & ->%Forall2_nil_inv_l & ->).
    exists o. rewrite Hfwd, Hret. done. }
  destruct (Hrun 1 ltac:(lia)) as (o1 & H1 & S1).
  destruct (Hrun 2 ltac:(lia)) as (o2 & H2 & S2).
  exists self, o2. split; [done|]. split; [done|]. split; [done|].
  unfold ConvLSTM.forward. rewrite H1, H2.
  split; [done|]. split; [done|]. simpl. intros [= ->].
  destruct S1 as [L S1], S2 as [_ S2].
  destruct o2 as [|e o2]; [done|].
  apply list.Forall_cons in S1 as [[L1 _] _].
  apply list.Forall_cons in S2 as [[L2 _] _]. lia.
Qed.

(** * Further properties *)

(** ** Construction of a stack *)

Section construction_extra.
Context {A : Type} `{Scalar A}.

Lemma mapM_result_cons {X Y} (f : X → result Y) x l :
    mapM f (x :: l) = y ← f x; k ← mapM f l; mret (y :: k).
Proof. done. Qed.

Lemma forallb_tuples {X} (f : X → list pyval) (l : list X) :
    forallb isinstance_tuple ((λ d, PyTuple (f d)) <$> l) = true.
Proof. induction l; simpl; auto. Qed.

(** The cells built for the layers [k, k+1, ...] of a stack whose layer
    sizes are [dims]. *)
Lemma cells_init_ok (cin : nat) (dims : list (nat * (nat * nat))) (bias : bool)
    (params : nat → conv_params A) (n k : nat) :
    k + n = length dims →
    ∃ cells,
      mapM (λ i,
        cur_input_dim ← (if decide (i = 0) then mret (PyInt (Z.of_nat cin))
                         else py_getitem
                                (PyList ((λ d, PyInt (Z.of_nat d.1)) <$> dims))
                                (i - 1));
        hd ← py_getitem (PyList ((λ d, PyInt (Z.of_nat d.1)) <$> dims)) i;
        ks ← py_getitem
               (PyList ((λ d, PyTuple [PyInt (Z.of_nat d.2.1);
                                       PyInt (Z.of_nat d.2.2)]) <$> dims)) i;
        ConvLSTMCell.__init__ cur_input_dim hd ks bias (params i))
        (seq k n) = inr cells ∧
      cells_ok (match k with 0 => cin | S k' => default 0 (fst <$> dims !! k') end)
        (drop k dims) cells ∧
      ((∀ i, params i = zero_params) → Forall cell_zero cells).
Proof.
    revert k. induction n as [|n IH]; intros k Hk.
    - exists []. split; [done|]. rewrite drop_ge by lia.
      split; [constructor|]. by constructor.
    - destruct (dims !! k) as [[hd [kh kw]]|] eqn:Hd.
      2:{ apply lookup_ge_None in Hd. lia. }
      destruct (IH (S k) ltac:(lia)) as (cells & Hcells & Hok & Hz).
      rewrite Hd in Hok. simpl in Hok.
      set (cin_k := match k with
                    | 0 => cin
                    | S k' => default 0 (fst <$> dims !! k')
                    end) in *.
      destruct (cell_init_ok cin_k hd kh kw bias (params k))
        as (cell & Hcell & Hcok & Hcz).
      exists (cell :: cells). split; [|split].
      + assert ((cur_input_dim ← (if decide (k = 0)
                                   then mret (PyInt (Z.of_nat cin))
                                   else py_getitem
                                          (PyList ((λ d, PyInt (Z.of_nat d.1))
                                                     <$> dims)) (k - 1));
                 hd ← py_getitem
                        (PyList ((λ d, PyInt (Z.of_nat d.1)) <$> dims)) k;
                 ks ← py_getitem
                        (PyList ((λ d, PyTuple [PyInt (Z.of_nat d.2.1);
                                                PyInt (Z.of_nat d.2.2)])
                                   <$> dims)) k;
                 ConvLSTMCell.__init__ cur_input_dim hd ks bias (params k))
                = inr cell) as HF.
        { assert ((if decide (k = 0) then mret (PyInt (Z.of_nat cin))
                   else py_getitem
                          (PyList ((λ d, PyInt (Z.of_nat d.1)) <$> dims))
                          (k - 1))
                  = inr (PyInt (Z.of_nat cin_k))) as ->.
          { unfold cin_k. destruct k as [|k']; [done|].
            rewrite decide_False by lia. unfold py_getitem.
            replace (S k' - 1) with k' by lia. rewrite list_lookup_fmap.
            destruct (dims !! k') as [d|] eqn:Hd'; [done|].
            apply lookup_ge_None in Hd'. lia. }
          unfold py_getitem. rewrite !list_lookup_fmap, Hd.
          cbn -[ConvLSTMCell.__init__]. exact Hcell. }
        cbn [seq]. rewrite mapM_result_cons. cbv beta. rewrite HF, Hcells.
        done.
      + rewrite (drop_S _ _ _ Hd). by constructor.
      + intros Hp. constructor; auto.
Qed.

(** The constructor on per-layer lists of hidden sizes and kernel pairs. *)
Lemma stack_init_list (cin : nat) (dims : list (nat * (nat * nat)))
    (batch_first bias return_all_layers : bool) (params : nat → conv_params A) :
    ∃ self,
      ConvLSTM.__init__ (PyInt (Z.of_nat cin))
        (PyList ((λ d, PyInt (Z.of_nat d.1)) <$> dims))
        (PyList ((λ d, PyTuple [PyInt (Z.of_nat d.2.1);
                                PyInt (Z.of_nat d.2.2)]) <$> dims))
        (Z.of_nat (length dims)) batch_first bias return_all_layers params
      = inr self ∧
      stack_ok cin dims self ∧
      ConvLSTM.batch_first self = batch_first ∧
      ConvLSTM.return_all_layers self = return_all_layers ∧
      ((∀ i, params i = zero_params) → stack_zero self).
Proof.
    destruct (cells_init_ok cin dims bias params (length dims) 0 eq_refl)
      as (cells & Hcells & Hok & Hz).
    rewrite drop_0 in Hok.
    eexists. split.
    - unfold ConvLSTM.__init__.
      assert (ConvLSTM._check_kernel_size_consistency
                (PyList ((λ d, PyTuple [PyInt (Z.of_nat d.2.1);
                                        PyInt (Z.of_nat d.2.2)]) <$> dims))
              = inr ()) as ->.
      { unfold ConvLSTM._check_kernel_size_consistency. simpl.
        by rewrite forallb_tuples. }
      lazy beta iota zeta delta [mbind result_bind mret result_ret negb
        ConvLSTM.py_len isinstance_list ConvLSTM._extend_for_multilayer].
      lazy beta iota zeta delta [mbind result_bind mret result_ret] in Hcells.
      rewrite !length_fmap, !bool_decide_eq_true_2 by done.
      lazy beta iota zeta delta [andb]. rewrite Nat2Z.id, Hcells.
      reflexivity.
    - split; [by split|]. done.
Qed.

(** The constructor on a single hidden size and a single kernel pair. *)
Lemma stack_init_broadcast (cin hd kh kw L : nat)
    (batch_first bias return_all_layers : bool) (params : nat → conv_params A) :
    ∃ self,
      ConvLSTM.__init__ (PyInt (Z.of_nat cin)) (PyInt (Z.of_nat hd))
        (PyTuple [PyInt (Z.of_nat kh); PyInt (Z.of_nat kw)])
        (Z.of_nat L) batch_first bias return_all_layers params
      = inr self ∧
      stack_ok cin (replicate L (hd, (kh, kw))) self ∧
      ConvLSTM.batch_first self = batch_first ∧
      ConvLSTM.return_all_layers self = return_all_layers ∧
      ((∀ i, params i = zero_params) → stack_zero self).
Proof.
    set (dims := replicate L (hd, (kh, kw))).
    destruct (cells_init_ok cin dims bias params (length dims) 0 eq_refl)
      as (cells & Hcells & Hok & Hz).
    rewrite drop_0 in Hok.
    assert (length dims = L) as HL by apply length_replicate.
    rewrite HL in Hcells.
    unfold dims in Hcells. rewrite !fmap_replicate in Hcells.
    cbn beta iota delta [fst snd] in Hcells.
    eexists. split.
    - unfold ConvLSTM.__init__.
      lazy beta iota zeta delta [mbind result_bind mret result_ret negb
        ConvLSTM.py_len isinstance_list isinstance_tuple orb
        ConvLSTM._check_kernel_size_consistency raise
        ConvLSTM._extend_for_multilayer].
      lazy beta iota zeta delta [mbind result_bind mret result_ret] in Hcells.
      rewrite Nat2Z.id, !length_replicate, !bool_decide_eq_true_2 by done.
      lazy beta iota zeta delta [andb]. rewrite Hcells. reflexivity.
    - split; [split; [simpl; by rewrite HL|done]|]. done.
Qed.

(** X1. Given per-layer lists of hidden sizes and integer kernel pairs of
    the same length as [num_layers], the constructor builds one cell per
    layer: the first takes the input channels of the stack, every other
    one the hidden channels of the layer below it. *)
Theorem stack_constructor_chains_layers (cin : nat)
    (dims : list (nat * (nat * nat)))
    (batch_first bias return_all_layers : bool) (params : nat → conv_params A) :
    ∃ self,
      ConvLSTM.__init__ (PyInt (Z.of_nat cin))
        (PyList ((λ d, PyInt (Z.of_nat d.1)) <$> dims))
        (PyList ((λ d, PyTuple [PyInt (Z.of_nat d.2.1);
                                PyInt (Z.of_nat d.2.2)]) <$> dims))
        (Z.of_nat (length dims)) batch_first bias return_all_layers params
      = inr self ∧
      length (ConvLSTM.cell_list self) = length dims ∧
      cells_ok cin dims (ConvLSTM.cell_list self).
Proof.
    destruct (stack_init_list cin dims batch_first bias return_all_layers params)
      as (self & Hself & [_ Hcells] & _).
    exists self. split; [done|]. split; [by eapply cells_ok_length|done].
Qed.

(** X2. Given a single hidden size and a single integer kernel pair, the
    constructor broadcasts both to every layer: it builds [num_layers]
    cells with that hidden size and kernel, the first on the input
    channels of the stack and the others on the hidden channels. *)
Theorem stack_constructor_broadcasts (cin hd kh kw L : nat)
    (batch_first bias return_all_layers : bool) (params : nat → conv_params A) :
    ∃ self,
      ConvLSTM.__init__ (PyInt (Z.of_nat cin)) (PyInt (Z.of_nat hd))
        (PyTuple [PyInt (Z.of_nat kh); PyInt (Z.of_nat kw)])
        (Z.of_nat L) batch_first bias return_all_layers params
      = inr self ∧
      length (ConvLSTM.cell_list self) = L ∧
      cells_ok cin (replicate L (hd, (kh, kw))) (ConvLSTM.cell_list self).
Proof.
    destruct (stack_init_broadcast cin hd kh kw L batch_first bias
                return_all_layers params) as (self & Hself & [_ Hcells] & _).
    exists self. split; [done|]. split; [|done].
    by rewrite (cells_ok_length _ _ _ Hcells), length_replicate.
Qed.
End construction_extra.

Section construction_edges.
Context {A : Type} `{Scalar A}.


Lemma stack_init_unfold (input_dim hidden_dim kernel_size : pyval)
    (num_layers : Z) (batch_first bias return_all_layers : bool)
    (params : nat → conv_params A) (kl hl : list pyval) :
    ConvLSTM._check_kernel_size_consistency kernel_size = inr () →
    ConvLSTM._extend_for_multilayer kernel_size num_layers = PyList kl →
    ConvLSTM._extend_for_multilayer hidden_dim num_layers = PyList hl →
    ConvLSTM.__init__ input_dim hidden_dim kernel_size num_layers batch_first
      bias return_all_layers params =
    if negb (bool_decide (Z.of_nat (length kl) = Z.of_nat (length hl)) &&
             bool_decide (Z.of_nat (length hl) = num_layers))
    then inl (ValueError "Inconsistent list length.")
    else
      cell_list ← mapM (λ i,
        cur_input_dim ← (if decide (i = 0) then mret input_dim
                         else py_getitem (PyList hl) (i - 1));
        hd ← py_getitem (PyList hl) i;
        ks ← py_getitem (PyList kl) i;
        ConvLSTMCell.__init__ cur_input_dim hd ks bias (params i))
        (seq 0 (Z.to_nat num_layers));
      mret {|
        ConvLSTM.input_dim := input_dim;
        ConvLSTM.hidden_dim := PyList hl;
        ConvLSTM.kernel_size := PyList kl;
        ConvLSTM.num_layers := num_layers;
        ConvLSTM.batch_first := batch_first;
        ConvLSTM.bias := bias;
        ConvLSTM.return_all_layers := return_all_layers;
        ConvLSTM.cell_list := cell_list
      |}.
Proof.
    intros Hc Hk Hh. unfold ConvLSTM.__init__. rewrite Hc, Hk, Hh. done.
Qed.

Lemma extend_is_list (p : pyval) (n : Z) :
    ∃ l, ConvLSTM._extend_for_multilayer p n = PyList l ∧
         (isinstance_list p = false → l = replicate (Z.to_nat n) p) ∧
         (∀ l', p = PyList l' → l = l').
Proof.
    unfold ConvLSTM._extend_for_multilayer.
    destruct p; simpl; eexists; (split; [done|]); split; congruence.
Qed.

(** X4. When [kernel_size] is a tuple of one integer and [hidden_dim] is
    not a list, the stack constructor with at least one layer passes its
    own validation and then fails with the [IndexError] of the first
    cell, not with a configuration error. *)
Theorem stack_constructor_one_element_kernel (input_dim hidden_dim : pyval)
    (z num_layers : Z) (batch_first bias return_all_layers : bool)
    (params : nat → conv_params A) :
    isinstance_list hidden_dim = false → (0 < num_layers)%Z →
    ConvLSTM._check_kernel_size_consistency (PyTuple [PyInt z]) = inr () ∧
    ConvLSTM.__init__ input_dim hidden_dim (PyTuple [PyInt z]) num_layers
      batch_first bias return_all_layers params = inl IndexError.
Proof.
    intros Hh HL. split; [done|].
    destruct (extend_is_list hidden_dim num_layers) as (hl & Hhl & Hrep & _).
    specialize (Hrep Hh). subst hl.
    erewrite stack_init_unfold; [|done|done|exact Hhl].
    rewrite !length_replicate, !bool_decide_eq_true_2 by lia. simpl negb.
    cbv iota.
    destruct (Z.to_nat num_layers) as [|n] eqn:Hn; [lia|].
    cbn [seq]. rewrite mapM_result_cons. simpl. done.
Qed.

(** X5. A hidden size given as a tuple, a string or [None] is not a
    list, so it is broadcast like a single size, and the first cell then
    fails with a [TypeError] when it adds it to the integer number of
    input channels: per-layer hidden sizes must be given as a list. *)
Theorem stack_constructor_hidden_tuple (cin kh kw num_layers : Z)
    (hidden_dim : pyval) (batch_first bias return_all_layers : bool)
    (params : nat → conv_params A) :
    (∃ elems, hidden_dim = PyTuple elems) ∨ (∃ s, hidden_dim = PyStr s) ∨
      hidden_dim = PyNone →
    (0 < num_layers)%Z →
    ConvLSTM._extend_for_multilayer hidden_dim num_layers
      = PyList (replicate (Z.to_nat num_layers) hidden_dim) ∧
    ConvLSTM.__init__ (PyInt cin) hidden_dim (PyTuple [PyInt kh; PyInt kw])
      num_layers batch_first bias return_all_layers params = inl TypeError.
Proof.
    intros Hh HL.
    assert (isinstance_list hidden_dim = false) as Hnl
      by (by destruct Hh as [[? ->]|[[? ->]| ->]]).
    destruct (extend_is_list hidden_dim num_layers) as (hl & Hhl & Hrep & _).
    specialize (Hrep Hnl). subst hl. split; [done|].
    erewrite stack_init_unfold; [|done|done|exact Hhl].
    rewrite !length_replicate, !bool_decide_eq_true_2 by lia. simpl negb.
    cbv iota.
    destruct (Z.to_nat num_layers) as [|n] eqn:Hn; [lia|].
    cbn [seq]. rewrite mapM_result_cons. simpl.
    by destruct Hh as [[? ->]|[[? ->]| ->]].
Qed.

(** X6. A negative [num_layers] is always refused with the length error
    once the kernel-size check has passed: the broadcast lists are empty
    and no list has a negative length. *)
Theorem stack_constructor_negative_layers (input_dim hidden_dim kernel_size : pyval)
    (num_layers : Z) (batch_first bias return_all_layers : bool)
    (params : nat → conv_params A) :
    ConvLSTM._check_kernel_size_consistency kernel_size = inr () →
    (num_layers < 0)%Z →
    ConvLSTM.__init__ input_dim hidden_dim kernel_size num_layers
      batch_first bias return_all_layers params
    = inl (ValueError "Inconsistent list length.").
Proof.
    intros Hc HL.
    destruct (extend_is_list kernel_size num_layers) as (kl & Hkl & _).
    destruct (extend_is_list hidden_dim num_layers) as (hl & Hhl & _).
    erewrite stack_init_unfold; [|done..].
    rewrite (bool_decide_eq_false_2 (Z.of_nat (length hl) = num_layers)) by lia.
    by rewrite andb_false_r.
Qed.

(** X7. With [num_layers = 0] the constructor accepts every tuple as
    [kernel_size] and every value that is not a list as [hidden_dim],
    and builds a stack without cells. *)
Theorem stack_constructor_zero_layers (input_dim hidden_dim : pyval)
    (elems : list pyval) (batch_first bias return_all_layers : bool)
    (params : nat → conv_params A) :
    isinstance_list hidden_dim = false →
    ∃ self,
      ConvLSTM.__init__ input_dim hidden_dim (PyTuple elems) 0
        batch_first bias return_all_layers params = inr self ∧
      ConvLSTM.cell_list self = [] ∧
      ConvLSTM.num_layers self = 0%Z.
Proof.
    intros Hh.
    destruct (extend_is_list hidden_dim 0) as (hl & Hhl & Hrep & _).
    specialize (Hrep Hh). subst hl.
    eexists. split.
    - erewrite stack_init_unfold; [|done|done|exact Hhl]. simpl. reflexivity.
    - done.
Qed.

(** X8. A stack without layers returns the empty list of states for
    every input and every initial state, with either setting of the
    return-all-layers flag; indexing the result with [[0]] fails. *)
Theorem zero_layer_stack_returns_nothing (self : ConvLSTM.t A) (x : T5 A)
    (hidden_state : option (list (T4 A * T4 A))) :
    ConvLSTM.num_layers self = 0%Z →
    ConvLSTM.forward_lists self x hidden_state = Some ([], []) ∧
    ConvLSTM.forward self x hidden_state = Some [] ∧
    LongShortTimeAutoEncodeDecoder.last_state self x hidden_state = None.
Proof.
    intros HL.
    assert (ConvLSTM.forward_lists self x hidden_state = Some ([], [])) as Hfl.
    { unfold ConvLSTM.forward_lists, ConvLSTM._init_hidden. rewrite HL.
      destruct (torch.size5 _) as [[[[b T] c] h] w].
      destruct hidden_state; simpl;
        by destruct (ConvLSTM.return_all_layers self). }
    split; [done|].
    unfold LongShortTimeAutoEncodeDecoder.last_state, ConvLSTM.forward.
    by rewrite Hfl.
Qed.
End construction_edges.

Lemma stack_constructor_one_element_kernel_witness :
  ConvLSTM.__init__ (A:=R) (PyInt 3) (PyInt 3) (PyTuple [PyInt 3]) 1
    true true false (λ _, zero_params) = inl IndexError.
Proof.
  apply (stack_constructor_one_element_kernel (A:=R) (PyInt 3) (PyInt 3) 3 1
           true true false (λ _, zero_params)); [reflexivity|lia].
Defined.

Lemma stack_constructor_negative_layers_witness :
  ConvLSTM.__init__ (A:=R) (PyInt 3) (PyInt 3) (PyTuple [PyInt 3; PyInt 3]) (-1)
    true true false (λ _, zero_params)
  = inl (ValueError "Inconsistent list length.").
Proof.
  apply (stack_constructor_negative_layers (A:=R)); [reflexivity|lia].
Defined.

Lemma stack_constructor_zero_layers_witness :
  ∃ self : ConvLSTM.t R,
    ConvLSTM.__init__ (PyInt 3) (PyInt 3) (PyTuple [PyInt 3]) 0
      true true false (λ _, zero_params) = inr self ∧
    ConvLSTM.cell_list self = [].
Proof.
  destruct (stack_constructor_zero_layers (A:=R) (PyInt 3) (PyInt 3) [PyInt 3]
              true true false (λ _, zero_params) eq_refl)
    as (self & Hself & Hcells & _).
  exists self. split; [exact Hself|exact Hcells].
Defined.

Lemma zero_layer_stack_returns_nothing_witness :
  ConvLSTM.forward (A:=R)
    (ConvLSTM.mk (PyInt 3) (PyList []) (PyList []) 0 true true false [])
    (full5 1 2 3 4 4 1%R) None = Some [].
Proof.
  exact (proj1 (proj2 (zero_layer_stack_returns_nothing (A:=R)
                         (ConvLSTM.mk (PyInt 3) (PyList []) (PyList []) 0
                            true true false [])
                         (full5 1 2 3 4 4 1%R) None eq_refl))).
Defined.

Lemma stack_constructor_hidden_tuple_witness :
  ConvLSTM.__init__ (A:=R) (PyInt 3) (PyTuple [PyInt 16; PyInt 32])
    (PyTuple [PyInt 3; PyInt 3]) 2 true true false (λ _, zero_params)
  = inl TypeError.
Proof.
  apply (stack_constructor_hidden_tuple (A:=R) 3 3 3 2
           (PyTuple [PyInt 16; PyInt 32]) true true false (λ _, zero_params));
    [left; by eexists|lia].
Defined.

(** ** Errors and edge cases of [forward] *)

Section forward_edges.
Context {A : Type} `{Scalar A}.

Lemma layer_loop_short_state (self : ConvLSTM.t A) hs T layers :
    Exists (λ k, length hs ≤ k) layers →
    ∀ x lo ls, ConvLSTM.layer_loop self hs T layers x lo ls = None.
Proof.
    induction layers as [|k layers IH]; intros Hex x lo ls.
    - by apply Exists_nil in Hex.
    - cbn [ConvLSTM.layer_loop].
      destruct (hs !! k) as [hc|] eqn:Hhc; [|done]. simpl.
      destruct (ConvLSTM.cell_list self !! k) as [cell|]; [|done]. simpl.
      destruct (ConvLSTM.time_loop _ _ _ _ _) as [[hc' outs]|]; [|done]. simpl.
      destruct (torch.stack1 outs) as [x'|]; [|done]. simpl.
      apply IH. apply Exists_cons in Hex as [Hk|?]; [|done].
      apply lookup_lt_Some in Hhc. lia.
Qed.

(** X9. An explicit initial state with fewer entries than the stack has
    layers makes [forward] fail (the lookup [hidden_state[layer_idx]] is
    out of range), for every input. *)
Theorem forward_short_hidden_state (self : ConvLSTM.t A) (x : T5 A)
    (hs : list (T4 A * T4 A)) :
    length hs < Z.to_nat (ConvLSTM.num_layers self) →
    ConvLSTM.forward self x (Some hs) = None.
Proof.
    intros Hlen. unfold ConvLSTM.forward, ConvLSTM.forward_lists.
    destruct (torch.size5 _) as [[[[b T] c] h] w]. simpl.
    rewrite layer_loop_short_state; [done|].
    apply list.Exists_exists. exists (length hs). split; [|done].
    apply elem_of_seq. lia.
Qed.

(** X10. A batch-major input with at least one batch row and no time step
    makes [forward] of a stack with at least one layer fail: the list of
    working states handed to [torch.stack] is empty. *)
Theorem forward_no_time_step (self : ConvLSTM.t A) (b : nat)
    (hidden_state : option (list (T4 A * T4 A))) :
    ConvLSTM.batch_first self = true → (0 < ConvLSTM.num_layers self)%Z →
    0 < b →
    ConvLSTM.forward self (replicate b []) hidden_state = None.
Proof.
    intros Hbf HL Hb. unfold ConvLSTM.forward, ConvLSTM.forward_lists.
    rewrite Hbf. simpl negb. cbv iota.
    destruct b as [|b]; [lia|]. cbn [replicate torch.size5 head default length].
    assert (∀ hs x lo ls,
              ConvLSTM.layer_loop self hs 0
                (seq 0 (Z.to_nat (ConvLSTM.num_layers self))) x lo ls = None)
      as Hloop.
    { intros hs x lo ls.
      destruct (Z.to_nat (ConvLSTM.num_layers self)) as [|n] eqn:Hn; [lia|].
      cbn [seq ConvLSTM.layer_loop].
      destruct (hs !! 0) as [hc|]; [|done]. simpl.
      destruct (ConvLSTM.cell_list self !! 0) as [cell|]; [|done]. done. }
    destruct hidden_state as [hs|]; simpl.
    - by rewrite Hloop.
    - destruct (ConvLSTM._init_hidden _ _ _) as [hs|]; [|done]. simpl.
      by rewrite Hloop.
Qed.

Lemma init_hidden_zero cin dims (self : ConvLSTM.t A) (b h w : nat) :
    stack_ok cin dims self →
    ConvLSTM._init_hidden self b (h, w)
      = Some ((λ d, zero_state b d.1 h w) <$> dims).
Proof.
    intros [HL Hcells]. unfold ConvLSTM._init_hidden.
    rewrite HL, Nat2Z.id, <- (cells_ok_length _ _ _ Hcells), init_hidden_eq.
    f_equal. clear HL.
    induction Hcells as [|cin' hd kh kw dims cell cells [Hhd _] _ IH]; [done|].
    cbn [fmap list_fmap]. rewrite IH. f_equal.
    unfold ConvLSTMCell.init_hidden. by rewrite Hhd.
Qed.

Lemma zero_states_shape (dims : list (nat * (nat * nat))) (b h w : nat) :
    Forall2 (λ d (hc : T4 A * T4 A), state_shape b d.1 h w hc) dims
      ((λ d, zero_state b d.1 h w) <$> dims).
Proof.
    apply Forall2_fmap_r, Forall_Forall2_diag, Forall_true.
    intros d. split; apply shape4_zeros.
Qed.

(** X11. For a well-formed stack, [_init_hidden] returns one state per
    layer, in layer order: zero-filled working and memory states of
    shape [b, hidden, h, w] with the hidden channels of that layer. *)
Theorem init_hidden_gives_zero_state_per_layer cin dims (self : ConvLSTM.t A)
    (b h w : nat) :
    stack_ok cin dims self →
    ∃ hs,
      ConvLSTM._init_hidden self b (h, w) = Some hs ∧
      length hs = length (ConvLSTM.cell_list self) ∧
      ∀ i d, dims !! i = Some d →
        hs !! i = Some (torch.zeros b d.1 h w, torch.zeros b d.1 h w).
Proof.
    intros Hok. exists ((λ d, zero_state b d.1 h w) <$> dims).
    split; [by eapply init_hidden_zero|].
    split.
    - destruct Hok as [_ Hcells].
      by rewrite length_fmap, (cells_ok_length _ _ _ Hcells).
    - intros i d Hd. by rewrite list_lookup_fmap, Hd.
Qed.

Lemma conv_forward_wrong_channels cin cout kh kw ph pw (m : Conv2d.t A)
    b c h w (x : T4 A) :
    conv_ok cin cout kh kw ph pw m → 0 < cout → 0 < cin → 0 < kh →
    shape4 b c h w x → 0 < b → 0 < c → 0 < h → c ≠ cin →
    Conv2d.forward m x = None.
Proof.
    intros (Hks & Hpad & Hw & _) ? ? ? Hx ? ? ? ?. unfold Conv2d.forward.
    rewrite (shape4_size _ _ _ _ _ Hw), Hpad, (shape4_size _ _ _ _ _ Hx) by done.
    rewrite Hks. simpl.
    by rewrite (option_guard_False (c = cin)) by done.
Qed.

Lemma cell_forward_wrong_channels cin hd kh kw (cell : ConvLSTMCell.t A)
    b c h w (x : T4 A) (hc : T4 A * T4 A) :
    cell_ok cin hd kh kw cell → 0 < hd → 0 < kh → c ≠ cin →
    0 < b → 0 < c → 0 < h →
    shape4 b c h w x → shape4 b hd h w hc.1 →
    ConvLSTMCell.forward cell x hc = None.
Proof.
    intros [_ Hconv] ? ? ? ? ? ? Hx Hhp. destruct hc as [hp cs].
    cbn [fst] in Hhp. unfold ConvLSTMCell.forward.
    rewrite (cat1_eq _ _ _ _ _ _ _ Hx Hhp) by done. simpl.
    pose proof (cat1_shape _ _ _ _ _ _ _ Hx Hhp) as Hcomb.
    by rewrite (conv_forward_wrong_channels _ _ _ _ _ _ _ b (c + hd) h w _ Hconv)
      by (done || lia).
Qed.

(** X12. A step fails when the input does not have the number of
    channels the cell was built for: the input and the working state are
    concatenated, and the convolution refuses the result. *)
Theorem cell_step_wrong_channels cin hd kh kw (cell : ConvLSTMCell.t A)
    b c h w (x hp cs : T4 A) :
    cell_ok cin hd kh kw cell → 0 < hd → 0 < kh → c ≠ cin →
    0 < b → 0 < c → 0 < h →
    shape4 b c h w x → shape4 b hd h w hp →
    ∃ combined,
      torch.cat1 x hp = Some combined ∧
      shape4 b (c + hd) h w combined ∧
      Conv2d.forward (ConvLSTMCell.conv cell) combined = None ∧
      ConvLSTMCell.forward cell x (hp, cs) = None.
Proof.
    intros Hok ? ? ? ? ? ? Hx Hhp.
    exists (zip_with app x hp).
    split; [by eapply cat1_eq|]. split; [by apply cat1_shape|].
    split.
    - destruct Hok as [_ Hconv].
      apply (conv_forward_wrong_channels _ _ _ _ _ _ _ b (c + hd) h w _ Hconv);
        try lia. by apply cat1_shape.
    - by eapply (cell_forward_wrong_channels cin hd kh kw cell b c h w).
Qed.
End forward_edges.

Lemma forward_short_hidden_state_witness :
  ∃ self : ConvLSTM.t R,
    ConvLSTM.__init__ (PyInt 3) (PyInt 3) (PyTuple [PyInt 3; PyInt 3]) 2
      true true false (λ _, zero_params) = inr self ∧
    ConvLSTM.forward self (full5 1 2 3 4 4 1%R) (Some [zero_state 1 3 4 4]) = None.
Proof.
  destruct (stack_init_broadcast (A:=R) 3 3 3 3 2 true true false
              (λ _, zero_params)) as (self & Hself & [HL _] & _).
  exists self. split; [exact Hself|].
  apply forward_short_hidden_state. rewrite HL, length_replicate. simpl. lia.
Defined.

Lemma forward_no_time_step_witness :
  ∃ self : ConvLSTM.t R,
    ConvLSTM.__init__ (PyInt 3) (PyInt 3) (PyTuple [PyInt 3; PyInt 3]) 1
      true true false (λ _, zero_params) = inr self ∧
    ConvLSTM.forward self (replicate 2 []) None = None.
Proof.
  destruct (stack_init_broadcast (A:=R) 3 3 3 3 1 true true false
              (λ _, zero_params)) as (self & Hself & [HL _] & Hbf & _).
  exists self. split; [exact Hself|].
  apply forward_no_time_step; [exact Hbf| |lia].
  rewrite HL, length_replicate. lia.
Defined.

Lemma init_hidden_gives_zero_state_per_layer_witness :
  ∃ (self : ConvLSTM.t R) hs,
    ConvLSTM.__init__ (PyInt 3) (PyList [PyInt 2; PyInt 5])
      (PyList [PyTuple [PyInt 3; PyInt 3]; PyTuple [PyInt 5; PyInt 1]]) 2
      true true false (λ _, zero_params) = inr self ∧
    ConvLSTM._init_hidden self 4 (6, 7) = Some hs ∧
    hs !! 1 = Some (torch.zeros 4 5 6 7, torch.zeros 4 5 6 7).
Proof.
  destruct (stack_init_list (A:=R) 3 [(2, (3, 3)); (5, (5, 1))]
              true true false (λ _, zero_params)) as (self & Hself & Hok & _).
  destruct (init_hidden_gives_zero_state_per_layer 3 _ self 4 6 7 Hok)
    as (hs & Hhs & _ & Hlook).
  exists self, hs. split; [exact Hself|]. split; [exact Hhs|].
  exact (Hlook 1 (5, (5, 1)) eq_refl).
Defined.

Lemma cell_step_wrong_channels_witness :
  ∃ cell : ConvLSTMCell.t R,
    ConvLSTMCell.__init__ (PyInt 3) (PyInt 3) (PyTuple [PyInt 3; PyInt 3]) true
      zero_params = inr cell ∧
    ConvLSTMCell.forward cell (torch.zeros 1 2 4 4)
      (torch.zeros 1 3 4 4, torch.zeros 1 3 4 4) = None.
Proof.
  destruct (cell_init_ok (A:=R) 3 3 3 3 true zero_params) as (cell & Hcell & Hok & _).
  exists cell. split; [exact Hcell|].
  destruct (cell_step_wrong_channels 3 3 3 3 cell 1 2 4 4 (torch.zeros 1 2 4 4)
              (torch.zeros 1 3 4 4) (torch.zeros 1 3 4 4) Hok)
    as (_ & _ & _ & _ & Hnone);
    [lia|lia|lia|lia|lia|lia|apply shape4_zeros..|].
  exact Hnone.
Defined.

Section even_kernel.
Context {A : Type} `{Scalar A}.

Lemma bmap2_length_mismatch {X Y Z} (f : X → Y → option Z) l k :
    length l ≠ length k → 2 ≤ length l → 2 ≤ length k →
    torch.bmap2 f l k = None.
Proof.
    intros Hne Hl Hk. unfold torch.bmap2. rewrite decide_False by done.
    destruct l as [|x [|x' l]], k as [|y [|y' k]]; simpl in *; try lia; done.
Qed.

Lemma bmap2_head_fails {X Y Z} (f : X → Y → option Z) x l y k :
    length l = length k → f x y = None →
    torch.bmap2 f (x :: l) (y :: k) = None.
Proof.
    intros Hlen Hf. unfold torch.bmap2. rewrite decide_True by (simpl; lia).
    apply mapM_None. simpl. by left.
Qed.

Lemma pointwise_mismatch (f : A → A → A) b c h1 w1 h2 w2 (s t : T4 A) :
    shape4 b c h1 w1 s → shape4 b c h2 w2 t → 0 < b → 0 < c →
    (h1 ≠ h2 ∧ 2 ≤ h1 ∧ 2 ≤ h2) ∨
    (h1 = h2 ∧ 0 < h1 ∧ w1 ≠ w2 ∧ 2 ≤ w1 ∧ 2 ≤ w2) →
    torch.pointwise f s t = None.
Proof.
    intros [Hs1 Hs] [Ht1 Ht] Hb Hc Hcase. unfold torch.pointwise.
    destruct s as [|s3 s], t as [|t3 t]; simpl in *; try lia.
    apply list.Forall_cons in Hs as [[Hs3 Hs3'] _].
    apply list.Forall_cons in Ht as [[Ht3 Ht3'] _].
    apply bmap2_head_fails; [lia|].
    destruct s3 as [|s2 s3], t3 as [|t2 t3]; simpl in *; try lia.
    apply list.Forall_cons in Hs3' as [[Hs2 Hs2'] _].
    apply list.Forall_cons in Ht3' as [[Ht2 Ht2'] _].
    apply bmap2_head_fails; [lia|].
    destruct Hcase as [(? & ? & ?)|(? & ? & ? & ? & ?)].
    - apply bmap2_length_mismatch; lia.
    - destruct s2 as [|s1 s2], t2 as [|t1 t2]; simpl in *; try lia.
      apply list.Forall_cons in Hs2' as [Hs1' _].
      apply list.Forall_cons in Ht2' as [Ht1' _]. unfold shape1 in *.
      apply bmap2_head_fails; [lia|].
      apply bmap2_length_mismatch; lia.
Qed.

Lemma double_half k :
    (Nat.Even k → 2 * (k `div` 2) = k) ∧ (Nat.Odd k → 2 * (k `div` 2) + 1 = k).
Proof.
    split; [|apply odd_half].
    intros [m ->]. replace ((2 * m) `div` 2) with m; [done|].
    apply (Nat.div_unique _ _ _ 0); lia.
Qed.

(** X13. Same padding needs an odd kernel.  When the kernel height or
    width is even the convolution output is one row or column larger
    than the input, so for inputs of at least two rows and two columns
    the product of the forget gate and the memory state has no common
    shape and the step fails. *)
Theorem cell_step_even_kernel cin hd kh kw (cell : ConvLSTMCell.t A)
    b h w (x hp c : T4 A) :
    cell_ok cin hd kh kw cell → 0 < cin → 0 < hd → 0 < kh → 0 < kw →
    Nat.even kh = true ∨ Nat.even kw = true →
    0 < b → 2 ≤ h → 2 ≤ w →
    shape4 b cin h w x → shape4 b hd h w hp → shape4 b hd h w c →
    ∃ cc ho wo,
      Conv2d.forward (ConvLSTMCell.conv cell) (zip_with app x hp) = Some cc ∧
      shape4 b (4 * hd) ho wo cc ∧
      ho = (if Nat.even kh then h + 1 else h) ∧
      wo = (if Nat.even kw then w + 1 else w) ∧
      ConvLSTMCell.forward cell x (hp, c) = None.
Proof.
    intros [Hhd Hconv] ? ? ? ? Heven ? ? ? Hx Hhp Hc.
    pose proof (cat1_shape _ _ _ _ _ _ _ Hx Hhp) as Hcomb.
    set (ho := h + 2 * (kh `div` 2) - kh + 1).
    set (wo := w + 2 * (kw `div` 2) - kw + 1).
    assert (∀ k n, 0 < n → n + 2 * (k `div` 2) - k + 1
                           = if Nat.even k then n + 1 else n) as Hout.
    { intros k n Hn. destruct (Nat.even k) eqn:He.
      - apply Nat.even_spec in He.
        pose proof (proj1 (double_half k) He). lia.
      - assert (Nat.Odd k) as Ho.
        { apply Nat.odd_spec. unfold Nat.odd. by rewrite He. }
        pose proof (odd_half _ Ho). lia. }
    assert (ho = if Nat.even kh then h + 1 else h) as Hho by (apply Hout; lia).
    assert (wo = if Nat.even kw then w + 1 else w) as Hwo by (apply Hout; lia).
    assert (kh ≤ h + 2 * (kh `div` 2) ∧ kw ≤ w + 2 * (kw `div` 2)) as [? ?].
    { pose proof (Nat.div_mod_eq kh 2). pose proof (Nat.mod_upper_bound kh 2).
      pose proof (Nat.div_mod_eq kw 2). pose proof (Nat.mod_upper_bound kw 2).
      lia. }
    pose proof (conv_out_shape _ _ _ _ _ _ _ b h w (zip_with app x hp) Hconv
                  (proj1 Hcomb)) as Hcc.
    fold ho wo in Hcc.
    set (cc := conv_out (ConvLSTMCell.conv cell) kh kw (kh `div` 2) (kw `div` 2)
                 h w (zip_with app x hp)) in *.
    assert (Conv2d.forward (ConvLSTMCell.conv cell) (zip_with app x hp) = Some cc)
      as Hfwd.
    { eapply conv_forward_eq; [done| | | |done|..]; lia. }
    exists cc, ho, wo. split; [done|]. split; [done|]. split; [done|].
    split; [done|].
    unfold ConvLSTMCell.forward.
    rewrite (cat1_eq _ _ _ _ _ _ _ Hx Hhp) by lia. simpl.
    rewrite Hfwd. simpl. rewrite Hhd.
    assert (0 < ho) by (rewrite Hho; destruct (Nat.even kh); lia).
    rewrite (split1_four _ _ _ _ _ Hcc) by done. simpl.
    assert (torch.mul (torch.sigmoid (chunk hd 1 cc)) c = None) as ->; [|done].
    apply (pointwise_mismatch smul b hd ho wo h w); [|done|done|done|].
    - apply map4_shape. eapply chunk_shape; [done|]. lia.
    - rewrite Hho, Hwo.
      destruct Heven as [He|He]; rewrite He.
      + left. lia.
      + destruct (Nat.even kh); [left|right]; lia.
Qed.
End even_kernel.

Lemma cell_step_even_kernel_witness :
  ∃ cell : ConvLSTMCell.t R,
    ConvLSTMCell.__init__ (PyInt 3) (PyInt 3) (PyTuple [PyInt 2; PyInt 2]) true
      zero_params = inr cell ∧
    ConvLSTMCell.forward cell (torch.zeros 1 3 4 4)
      (torch.zeros 1 3 4 4, torch.zeros 1 3 4 4) = None.
Proof.
  destruct (cell_init_ok (A:=R) 3 3 2 2 true zero_params) as (cell & Hcell & Hok & _).
  exists cell. split; [exact Hcell|].
  destruct (cell_step_even_kernel 3 3 2 2 cell 1 4 4 (torch.zeros 1 3 4 4)
              (torch.zeros 1 3 4 4) (torch.zeros 1 3 4 4) Hok)
    as (_ & _ & _ & _ & _ & _ & _ & Hnone);
    [lia|lia|lia|lia|by left|lia|lia|lia|apply shape4_zeros..|].
  exact Hnone.
Defined.

(** ** The stack as an iteration of its cells *)

Section iteration.
Context {A : Type} `{Scalar A}.

Lemma select1_eq b T c h w (x : T5 A) t :
    shape5 b T c h w x → t < T →
    torch.select1 x t = Some (time_slice x t) ∧
    shape4 b c h w (time_slice x t).
Proof.
    intros [Hb Hx] Ht. split.
    - unfold torch.select1, time_slice. apply mapM_Some.
      apply Forall2_fmap_r, Forall_Forall2_diag.
      eapply list.Forall_impl; [done|]. intros e [He _]. simpl.
      destruct (e !! t) eqn:Het; [done|].
      apply lookup_ge_None in Het. lia.
    - unfold time_slice. split; [by rewrite length_fmap|].
      apply Forall_fmap. eapply list.Forall_impl; [done|].
      intros e [He Hall]. simpl.
      destruct (e !! t) eqn:Het.
      + by eapply Forall_lookup_1 in Hall.
      + apply lookup_ge_None in Het. lia.
Qed.

Lemma time_slices_shape b T c h w (x : T5 A) :
    shape5 b T c h w x → Forall (shape4 b c h w) (time_slices x T).
Proof.
    intros Hx. unfold time_slices. apply Forall_fmap, Forall_lookup.
    intros i t [-> ?]%lookup_seq. simpl.
    by apply (select1_eq b T c h w).
Qed.

Lemma steps_out_fst (cell : ConvLSTMCell.t A) xs hc :
    fst <$> steps_out cell xs hc = steps cell xs hc.
Proof.
    revert hc. induction xs as [|x xs IH]; intros hc; simpl; [done|].
    destruct (ConvLSTMCell.forward cell x hc) as [hc'|]; simpl; [|done].
    rewrite <- IH. by destruct (steps_out cell xs hc') as [[??]|].
Qed.

Lemma steps_out_app (cell : ConvLSTMCell.t A) xs1 xs2 hc :
    steps_out cell (xs1 ++ xs2) hc =
    '(hc1, o1) ← steps_out cell xs1 hc;
    '(hc2, o2) ← steps_out cell xs2 hc1;
    Some (hc2, o1 ++ o2).
Proof.
    revert hc. induction xs1 as [|x xs1 IH]; intros hc; simpl.
    - by destruct (steps_out cell xs2 hc) as [[??]|].
    - destruct (ConvLSTMCell.forward cell x hc) as [hc'|]; simpl; [|done].
      rewrite IH.
      destruct (steps_out cell xs1 hc') as [[hc1 o1]|]; simpl; [|done].
      by destruct (steps_out cell xs2 hc1) as [[??]|].
Qed.

(** The loop over time is the iteration of the cell on the time
    slices. *)
Lemma time_loop_eq b T c h w (cell : ConvLSTMCell.t A) (x : T5 A) ts :
    shape5 b T c h w x → Forall (λ t, t < T) ts →
    ∀ hc out,
    ConvLSTM.time_loop cell x ts hc out =
    '(hc', outs) ← steps_out cell (time_slice x <$> ts) hc;
    Some (hc', out ++ outs).
Proof.
    intros Hx Hts. induction Hts as [|t ts Ht _ IH]; intros hc out.
    - cbn. by rewrite app_nil_r.
    - rewrite fmap_cons. cbn [ConvLSTM.time_loop steps_out].
      destruct (select1_eq _ _ _ _ _ _ _ Hx Ht) as [-> _]. simpl.
      destruct (ConvLSTMCell.forward cell (time_slice x t) hc) as [hc'|];
        simpl; [|done].
      rewrite IH.
      destruct (steps_out cell (time_slice x <$> ts) hc') as [[hc'' outs]|];
        simpl; [|done].
      by rewrite <- app_assoc.
Qed.

(** Stacking working states along the time axis and slicing the result
    gives the working states back. *)
Lemma stack1_time_slices b c h w (outs : list (T4 A)) :
    Forall (shape4 b c h w) outs → outs ≠ [] → 0 < b → 0 < c → 0 < h →
    ∃ x, torch.stack1 outs = Some x ∧
         shape5 b (length outs) c h w x ∧
         time_slices x (length outs) = outs.
Proof.
    intros Houts Hne ? ? ?.
    destruct (stack1_shape b c h w outs Houts Hne) as (x & Hx & Hshape);
      [done..|].
    exists x. split; [done|]. split; [done|].
    assert (x = torch.transpose b outs) as ->.
    { unfold torch.stack1 in Hx. destruct outs as [|t0 outs']; [done|].
      apply list.Forall_cons in Houts as [[Hb0 _] _].
      rewrite Hb0 in Hx. case_guard; simplify_eq/=; done. }
    apply list_eq. intros t. unfold time_slices.
    rewrite list_lookup_fmap.
    destruct (decide (t < length outs)) as [Ht|Ht].
    2:{ rewrite lookup_seq_ge by lia.
        by rewrite lookup_ge_None_2 by lia. }
    rewrite lookup_seq_lt by done. simpl.
    destruct (outs !! t) as [o|] eqn:Hot.
    2:{ apply lookup_ge_None in Hot. lia. }
    f_equal. apply list_eq. intros i. unfold time_slice.
    rewrite list_lookup_fmap.
    assert (Forall (λ r : T4 A, length r = b) outs) as Hlen.
    { eapply list.Forall_impl; [done|]. by intros ? [? _]. }
    destruct (decide (i < b)) as [Hi|Hi].
    - pose proof (transpose_lookup b outs t i Hlen Hi) as Htr.
      rewrite Hot in Htr. simpl in Htr.
      destruct (torch.transpose b outs !! i) as [col|] eqn:Hcol; simpl in *.
      + rewrite Htr. destruct (o !! i) eqn:Hoi; [done|].
        apply lookup_ge_None in Hoi.
        eapply Forall_lookup_1 in Hlen; [|done]. lia.
      + destruct Hshape as [Hl _]. apply lookup_ge_None in Hcol. lia.
    - destruct Hshape as [Hl _].
      rewrite (lookup_ge_None_2 (torch.transpose b outs)) by lia.
      eapply Forall_lookup_1 in Hlen; [|done].
      by rewrite lookup_ge_None_2 by lia.
Qed.
End iteration.

Section iteration2.
Context {A : Type} `{Scalar A}.

Lemma steps_out_shape b h w cin hd kh kw (cell : ConvLSTMCell.t A) xs hc :
    0 < b → 0 < h → 0 < w →
    cell_ok cin hd kh kw cell → 0 < cin → 0 < hd → Nat.Odd kh → Nat.Odd kw →
    Forall (shape4 b cin h w) xs → state_shape b hd h w hc →
    ∃ hc' outs,
      steps_out cell xs hc = Some (hc', outs) ∧
      state_shape b hd h w hc' ∧
      length outs = length xs ∧
      Forall (shape4 b hd h w) outs.
Proof.
    intros ? ? ? Hok ? ? ? ? Hxs. revert hc.
    induction Hxs as [|x xs Hx _ IH]; intros hc Hhc; simpl.
    - exists hc, []. split; [done|]. split; [done|]. split; [done|constructor].
    - destruct (cell_step_shape b h w cin hd kh kw cell x hc) as (hc1 & -> & Hhc1);
        [done..|].
      simpl. destruct (IH hc1 Hhc1) as (hc' & outs & -> & Hhc' & Hlen & Houts).
      simpl. exists hc', (hc1.1 :: outs).
      split; [done|]. split; [done|]. split; [simpl; lia|].
      constructor; [apply Hhc1|done].
Qed.

(** The loop over the layers is [run_layers] on the time slices. *)
Lemma layer_loop_run b h w (self : ConvLSTM.t A) hs T :
    0 < b → 0 < h → 0 < w → 0 < T →
    ∀ cin dims cells, cells_ok cin dims cells →
    ∀ k x lo ls hsk,
    Forall layer_valid dims → 0 < cin →
    (∀ i, i < length dims → ConvLSTM.cell_list self !! (k + i) = cells !! i) →
    (∀ i, i < length dims → hs !! (k + i) = hsk !! i) →
    Forall2 (λ d hc, state_shape b d.1 h w hc) dims hsk →
    shape5 b T cin h w x →
    ∃ lo' ls',
      ConvLSTM.layer_loop self hs T (seq k (length dims)) x lo ls
        = Some (lo ++ lo', ls ++ ls') ∧
      run_layers cells hsk (time_slices x T) = Some ls' ∧
      Forall2 (λ d hc, state_shape b d.1 h w hc) dims ls' ∧
      length lo' = length dims.
Proof.
    intros Hb Hh Hw HT cin dims cells Hcells.
    induction Hcells as [cin|cin hd kh kw dims cell cells Hcell Hcells IH];
      intros k x lo ls hsk Hvalid Hcin Hlook Hhs Hshapes Hx.
    - apply Forall2_nil_inv_l in Hshapes as ->.
      exists [], []. rewrite !app_nil_r. repeat split; constructor.
    - apply Forall2_cons_inv_l in Hshapes as (hc & hsk' & Hhc & Hshapes & ->).
      apply list.Forall_cons in Hvalid as [(Hhd & Hkh & Hkw) Hvalid].
      simpl in Hhd, Hkh, Hkw, Hhc.
      pose proof (Hhs 0 ltac:(simpl; lia)) as Hh0.
      pose proof (Hlook 0 ltac:(simpl; lia)) as Hl0.
      rewrite Nat.add_0_r in Hh0, Hl0. simpl in Hh0, Hl0.
      cbn [length seq ConvLSTM.layer_loop]. rewrite Hh0, Hl0. simpl.
      rewrite (time_loop_eq b T cin h w cell x (seq 0 T) Hx)
        by (apply Forall_seq; lia).
      fold (time_slices x T).
      destruct (steps_out_shape b h w cin hd kh kw cell (time_slices x T) hc)
        as (hc' & outs & Hsteps & Hhc' & Hlen & Houts); try done.
      { by apply (time_slices_shape b T cin h w). }
      rewrite Hsteps. simpl.
      unfold time_slices in Hlen. rewrite length_fmap, length_seq in Hlen.
      destruct (stack1_time_slices b hd h w outs Houts)
        as (x' & -> & Hx' & Hslices); [|done..|].
      { intros ->. simpl in Hlen. lia. }
      simpl. rewrite Hlen in Hx', Hslices.
      destruct (IH (S k) x' (lo ++ [x']) (ls ++ [hc']) hsk' Hvalid Hhd)
        as (lo' & ls' & -> & Hrun & Hls & Hlo); try done.
      + intros i Hi. replace (S k + i) with (k + S i) by lia.
        by rewrite Hlook by (simpl; lia).
      + intros i Hi. replace (S k + i) with (k + S i) by lia.
        by rewrite Hhs by (simpl; lia).
      + exists (x' :: lo'), (hc' :: ls'). rewrite <- !app_assoc.
        split; [done|]. rewrite Hslices in Hrun.
        cbn [run_layers]. rewrite Hrun. simpl.
        split; [done|]. split; [by constructor|]. simpl. by rewrite Hlo.
Qed.

Lemma forward_run_layers cin dims (self : ConvLSTM.t A)
    b T h w (x : T5 A) (hs : list (T4 A * T4 A)) :
    stack_ok cin dims self → Forall layer_valid dims →
    ConvLSTM.batch_first self = true →
    0 < cin → 0 < b → 0 < T → 0 < h → 0 < w →
    shape5 b T cin h w x →
    Forall2 (λ d hc, state_shape b d.1 h w hc) dims hs →
    ∃ ls,
      run_layers (ConvLSTM.cell_list self) hs (time_slices x T) = Some ls ∧
      Forall2 (λ d hc, state_shape b d.1 h w hc) dims ls ∧
      ConvLSTM.forward self x (Some hs) =
        Some (if ConvLSTM.return_all_layers self then ls
              else ConvLSTM.last1 ls).
Proof.
    intros Hok Hvalid Hbf ? ? ? ? ? Hx Hhs.
    pose proof Hok as [HL Hcells].
    destruct (layer_loop_run b h w self hs T ltac:(done) ltac:(done) ltac:(done)
                ltac:(done) cin dims _ Hcells 0 x [] [] hs Hvalid)
      as (lo & ls & Hloop & Hrun & Hls & Hlo); try done.
    exists ls. split; [done|]. split; [done|].
    unfold ConvLSTM.forward, ConvLSTM.forward_lists.
    rewrite Hbf. simpl negb. cbv iota.
    rewrite (shape5_size _ _ _ _ _ _ Hx) by done. simpl.
    rewrite HL, Nat2Z.id, Hloop. simpl.
    by destruct (ConvLSTM.return_all_layers self).
Qed.

Lemma forward_none_zero cin dims (self : ConvLSTM.t A) b T h w (x : T5 A) :
    stack_ok cin dims self → ConvLSTM.batch_first self = true →
    0 < b → 0 < T → 0 < cin → 0 < h →
    shape5 b T cin h w x →
    ConvLSTM.forward self x None =
      ConvLSTM.forward self x (Some ((λ d, zero_state b d.1 h w) <$> dims)).
Proof.
    intros Hok Hbf ? ? ? ? Hx.
    unfold ConvLSTM.forward, ConvLSTM.forward_lists.
    rewrite Hbf. simpl negb. cbv iota.
    rewrite (shape5_size _ _ _ _ _ _ Hx) by done.
    by rewrite (init_hidden_zero cin dims self b h w Hok).
Qed.


Lemma run_layers_continue (cells : list (ConvLSTMCell.t A)) hs xs1 xs2 :
    run_layers cells hs (xs1 ++ xs2) =
    ls1 ← run_layers cells hs xs1; run_layers cells ls1 xs2.
Proof.
    revert hs xs1 xs2. induction cells as [|cell cells IH]; intros hs xs1 xs2.
    - by destruct hs.
    - destruct hs as [|hc hs]; [done|]. simpl.
      rewrite steps_out_app.
      destruct (steps_out cell xs1 hc) as [[hc1 o1]|]; simpl; [|done].
      destruct (steps_out cell xs2 hc1) as [[hc2 o2]|] eqn:H2; simpl.
      + rewrite IH.
        destruct (run_layers cells hs o1) as [ls1|]; simpl; [|done].
        by rewrite H2.
      + destruct (run_layers cells hs o1) as [ls1|]; simpl; [|done].
        by rewrite H2.
Qed.
End iteration2.


Section continuation.
Context {A : Type} `{Scalar A}.

Lemma time_cat_shape b T1 T2 c h w (x1 x2 : T5 A) :
    shape5 b T1 c h w x1 → shape5 b T2 c h w x2 →
    shape5 b (T1 + T2) c h w (time_cat x1 x2).
Proof.
    intros [Hb1 Hx1] [Hb2 Hx2]. unfold time_cat. split.
    { rewrite length_zip_with. lia. }
    eapply Forall_zip_with_shape; [|done..].
    intros e1 e2 [He1 He1'] [He2 He2']. split.
    - rewrite length_app. lia.
    - by apply Forall_app.
Qed.

Lemma time_cat_slices b T1 T2 c h w (x1 x2 : T5 A) :
    shape5 b T1 c h w x1 → shape5 b T2 c h w x2 →
    time_slices (time_cat x1 x2) (T1 + T2)
    = time_slices x1 T1 ++ time_slices x2 T2.
Proof.
    intros [Hb1 Hx1] [Hb2 Hx2]. unfold time_slices.
    rewrite seq_app, fmap_app. simpl.
    assert (∀ t, time_slice (time_cat x1 x2) t
                 = if decide (t < T1) then time_slice x1 t
                   else time_slice x2 (t - T1)) as Hslice.
    { intros t. unfold time_slice, time_cat. apply list_eq. intros i.
      rewrite list_lookup_fmap, lookup_zip_with.
      destruct (x1 !! i) as [e1|] eqn:H1, (x2 !! i) as [e2|] eqn:H2; simpl.
      - eapply Forall_lookup_1 in Hx1 as [He1 _]; [|done].
        case_decide.
        + rewrite list_lookup_fmap, H1. simpl. by rewrite lookup_app_l by lia.
        + rewrite list_lookup_fmap, H2. simpl.
          rewrite lookup_app_r by lia. by rewrite He1.
      - apply lookup_lt_Some in H1. apply lookup_ge_None in H2. lia.
      - apply lookup_lt_Some in H2. apply lookup_ge_None in H1. lia.
      - case_decide; by rewrite list_lookup_fmap, ?H1, ?H2. }
    f_equal.
    - apply list_fmap_ext. intros i t [-> ?]%lookup_seq.
      rewrite Hslice. by rewrite decide_True by lia.
    - replace (seq T1 T2) with (Nat.add T1 <$> seq 0 T2)
        by (rewrite fmap_add_seq; f_equal; lia).
      rewrite <- list_fmap_compose.
      apply list_fmap_ext. intros i t [-> ?]%lookup_seq. simpl.
      rewrite Hslice, decide_False by lia. f_equal. lia.
Qed.

Lemma last1_single {X} (l : list X) : length l = 1 → ConvLSTM.last1 l = l.
Proof. intros Hl. unfold ConvLSTM.last1. by rewrite Hl. Qed.

(** X15. Continuation.  When the stack returns the states of all its
    layers (the flag is set, or there is one layer only), running it on
    a first sequence and then, from the returned states, on a second one
    gives the states it returns on the two sequences joined in time. *)
Theorem forward_continues_from_returned_states cin dims (self : ConvLSTM.t A)
    b T1 T2 h w (x1 x2 : T5 A) :
    stack_ok cin dims self → Forall layer_valid dims →
    ConvLSTM.batch_first self = true →
    ConvLSTM.return_all_layers self = true ∨ length dims = 1 →
    0 < cin → 0 < b → 0 < T1 → 0 < T2 → 0 < h → 0 < w →
    shape5 b T1 cin h w x1 → shape5 b T2 cin h w x2 →
    ∃ s1 s2,
      ConvLSTM.forward self x1 None = Some s1 ∧
      ConvLSTM.forward self x2 (Some s1) = Some s2 ∧
      ConvLSTM.forward self (time_cat x1 x2) None = Some s2.
Proof.
    intros Hok Hvalid Hbf Hall ? ? ? ? ? ? Hx1 Hx2.
    set (hs0 := (λ d : nat * (nat * nat), zero_state (A:=A) b d.1 h w) <$> dims).
    assert (Forall2 (λ d hc, state_shape b d.1 h w hc) dims hs0) as Hhs0
      by apply zero_states_shape.
    destruct (forward_run_layers cin dims self b T1 h w x1 hs0)
      as (ls1 & Hrun1 & Hls1 & Hf1); try done.
    destruct (forward_run_layers cin dims self b T2 h w x2 ls1)
      as (ls2 & Hrun2 & Hls2 & Hf2); try done.
    destruct (forward_run_layers cin dims self b (T1 + T2) h w
                (time_cat x1 x2) hs0)
      as (ls12 & Hrun12 & Hls12 & Hf12); try done; try lia.
    { by apply time_cat_shape. }
    assert (ls12 = ls2) as ->.
    { rewrite (time_cat_slices b T1 T2 cin h w) in Hrun12 by done.
      rewrite run_layers_continue, Hrun1 in Hrun12. simpl in Hrun12.
      congruence. }
    assert (∀ ls : list (T4 A * T4 A),
              Forall2 (λ d hc, state_shape b d.1 h w hc) dims ls →
              (if ConvLSTM.return_all_layers self then ls
               else ConvLSTM.last1 ls) = ls) as Hsel.
    { intros ls Hls. destruct Hall as [->| Hone]; [done|].
      destruct (ConvLSTM.return_all_layers self); [done|].
      apply last1_single. by rewrite <- (list.Forall2_length _ _ _ Hls). }
    rewrite Hsel in Hf1, Hf2, Hf12 by done.
    exists ls1, ls2.
    split; [by rewrite (forward_none_zero cin dims self b T1 h w x1)|].
    split; [done|].
    rewrite (forward_none_zero cin dims self b (T1 + T2) h w (time_cat x1 x2));
      [done..|lia|done|done|by apply time_cat_shape].
Qed.
End continuation.

Lemma forward_continues_from_returned_states_witness :
  ∃ (self : ConvLSTM.t R) s1 s2,
    ConvLSTM.__init__ (PyInt 3) (PyList [PyInt 2; PyInt 4])
      (PyList [PyTuple [PyInt 3; PyInt 3]; PyTuple [PyInt 1; PyInt 5]]) 2
      true true true (λ _, zero_params) = inr self ∧
    ConvLSTM.forward self (full5 2 3 3 4 4 1%R) None = Some s1 ∧
    ConvLSTM.forward self (full5 2 2 3 4 4 2%R) (Some s1) = Some s2 ∧
    ConvLSTM.forward self
      (time_cat (full5 2 3 3 4 4 1%R) (full5 2 2 3 4 4 2%R)) None = Some s2.
Proof.
  destruct (stack_init_list (A:=R) 3 [(2, (3, 3)); (4, (1, 5))]
              true true true (λ _, zero_params))
    as (self & Hself & Hok & Hbf & Hret & _).
  destruct (forward_continues_from_returned_states 3 _ self 2 3 2 4 4
              (full5 2 3 3 4 4 1%R) (full5 2 2 3 4 4 2%R) Hok)
    as (s1 & s2 & H1 & H2 & H12).
  - repeat constructor; simpl; (by exists 0) || (by exists 1) || (by exists 2).
  - exact Hbf.
  - by left.
  - lia.
  - lia.
  - lia.
  - lia.
  - lia.
  - lia.
  - apply shape5_full5.
  - apply shape5_full5.
  - exists self, s1, s2. split; [exact Hself|]. split; [exact H1|].
    split; [exact H2|exact H12].
Defined.

(** ** Batches joined along the batch axis

    The convolution above computes every row of a batch by itself, in
    one fixed order of summation, so in it the rows of a batch do not
    interact.  The pipeline stacks its four windows along the batch
    axis; the lemmas below locate the rows of the stacked encoder
    state. *)

Section batch.
Context {A : Type} `{Scalar A}.

Lemma shape4_app b1 b2 c h w (s t : T4 A) :
    shape4 b1 c h w s → shape4 b2 c h w t → shape4 (b1 + b2) c h w (s ++ t).
Proof.
    intros [Hs1 Hs] [Ht1 Ht]. split; [rewrite length_app; lia|].
    by apply Forall_app.
Qed.

Lemma gate_step_app hd (cc1 cc2 c1 c2 : T4 A) :
    length cc1 = length c1 →
    gate_step hd (cc1 ++ cc2) (c1 ++ c2)
    = state_app (gate_step hd cc1 c1) (gate_step hd cc2 c2).
Proof.
    intros Hlen.
    unfold gate_step, state_app, chunk, torch.sigmoid, torch.tanh, torch.map4,
      zip4. cbn [fst snd].
    rewrite !fmap_app.
    repeat (rewrite zip_with_app
              by (repeat (rewrite length_zip_with || rewrite length_fmap); lia);
            rewrite ?fmap_app).
    done.
Qed.

Lemma cell_forward_app cin hd kh kw (cell : ConvLSTMCell.t A)
    b1 b2 h w (x1 x2 : T4 A) (hc1 hc2 : T4 A * T4 A) :
    cell_ok cin hd kh kw cell → 0 < cin → 0 < hd → Nat.Odd kh → Nat.Odd kw →
    0 < b1 → 0 < b2 → 0 < h → 0 < w →
    shape4 b1 cin h w x1 → shape4 b2 cin h w x2 →
    state_shape b1 hd h w hc1 → state_shape b2 hd h w hc2 →
    ∃ r1 r2,
      ConvLSTMCell.forward cell x1 hc1 = Some r1 ∧
      ConvLSTMCell.forward cell x2 hc2 = Some r2 ∧
      state_shape b1 hd h w r1 ∧ state_shape b2 hd h w r2 ∧
      ConvLSTMCell.forward cell (x1 ++ x2) (state_app hc1 hc2)
        = Some (state_app r1 r2).
Proof.
    intros Hok ? ? Hkh Hkw ? ? ? ? Hx1 Hx2 [Hh1 Hc1] [Hh2 Hc2].
    destruct hc1 as [h1 c1], hc2 as [h2 c2]. cbn [fst snd] in *.
    destruct (cell_forward_eq cin hd kh kw cell b1 h w x1 h1 c1)
      as (Hcc1 & _ & Hf1); [done..|].
    destruct (cell_forward_eq cin hd kh kw cell b2 h w x2 h2 c2)
      as (Hcc2 & _ & Hf2); [done..|].
    destruct (cell_forward_eq cin hd kh kw cell (b1 + b2) h w (x1 ++ x2)
                (h1 ++ h2) (c1 ++ c2)) as (_ & _ & Hf12);
      [done..|by apply shape4_app|by apply shape4_app|by apply shape4_app
      |lia|done|done|].
    eexists _, _. split; [exact Hf1|]. split; [exact Hf2|].
    split; [by apply gate_step_shape|]. split; [by apply gate_step_shape|].
    change (state_app (h1, c1) (h2, c2)) with (h1 ++ h2, c1 ++ c2).
    rewrite Hf12. f_equal.
    rewrite zip_with_app by (destruct Hx1, Hh1; congruence).
    unfold conv_out at 1. rewrite fmap_app.
    apply gate_step_app.
    unfold conv_out. rewrite length_fmap, length_zip_with.
    destruct Hx1 as [-> _], Hh1 as [-> _], Hc1 as [-> _]. lia.
Qed.

Lemma steps_out_batch cin hd kh kw (cell : ConvLSTMCell.t A)
    b1 b2 h w (xs1 xs2 : list (T4 A)) :
    cell_ok cin hd kh kw cell → 0 < cin → 0 < hd → Nat.Odd kh → Nat.Odd kw →
    0 < b1 → 0 < b2 → 0 < h → 0 < w →
    Forall (shape4 b1 cin h w) xs1 → Forall (shape4 b2 cin h w) xs2 →
    length xs1 = length xs2 →
    ∀ hc1 hc2,
    state_shape b1 hd h w hc1 → state_shape b2 hd h w hc2 →
    ∃ r1 o1 r2 o2,
      steps_out cell xs1 hc1 = Some (r1, o1) ∧
      steps_out cell xs2 hc2 = Some (r2, o2) ∧
      state_shape b1 hd h w r1 ∧ state_shape b2 hd h w r2 ∧
      Forall (shape4 b1 hd h w) o1 ∧ Forall (shape4 b2 hd h w) o2 ∧
      length o1 = length xs1 ∧ length o2 = length xs2 ∧
      steps_out cell (zip_with app xs1 xs2) (state_app hc1 hc2)
        = Some (state_app r1 r2, zip_with app o1 o2).
Proof.
    intros Hok ? ? ? ? ? ? ? ? Hxs1. revert xs2.
    induction Hxs1 as [|x1 xs1 Hx1 _ IH]; intros [|x2 xs2] Hxs2 Hlen hc1 hc2 S1 S2;
      try discriminate Hlen.
    - exists hc1, [], hc2, [].
      split; [done|]. split; [done|]. split; [done|]. split; [done|].
      split; [constructor|]. split; [constructor|]. done.
    - apply list.Forall_cons in Hxs2 as [Hx2 Hxs2].
      destruct (cell_forward_app cin hd kh kw cell b1 b2 h w
                  x1 x2 hc1 hc2) as (r1 & r2 & Hr1 & Hr2 & S1' & S2' & Hr12);
        [done..|].
      destruct (IH xs2 Hxs2 ltac:(by injection Hlen) r1 r2 S1' S2')
        as (r1' & o1 & r2' & o2 & Ho1 & Ho2 & ? & ? & ? & ? & ? & ? & Ho12).
      exists r1', (r1.1 :: o1), r2', (r2.1 :: o2).
      cbn [steps_out zip_with]. rewrite Hr1, Hr2, Hr12.
      cbv beta iota delta [mbind option_bind]. rewrite Ho1, Ho2, Ho12.
      split; [done|]. split; [done|]. split; [done|]. split; [done|].
      split; [constructor; [apply S1'|done]|].
      split; [constructor; [apply S2'|done]|].
      split; [simpl; lia|]. split; [simpl; lia|]. done.
Qed.

Lemma time_slices_app (x1 x2 : T5 A) T :
    time_slices (x1 ++ x2) T
    = zip_with app (time_slices x1 T) (time_slices x2 T).
Proof.
    unfold time_slices. rewrite zip_with_fmap_l, zip_with_fmap_r, zip_with_diag.
    apply list_fmap_ext. intros _ t _. unfold time_slice. by rewrite fmap_app.
Qed.

Lemma shape5_app b1 b2 T c h w (x1 x2 : T5 A) :
    shape5 b1 T c h w x1 → shape5 b2 T c h w x2 →
    shape5 (b1 + b2) T c h w (x1 ++ x2).
Proof.
    intros [Hs1 Hs] [Ht1 Ht]. split; [rewrite length_app; lia|].
    by apply Forall_app.
Qed.

End batch.

(** ** The pipeline as a composition of cell steps *)

Section composition.
Context {A : Type} `{Scalar A}.

Lemma steps_batch cin hd kh kw (cell : ConvLSTMCell.t A)
    b1 b2 h w (xs1 xs2 : list (T4 A)) hc1 hc2 :
    cell_ok cin hd kh kw cell → 0 < cin → 0 < hd → Nat.Odd kh → Nat.Odd kw →
    0 < b1 → 0 < b2 → 0 < h → 0 < w →
    Forall (shape4 b1 cin h w) xs1 → Forall (shape4 b2 cin h w) xs2 →
    length xs1 = length xs2 →
    state_shape b1 hd h w hc1 → state_shape b2 hd h w hc2 →
    ∃ r1 r2,
      steps cell xs1 hc1 = Some r1 ∧ steps cell xs2 hc2 = Some r2 ∧
      state_shape b1 hd h w r1 ∧ state_shape b2 hd h w r2 ∧
      steps cell (zip_with app xs1 xs2) (state_app hc1 hc2)
        = Some (state_app r1 r2).
Proof.
    intros Hok ? ? ? ? ? ? ? ? Hxs1 Hxs2 Hlen S1 S2.
    destruct (steps_out_batch cin hd kh kw cell b1 b2 h w xs1 xs2 Hok
                ltac:(done) ltac:(done) ltac:(done) ltac:(done) ltac:(done)
                ltac:(done) ltac:(done) ltac:(done) Hxs1 Hxs2 Hlen hc1 hc2 S1 S2)
      as (r1 & o1 & r2 & o2 & Ho1 & Ho2 & ? & ? & _ & _ & _ & _ & Ho12).
    exists r1, r2. rewrite <- !steps_out_fst, Ho1, Ho2, Ho12. done.
Qed.

(** A stack of the pipeline, run from no initial state, iterates its
    cell over the time slices of the input from the zero state. *)
Lemma last_state_steps (self : ConvLSTM.t A) cell b T h w (x : T5 A) :
    stack331 self → ConvLSTM.cell_list self = [cell] →
    0 < b → 0 < T → 0 < h → 0 < w → shape5 b T 3 h w x →
    LongShortTimeAutoEncodeDecoder.last_state self x None
    = steps cell (time_slices x T) (zero_state b 3 h w).
Proof.
    intros (Hok & Hbf & Hret) Hcells ? ? ? ? Hx.
    unfold LongShortTimeAutoEncodeDecoder.last_state.
    rewrite (forward_none_zero 3 [(3, (3, 3))] self b T h w x) by (done || lia).
    destruct (forward_run_layers 3 [(3, (3, 3))] self b T h w x
                ((λ d, zero_state b d.1 h w) <$> [(3, (3, 3))]) Hok)
      as (ls & Hrun & _ & ->); try done; try lia.
    { repeat constructor; simpl; apply odd_3. }
    { apply zero_states_shape. }
    rewrite Hret, Hcells in *. cbn [fmap list_fmap fst run_layers] in Hrun.
    rewrite <- steps_out_fst.
    destruct (steps_out cell (time_slices x T) (zero_state b 3 h w))
      as [[hc' outs]|]; simplify_eq/=; done.
Qed.

(** Step [j] of a window is frame [lo + j] of the clip. *)
Lemma time_slice_window b c t h w (clip : T5 A) lo hi j :
    shape5 b c t h w clip → 0 < c → lo < hi → hi ≤ t → j < hi - lo →
    time_slice (LongShortTimeAutoEncodeDecoder.window clip lo hi) j
    = frame clip (lo + j).
Proof.
    intros Hclip ? ? ? Hj.
    pose proof (window_shape b c t h w clip lo hi Hclip ltac:(done) ltac:(done)
                  ltac:(done)) as [HWb HW].
    pose proof Hclip as [Hb Hx].
    apply list_eq. intros i. unfold time_slice, frame.
    rewrite !list_lookup_fmap.
    destruct (decide (i < b)) as [Hi|Hi].
    2:{ rewrite !lookup_ge_None_2 by lia. done. }
    destruct (LongShortTimeAutoEncodeDecoder.window clip lo hi !! i)
      as [e|] eqn:He.
    2:{ apply lookup_ge_None in He. lia. }
    destruct (clip !! i) as [e'|] eqn:He'.
    2:{ apply lookup_ge_None in He'. lia. }
    simpl. f_equal.
    eapply Forall_lookup_1 in HW as [HeT Hee]; [|done].
    eapply Forall_lookup_1 in Hx as [Hc Hchs]; [|done].
    destruct (e !! j) as [f|] eqn:Hf.
    2:{ apply lookup_ge_None in Hf. lia. }
    simpl. eapply Forall_lookup_1 in Hee as [Hfc _]; [|done].
    apply list_eq. intros k. rewrite list_lookup_fmap.
    pose proof (window_lookup b c t h w clip lo hi i j k Hclip ltac:(done)
                  ltac:(done) ltac:(done) Hj) as Hat.
    unfold at3 in Hat. rewrite He, He' in Hat. simpl in Hat.
    rewrite Hf in Hat. simpl in Hat. rewrite Hat.
    destruct (e' !! k) as [ch|] eqn:Hch; simpl; [|done].
    eapply Forall_lookup_1 in Hchs as [Hcht _]; [|done].
    destruct (ch !! (lo + j)) as [fr|] eqn:Hfr; [done|].
    apply lookup_ge_None in Hfr. lia.
Qed.

Lemma time_slices_window b c t h w (clip : T5 A) lo :
    shape5 b c t h w clip → 0 < c → lo + 3 ≤ t →
    time_slices (LongShortTimeAutoEncodeDecoder.window clip lo (lo + 3)) 3
    = [frame clip lo; frame clip (lo + 1); frame clip (lo + 2)].
Proof.
    intros Hclip ? ?. unfold time_slices. cbn [seq fmap list_fmap].
    rewrite !(time_slice_window b c t h w clip lo (lo + 3)) by (done || lia).
    by rewrite Nat.add_0_r.
Qed.

Lemma length_one {X} (l : list X) : length l = 1 → ∃ a, l = [a].
Proof. destruct l as [|a [|??]]; intros; simplify_eq/=. by exists a. Qed.

Lemma zero_state_app b1 b2 hd h w :
    zero_state (A:=A) (b1 + b2) hd h w
    = state_app (zero_state b1 hd h w) (zero_state b2 hd h w).
Proof.
    unfold zero_state, state_app, torch.zeros. cbn [fst snd].
    by rewrite replicate_add.
Qed.

(** The encoding of two sequences stacked along the batch axis. *)
Lemma steps_slices_app cin hd kh kw (cell : ConvLSTMCell.t A)
    b1 b2 T h w (x1 x2 : T5 A) :
    cell_ok cin hd kh kw cell → 0 < cin → 0 < hd → Nat.Odd kh → Nat.Odd kw →
    0 < b1 → 0 < b2 → 0 < h → 0 < w →
    shape5 b1 T cin h w x1 → shape5 b2 T cin h w x2 →
    ∃ r1 r2,
      steps cell (time_slices x1 T) (zero_state b1 hd h w) = Some r1 ∧
      steps cell (time_slices x2 T) (zero_state b2 hd h w) = Some r2 ∧
      state_shape b1 hd h w r1 ∧ state_shape b2 hd h w r2 ∧
      steps cell (time_slices (x1 ++ x2) T) (zero_state (b1 + b2) hd h w)
        = Some (state_app r1 r2).
Proof.
    intros Hok ? ? ? ? ? ? ? ? Hx1 Hx2.
    rewrite time_slices_app, zero_state_app.
    eapply steps_batch; try done.
    - by eapply time_slices_shape.
    - by eapply time_slices_shape.
    - unfold time_slices. by rewrite !length_fmap.
    - split; apply shape4_zeros.
    - split; apply shape4_zeros.
Qed.

(** The pipeline in terms of its three cells, for any batch size: the
    four encodings, the rows 0 to 3 of their stacked memory states, the
    prediction from rows 0, 1, 2 and the decoding of row 3. *)
Lemma pipeline_rows h w
    (net : LongShortTimeAutoEncodeDecoder.t A) b t (clip : T5 A) :
    0 < h → 0 < w → net_ok net → 0 < b → 9 ≤ t → shape5 b 3 t h w clip →
    ∃ cell_a cell_p cell_d e0 e1 e2 e3 r0 r1 r2 r3 p d,
      ConvLSTM.cell_list
        (LongShortTimeAutoEncodeDecoder.convLstmMotionAwareBlock net) = [cell_a] ∧
      ConvLSTM.cell_list
        (LongShortTimeAutoEncodeDecoder.convLstmMotionPredBlock net) = [cell_p] ∧
      ConvLSTM.cell_list
        (LongShortTimeAutoEncodeDecoder.convLstmDecode net) = [cell_d] ∧
      steps cell_a [frame clip 0; frame clip 1; frame clip 2]
        (zero_state b 3 h w) = Some e0 ∧
      steps cell_a [frame clip 2; frame clip 3; frame clip 4]
        (zero_state b 3 h w) = Some e1 ∧
      steps cell_a [frame clip 4; frame clip 5; frame clip 6]
        (zero_state b 3 h w) = Some e2 ∧
      steps cell_a [frame clip 6; frame clip 7; frame clip 8]
        (zero_state b 3 h w) = Some e3 ∧
      length e0.2 = b ∧
      (e0.2 ++ e1.2 ++ e2.2 ++ e3.2) !! 0 = Some r0 ∧
      (e0.2 ++ e1.2 ++ e2.2 ++ e3.2) !! 1 = Some r1 ∧
      (e0.2 ++ e1.2 ++ e2.2 ++ e3.2) !! 2 = Some r2 ∧
      (e0.2 ++ e1.2 ++ e2.2 ++ e3.2) !! 3 = Some r3 ∧
      (b = 1 → e0.2 = [r0] ∧ e1.2 = [r1] ∧ e2.2 = [r2] ∧ e3.2 = [r3]) ∧
      steps cell_p [[r0]; [r1]; [r2]] (zero_state 1 3 h w) = Some p ∧
      ConvLSTMCell.forward cell_d [r3] (torch.zeros 1 3 h w, p.2) = Some d ∧
      LongShortTimeAutoEncodeDecoder.forward net clip = Some d.1.
Proof.
    intros Hh Hw Hnet Hb Ht Hclip.
    destruct (pipeline_shape h w net b t clip Hh Hw Hnet Hb Ht Hclip)
      as (stacked & hc_enc & hc_pred & c79 & cell_d & hc_dec & Hwin & Henc &
          Senc & Hpred & Spred & Hc79 & Hcd & Hdec & Sdec & Hfwd).
    destruct Hnet as (Ha & Hp & Hd).
    destruct (stack331_cell _ Ha) as (cell_a & Hca & Hoka & _).
    destruct (stack331_cell _ Hp) as (cell_p & Hcp & Hokp & _).
    destruct (windows_eq _ _ _ _ _ _ Hclip) as [Hwin' Hstacked]; [lia..|].
    rewrite Hwin' in Hwin. injection Hwin as <-.
    pose proof (window_shape _ _ _ _ _ clip 0 3 Hclip
                  ltac:(lia) ltac:(lia) ltac:(lia)) as W0.
    pose proof (window_shape _ _ _ _ _ clip 2 5 Hclip
                  ltac:(lia) ltac:(lia) ltac:(lia)) as W1.
    pose proof (window_shape _ _ _ _ _ clip 4 7 Hclip
                  ltac:(lia) ltac:(lia) ltac:(lia)) as W2.
    pose proof (window_shape _ _ _ _ _ clip 6 9 Hclip
                  ltac:(lia) ltac:(lia) ltac:(lia)) as W3.
    simpl in W0, W1, W2, W3.
    rewrite (last_state_steps _ cell_a (4 * b) 3 h w) in Henc
      by (done || lia).
    destruct (steps_slices_app 3 3 3 3 cell_a b b 3 h w _ _ Hoka
                ltac:(lia) ltac:(lia) odd_3 odd_3 Hb Hb Hh Hw W2 W3)
      as (e2 & e3 & He2 & He3 & S2 & S3 & He23).
    pose proof (shape5_app _ _ _ _ _ _ _ _ W2 W3) as W23.
    destruct (steps_slices_app 3 3 3 3 cell_a b (b + b) 3 h w _ _ Hoka
                ltac:(lia) ltac:(lia) odd_3 odd_3 Hb ltac:(lia) Hh Hw W1 W23)
      as (e1 & e23 & He1 & He23' & S1 & _ & He123).
    rewrite He23 in He23'. injection He23' as <-.
    pose proof (shape5_app _ _ _ _ _ _ _ _ W1 W23) as W123.
    destruct (steps_slices_app 3 3 3 3 cell_a b (b + (b + b)) 3 h w _ _ Hoka
                ltac:(lia) ltac:(lia) odd_3 odd_3 Hb ltac:(lia) Hh Hw W0 W123)
      as (e0 & e123 & He0 & He123' & S0 & _ & He0123).
    rewrite He123 in He123'. injection He123' as <-.
    replace (4 * b) with (b + (b + (b + b))) in Henc by lia.
    rewrite He0123 in Henc. injection Henc as <-.
    change (state_app e0 (state_app e1 (state_app e2 e3))).2
      with (e0.2 ++ e1.2 ++ e2.2 ++ e3.2) in *.
    set (c_all := e0.2 ++ e1.2 ++ e2.2 ++ e3.2) in *.
    assert (length c_all = 4 * b) as Hlen by apply Senc.
    pose proof (time_slices_window b 3 t h w clip 0 Hclip ltac:(lia) ltac:(lia))
      as T0.
    pose proof (time_slices_window b 3 t h w clip 2 Hclip ltac:(lia) ltac:(lia))
      as T1.
    pose proof (time_slices_window b 3 t h w clip 4 Hclip ltac:(lia) ltac:(lia))
      as T2.
    pose proof (time_slices_window b 3 t h w clip 6 Hclip ltac:(lia) ltac:(lia))
      as T3.
    cbn [Nat.add] in T0, T1, T2, T3.
    rewrite T0 in He0. rewrite T1 in He1. rewrite T2 in He2. rewrite T3 in He3.
    destruct (c_all !! 0) as [r0|] eqn:Hr0.
    2:{ apply lookup_ge_None in Hr0. lia. }
    destruct (c_all !! 1) as [r1|] eqn:Hr1.
    2:{ apply lookup_ge_None in Hr1. lia. }
    destruct (c_all !! 2) as [r2|] eqn:Hr2.
    2:{ apply lookup_ge_None in Hr2. lia. }
    assert (shape5 1 3 3 h w (torch.unsqueeze0 (torch.slice 0 3 c_all))) as Hpin.
    { destruct Senc as [_ [_ Hc2]].
      split; [done|]. constructor; [|constructor]. split.
      - apply slice_length; lia.
      - unfold torch.slice. by apply Forall_take, Forall_drop. }
    rewrite (last_state_steps _ cell_p 1 3 h w) in Hpred by (done || lia).
    unfold time_slices, time_slice, torch.unsqueeze0 in Hpred.
    cbn [seq fmap list_fmap] in Hpred.
    rewrite !slice_lookup in Hpred by lia.
    cbn [Nat.add] in Hpred. rewrite Hr0, Hr1, Hr2 in Hpred.
    cbn [default] in Hpred.
    exists cell_a, cell_p, cell_d, e0, e1, e2, e3, r0, r1, r2, c79, hc_pred, hc_dec.
    repeat (split; [done|]). split; [apply S0|].
    repeat (split; [done|]). split; [|done].
    intros ->.
    destruct S0 as [_ [L0 _]], S1 as [_ [L1 _]], S2 as [_ [L2 _]],
      S3 as [_ [L3 _]].
    apply length_one in L0 as [a0 E0], L1 as [a1 E1], L2 as [a2 E2],
      L3 as [a3 E3].
    unfold c_all in Hr0, Hr1, Hr2, Hc79.
    rewrite E0, E1, E2, E3 in Hr0, Hr1, Hr2, Hc79 |- *.
    cbn in Hr0, Hr1, Hr2, Hc79. by simplify_eq.
Qed.

Lemma time_slice_app (x1 x2 : T5 A) t :
    time_slice (x1 ++ x2) t = time_slice x1 t ++ time_slice x2 t.
Proof. unfold time_slice. by rewrite fmap_app. Qed.

(** X18. The pipeline in terms of its three cells.  The encoder cell
    runs three steps from the zero state on the four windows at once:
    its input at step j is the batch made of the frames j, 2+j, 4+j and
    6+j of the clip, one after the other along the batch axis.  The
    predictor cell runs three steps from the zero state on rows 0, 1
    and 2 of the encoder's memory state, one row per step; the decoder
    cell makes one step on row 3 from the zero working state and the
    predicted memory state, and its working state is the result. *)
Theorem pipeline_is_composition_of_cell_steps h w
    (net : LongShortTimeAutoEncodeDecoder.t A) b t (clip : T5 A) :
    0 < h → 0 < w → net_ok net → 0 < b → 9 ≤ t → shape5 b 3 t h w clip →
    ∃ cell_a cell_p cell_d e r0 r1 r2 r3 p d,
      ConvLSTM.cell_list
        (LongShortTimeAutoEncodeDecoder.convLstmMotionAwareBlock net) = [cell_a] ∧
      ConvLSTM.cell_list
        (LongShortTimeAutoEncodeDecoder.convLstmMotionPredBlock net) = [cell_p] ∧
      ConvLSTM.cell_list
        (LongShortTimeAutoEncodeDecoder.convLstmDecode net) = [cell_d] ∧
      steps cell_a
        [frame clip 0 ++ frame clip 2 ++ frame clip 4 ++ frame clip 6;
         frame clip 1 ++ frame clip 3 ++ frame clip 5 ++ frame clip 7;
         frame clip 2 ++ frame clip 4 ++ frame clip 6 ++ frame clip 8]
        (zero_state (4 * b) 3 h w) = Some e ∧
      e.2 !! 0 = Some r0 ∧ e.2 !! 1 = Some r1 ∧
      e.2 !! 2 = Some r2 ∧ e.2 !! 3 = Some r3 ∧
      steps cell_p [[r0]; [r1]; [r2]] (zero_state 1 3 h w) = Some p ∧
      ConvLSTMCell.forward cell_d [r3] (torch.zeros 1 3 h w, p.2) = Some d ∧
      LongShortTimeAutoEncodeDecoder.forward net clip = Some d.1.
Proof.
    intros Hh Hw Hnet Hb Ht Hclip.
    destruct (pipeline_shape h w net b t clip Hh Hw Hnet Hb Ht Hclip)
      as (stacked & hc_enc & hc_pred & c79 & cell_d & hc_dec & Hwin & Henc &
          Senc & Hpred & Spred & Hc79 & Hcd & Hdec & Sdec & Hfwd).
    destruct Hnet as (Ha & Hp & Hd).
    destruct (stack331_cell _ Ha) as (cell_a & Hca & Hoka & _).
    destruct (stack331_cell _ Hp) as (cell_p & Hcp & Hokp & _).
    destruct (windows_eq _ _ _ _ _ _ Hclip) as [Hwin' Hstacked]; [lia..|].
    rewrite Hwin' in Hwin. injection Hwin as <-.
    rewrite (last_state_steps _ cell_a (4 * b) 3 h w) in Henc
      by (done || lia).
    unfold time_slices in Henc. cbn [seq fmap list_fmap] in Henc.
    rewrite !time_slice_app in Henc.
    rewrite !(time_slice_window b 3 t h w clip 0 3) in Henc by (done || lia).
    rewrite !(time_slice_window b 3 t h w clip 2 5) in Henc by (done || lia).
    rewrite !(time_slice_window b 3 t h w clip 4 7) in Henc by (done || lia).
    rewrite !(time_slice_window b 3 t h w clip 6 9) in Henc by (done || lia).
    cbn [Nat.add] in Henc.
    assert (length hc_enc.2 = 4 * b) as Hlen by apply Senc.
    destruct (hc_enc.2 !! 0) as [r0|] eqn:Hr0.
    2:{ apply lookup_ge_None in Hr0. lia. }
    destruct (hc_enc.2 !! 1) as [r1|] eqn:Hr1.
    2:{ apply lookup_ge_None in Hr1. lia. }
    destruct (hc_enc.2 !! 2) as [r2|] eqn:Hr2.
    2:{ apply lookup_ge_None in Hr2. lia. }
    assert (shape5 1 3 3 h w (torch.unsqueeze0 (torch.slice 0 3 hc_enc.2)))
      as Hpin.
    { destruct Senc as [_ [_ Hc2]].
      split; [done|]. constructor; [|constructor]. split.
      - apply slice_length; lia.
      - unfold torch.slice. by apply Forall_take, Forall_drop. }
    rewrite (last_state_steps _ cell_p 1 3 h w) in Hpred by (done || lia).
    unfold time_slices, time_slice, torch.unsqueeze0 in Hpred.
    cbn [seq fmap list_fmap] in Hpred.
    rewrite !slice_lookup in Hpred by lia.
    cbn [Nat.add] in Hpred. rewrite Hr0, Hr1, Hr2 in Hpred.
    cbn [default] in Hpred.
    exists cell_a, cell_p, cell_d, hc_enc, r0, r1, r2, c79, hc_pred, hc_dec.
    repeat (split; [done|]). done.
Qed.
(** X19. With a batch of four or more clips the result is a function
    of the frames 0, 1, 2 alone: rows 0 to 3 of the stacked encoder
    memory, the only ones the predictor and the decoder read, all
    belong to the first window. *)
Theorem large_batch_result_ignores_later_frames h w
    (net : LongShortTimeAutoEncodeDecoder.t A) b t t' (clip clip' : T5 A) :
    0 < h → 0 < w → net_ok net → 4 ≤ b → 9 ≤ t → 9 ≤ t' →
    shape5 b 3 t h w clip → shape5 b 3 t' h w clip' →
    frame clip 0 = frame clip' 0 → frame clip 1 = frame clip' 1 →
    frame clip 2 = frame clip' 2 →
    LongShortTimeAutoEncodeDecoder.forward net clip
    = LongShortTimeAutoEncodeDecoder.forward net clip'.
Proof.
    intros Hh Hw Hnet Hb Ht Ht' Hclip Hclip' F0 F1 F2.
    destruct (pipeline_rows h w net b t clip Hh Hw Hnet ltac:(lia) Ht Hclip)
      as (cell_a & cell_p & cell_d & e0 & e1 & e2 & e3 & r0 & r1 & r2 & r3 & p & d
          & Ha & Hp & Hd & He0 & _ & _ & _ & Hlen & Hr0 & Hr1 & Hr2 & Hr3 & _
          & Hpred & Hdec & ->).
    destruct (pipeline_rows h w net b t' clip' Hh Hw Hnet ltac:(lia) Ht' Hclip')
      as (cell_a' & cell_p' & cell_d' & e0' & e1' & e2' & e3' & r0' & r1' & r2'
          & r3' & p' & d' & Ha' & Hp' & Hd' & He0' & _ & _ & _ & Hlen' & Hr0'
          & Hr1' & Hr2' & Hr3' & _ & Hpred' & Hdec' & ->).
    rewrite Ha in Ha'. rewrite Hp in Hp'. rewrite Hd in Hd'.
    injection Ha' as <-. injection Hp' as <-. injection Hd' as <-.
    rewrite <- F0, <- F1, <- F2, He0 in He0'. injection He0' as <-.
    rewrite lookup_app_l in Hr0, Hr1, Hr2, Hr3, Hr0', Hr1', Hr2', Hr3' by lia.
    simplify_eq. done.
Qed.
End composition.

Lemma pipeline_is_composition_of_cell_steps_witness :
  ∃ (net : LongShortTimeAutoEncodeDecoder.t R) cell_a cell_p cell_d
    (e p d : T4 R * T4 R) r0 r1 r2 r3,
    LongShortTimeAutoEncodeDecoder.__init__
      (λ _, zero_params) (λ _, zero_params) (λ _, zero_params) = inr net ∧
    ConvLSTM.cell_list
      (LongShortTimeAutoEncodeDecoder.convLstmMotionAwareBlock net) = [cell_a] ∧
    ConvLSTM.cell_list
      (LongShortTimeAutoEncodeDecoder.convLstmMotionPredBlock net) = [cell_p] ∧
    ConvLSTM.cell_list
      (LongShortTimeAutoEncodeDecoder.convLstmDecode net) = [cell_d] ∧
    steps cell_a
      [frame (full5 1 3 9 4 4 1%R) 0 ++ frame (full5 1 3 9 4 4 1%R) 2
         ++ frame (full5 1 3 9 4 4 1%R) 4 ++ frame (full5 1 3 9 4 4 1%R) 6;
       frame (full5 1 3 9 4 4 1%R) 1 ++ frame (full5 1 3 9 4 4 1%R) 3
         ++ frame (full5 1 3 9 4 4 1%R) 5 ++ frame (full5 1 3 9 4 4 1%R) 7;
       frame (full5 1 3 9 4 4 1%R) 2 ++ frame (full5 1 3 9 4 4 1%R) 4
         ++ frame (full5 1 3 9 4 4 1%R) 6 ++ frame (full5 1 3 9 4 4 1%R) 8]
      (zero_state 4 3 4 4) = Some e ∧
    e.2 !! 0 = Some r0 ∧ e.2 !! 1 = Some r1 ∧
    e.2 !! 2 = Some r2 ∧ e.2 !! 3 = Some r3 ∧
    steps cell_p [[r0]; [r1]; [r2]] (zero_state 1 3 4 4) = Some p ∧
    ConvLSTMCell.forward cell_d [r3] (torch.zeros 1 3 4 4, p.2) = Some d ∧
    LongShortTimeAutoEncodeDecoder.forward net (full5 1 3 9 4 4 1%R) = Some d.1.
Proof.
  destruct (net_init (A:=R) (λ _, zero_params) (λ _, zero_params)
              (λ _, zero_params)) as (net & Hnet & Hok & _).
  destruct (pipeline_is_composition_of_cell_steps 4 4 net 1 9
              (full5 1 3 9 4 4 1%R))
    as (cell_a & cell_p & cell_d & e & r0 & r1 & r2 & r3 & p & d & Hrest);
    [lia|lia|exact Hok|lia|lia|apply shape5_full5|].
  exists net, cell_a, cell_p, cell_d, e, p, d, r0, r1, r2, r3.
  split; [exact Hnet|exact Hrest].
Defined.

Lemma large_batch_result_ignores_later_frames_witness :
  ∃ net : LongShortTimeAutoEncodeDecoder.t R,
    LongShortTimeAutoEncodeDecoder.__init__
      (λ _, ConvParams (λ _ _ _ _, 2%R) (λ _, 1%R))
      (λ _, ConvParams (λ _ _ _ _, 1%R) (λ _, 0%R))
      (λ _, ConvParams (λ _ _ _ _, (-1)%R) (λ _, 3%R)) = inr net ∧
    LongShortTimeAutoEncodeDecoder.forward net (full5 4 3 9 2 2 1%R)
    = LongShortTimeAutoEncodeDecoder.forward net
        (append_frames (full5 4 3 3 2 2 1%R) (full5 4 3 6 2 2 7%R)).
Proof.
  destruct (net_init (A:=R) (λ _, ConvParams (λ _ _ _ _, 2%R) (λ _, 1%R))
              (λ _, ConvParams (λ _ _ _ _, 1%R) (λ _, 0%R))
              (λ _, ConvParams (λ _ _ _ _, (-1)%R) (λ _, 3%R)))
    as (net & Hnet & Hok & _).
  exists net. split; [exact Hnet|].
  apply (large_batch_result_ignores_later_frames 2 2 net 4 9 9);
    [lia|lia|exact Hok|lia|lia|lia|apply shape5_full5| |reflexivity..].
  split; [reflexivity|]. repeat constructor.
Defined.

(** ** The clips the pipeline accepts *)

Section accepted_clips.
Context {A : Type} `{Scalar A}.

Lemma time_len_head (x : T5 A) :
    time_len x = length (default [] (head x)).
Proof. done. Qed.

Lemma time_len_app (x y : T5 A) : x ≠ [] → time_len (x ++ y) = time_len x.
Proof. intros Hx. rewrite !time_len_head. by destruct x. Qed.

Lemma cat0_Some_time (x y z : T5 A) :
    torch.cat0 x y = Some z → time_len x = time_len y ∧ z = x ++ y.
Proof.
    unfold torch.cat0, time_len.
    destruct (torch.size5 x) as [[[[? t1] c1] h1] w1].
    destruct (torch.size5 y) as [[[[? t2] c2] h2] w2].
    intros Hz. case_guard as Hg; simplify_eq/=. by destruct Hg.
Qed.

(** A window over the frames [lo, hi) of a clip with [t] frames has
    as many steps as the clip has frames in that range. *)
Lemma window_time_len b c t h w (clip : T5 A) lo hi :
    shape5 b c t h w clip → 0 < b → 0 < c →
    time_len (LongShortTimeAutoEncodeDecoder.window clip lo hi)
    = (hi - lo) `min` (t - lo).
Proof.
    intros [Hb Hx] ? ?. rewrite time_len_head.
    unfold LongShortTimeAutoEncodeDecoder.window, torch.transpose12.
    destruct clip as [|e clip]; simpl in *; [lia|].
    apply list.Forall_cons in Hx as [[Hc He] _].
    assert (Forall (λ r, length r = (hi - lo) `min` (t - lo) ∧ Forall (λ _, True) r)
              (torch.slice lo hi <$> e)) as Hlen.
    { apply Forall_fmap. eapply list.Forall_impl; [done|].
      intros r [Ht _]. simpl. split; [|by apply Forall_true].
      unfold torch.slice. rewrite length_take, length_drop. lia. }
    assert (length (default [] (head (torch.slice lo hi <$> e)))
            = (hi - lo) `min` (t - lo)) as ->.
    { destruct e as [|r e]; simpl in *; [lia|].
      by apply list.Forall_cons in Hlen as [[? _] _]. }
    by destruct (transpose_shape _ _ _ Hlen) as [-> _].
Qed.

Lemma window_length (clip : T5 A) lo hi :
    length (LongShortTimeAutoEncodeDecoder.window clip lo hi) = length clip.
Proof.
    unfold LongShortTimeAutoEncodeDecoder.window, torch.transpose12.
    by rewrite !length_fmap.
Qed.

Lemma windows_short_clip b c t h w (clip : T5 A) :
    shape5 b c t h w clip → 0 < b → 0 < c → 0 < t → t < 9 →
    LongShortTimeAutoEncodeDecoder.windows clip = None.
Proof.
    intros Hclip ? ? ? ?.
    destruct (LongShortTimeAutoEncodeDecoder.windows clip) as [s|] eqn:Hs;
      [exfalso|done].
    unfold LongShortTimeAutoEncodeDecoder.windows in Hs.
    destruct (torch.cat0 _ _) as [s1|] eqn:Hs1 in Hs; [|done]. simpl in Hs.
    destruct (torch.cat0 s1 _) as [s2|] eqn:Hs2 in Hs; [|done]. simpl in Hs.
    apply cat0_Some_time in Hs1 as [E1 ->].
    apply cat0_Some_time in Hs2 as [E2 ->].
    apply cat0_Some_time in Hs as [E3 _].
    assert (LongShortTimeAutoEncodeDecoder.window clip 0 3 ≠ []) as Hne.
    { intros Heq. apply (f_equal length) in Heq.
      rewrite window_length in Heq. destruct Hclip as [Hb _]. simpl in Heq. lia. }
    rewrite <- app_assoc in E3. rewrite (time_len_app _ _ Hne) in E3.
    rewrite !(window_time_len b c t h w) in E3 by done.
    lia.
Qed.

Lemma stack_forward_wrong_channels cin d dims (self : ConvLSTM.t A)
    b T c h w (x : T5 A) :
    stack_ok cin (d :: dims) self → layer_valid d →
    ConvLSTM.batch_first self = true →
    c ≠ cin → 0 < b → 0 < T → 0 < c → 0 < h →
    shape5 b T c h w x →
    ConvLSTM.forward_lists self x None = None.
Proof.
    intros Hok (Hhd & Hkh & Hkw) Hbf ? ? ? ? ? Hx.
    unfold ConvLSTM.forward_lists.
    rewrite Hbf. simpl negb. cbv iota.
    rewrite (shape5_size _ _ _ _ _ _ Hx) by done.
    rewrite (init_hidden_zero cin (d :: dims) self b h w Hok).
    destruct Hok as [HL Hcells].
    rewrite HL, Nat2Z.id.
    inversion Hcells as [|? hd kh kw ? cell cells Hcell Hrest]; subst.
    simpl in Hhd, Hkh, Hkw.
    destruct T as [|T]; [lia|].
    cbn [length seq fmap list_fmap mbind option_bind ConvLSTM.layer_loop
         ConvLSTM.time_loop lookup list_lookup].
    destruct (select1_eq _ _ _ _ _ x 0 Hx ltac:(lia)) as [-> Hx0].
    match goal with Hc : _ :: _ = ConvLSTM.cell_list self |- _ =>
      rewrite <- Hc end.
    cbn [mbind option_bind lookup list_lookup fst].
    rewrite (cell_forward_wrong_channels cin hd kh kw cell b c h w); try done.
    - destruct Hkh as [m ->]. lia.
    - apply shape4_zeros.
Qed.

(** X20. A pipeline as its constructor builds it accepts exactly the
    clips with three channels and at least nine frames: on a clip of
    shape [b, c, t, h, w] with nonempty axes [forward] returns a result
    if and only if [c = 3] and [t >= 9], and the result then has shape
    [1, 3, h, w]. *)
Theorem pipeline_accepts_three_channels_nine_frames
    (net : LongShortTimeAutoEncodeDecoder.t A) b c t h w (clip : T5 A) :
    net_ok net → 0 < b → 0 < c → 0 < t → 0 < h → 0 < w →
    shape5 b c t h w clip →
    (is_Some (LongShortTimeAutoEncodeDecoder.forward net clip) ↔ c = 3 ∧ 9 ≤ t) ∧
    (∀ out, LongShortTimeAutoEncodeDecoder.forward net clip = Some out →
            shape4 1 3 h w out).
Proof.
    intros Hnet ? ? ? ? ? Hclip.
    destruct (decide (9 ≤ t)) as [Ht|Ht].
    2:{ assert (LongShortTimeAutoEncodeDecoder.forward net clip = None) as ->.
        { unfold LongShortTimeAutoEncodeDecoder.forward.
          by rewrite (windows_short_clip b c t h w) by (done || lia). }
        split; [|done]. split; [by intros [? ?]|lia]. }
    destruct (decide (c = 3)) as [->|Hc].
    - destruct (pipeline_shape h w net b t clip) as
        (? & ? & ? & ? & ? & hc_dec & _ & _ & _ & _ & _ & _ & _ & _ & [Hs _] & ->);
        try done.
      split; [by split|]. by intros out [= <-].
    - assert (LongShortTimeAutoEncodeDecoder.forward net clip = None) as ->.
      { unfold LongShortTimeAutoEncodeDecoder.forward.
        destruct (windows_eq _ _ _ _ _ _ Hclip) as [-> Hstacked]; [lia..|].
        simpl. unfold LongShortTimeAutoEncodeDecoder.last_state, ConvLSTM.forward.
        destruct Hnet as ((Hok & Hbf & _) & _).
        rewrite (stack_forward_wrong_channels 3 (3, (3, 3)) [] _ (4 * b) 3 c h w);
          try done; try lia.
        repeat split; simpl; (lia || apply odd_3). }
      split; [|done]. split; [by intros [? ?]|]. by intros [? _].
Qed.
End accepted_clips.

Lemma pipeline_accepts_three_channels_nine_frames_witness :
  ∃ net : LongShortTimeAutoEncodeDecoder.t R,
    LongShortTimeAutoEncodeDecoder.__init__
      (λ _, zero_params) (λ _, zero_params) (λ _, zero_params) = inr net ∧
    LongShortTimeAutoEncodeDecoder.forward net (full5 1 3 8 4 4 1%R) = None ∧
    LongShortTimeAutoEncodeDecoder.forward net (full5 1 2 9 4 4 1%R) = None ∧
    is_Some (LongShortTimeAutoEncodeDecoder.forward net (full5 2 3 10 4 4 1%R)).
Proof.
  destruct (net_init (A:=R) (λ _, zero_params) (λ _, zero_params)
              (λ _, zero_params)) as (net & Hnet & Hok & _).
  exists net. split; [exact Hnet|].
  pose proof (pipeline_accepts_three_channels_nine_frames net 1 3 8 4 4
                (full5 1 3 8 4 4 1%R) Hok ltac:(lia) ltac:(lia) ltac:(lia)
                ltac:(lia) ltac:(lia) (shape5_full5 _ _ _ _ _ _)) as [H8 _].
  pose proof (pipeline_accepts_three_channels_nine_frames net 1 2 9 4 4
                (full5 1 2 9 4 4 1%R) Hok ltac:(lia) ltac:(lia) ltac:(lia)
                ltac:(lia) ltac:(lia) (shape5_full5 _ _ _ _ _ _)) as [H2 _].
  pose proof (pipeline_accepts_three_channels_nine_frames net 2 3 10 4 4
                (full5 2 3 10 4 4 1%R) Hok ltac:(lia) ltac:(lia) ltac:(lia)
                ltac:(lia) ltac:(lia) (shape5_full5 _ _ _ _ _ _)) as [H10 _].
  split; [|split].
  - apply eq_None_not_Some. intros Hs. apply H8 in Hs. lia.
  - apply eq_None_not_Some. intros Hs. apply H2 in Hs. lia.
  - apply H10. lia.
Defined.

(** ** The range of the states over the real numbers *)

Section all4_facts.
Context {A : Type} `{Scalar A}.

Lemma all4_map4 (P : A → Prop) (f : A → A) (t : T4 A) :
    (∀ a, P (f a)) → all4 P (torch.map4 f t).
Proof.
    intros Hf. unfold all4, torch.map4.
    do 4 (apply Forall_fmap, Forall_true; intros ?; simpl). apply Hf.
Qed.

Lemma all4_zip4 (P Q R : A → Prop) (f : A → A → A) (s t : T4 A) :
    (∀ a b, P a → Q b → R (f a b)) →
    all4 P s → all4 Q t → all4 R (zip4 f s t).
Proof.
    intros Hf. unfold all4, zip4.
    do 4 (apply Forall_zip_with_shape; intros ? ?). apply Hf.
Qed.

Lemma all4_impl (P Q : A → Prop) (t : T4 A) :
    (∀ a, P a → Q a) → all4 P t → all4 Q t.
Proof.
    intros HPQ. unfold all4.
    intros Ht.
    eapply list.Forall_impl; [exact Ht|]. intros ? Ht3.
    eapply list.Forall_impl; [exact Ht3|]. intros ? Ht2.
    eapply list.Forall_impl; [exact Ht2|]. intros ? Ht1.
    eapply list.Forall_impl; [exact Ht1|]. exact HPQ.
Qed.

Lemma all4_zeros (P : A → Prop) b c h w :
    P szero → all4 P (torch.zeros b c h w).
Proof.
    intros HP. unfold all4, torch.zeros. by do 4 apply Forall_replicate.
Qed.
End all4_facts.

Section real_bounds.
Open Scope R_scope.

Lemma sigmoid_range (x : R) : 0 < ssigmoid x < 1.
Proof.
    simpl. pose proof (exp_pos (- x)) as He. split.
    - apply Rinv_0_lt_compat. lra.
    - rewrite <- Rinv_1 at 2. apply Rinv_1_lt_contravar; lra.
Qed.

Lemma tanh_range (x : R) : -1 < stanh x < 1.
Proof.
    simpl. unfold Rtrigo_def.tanh, sinh, cosh.
    pose proof (exp_pos x) as Ha. pose proof (exp_pos (- x)) as Hb.
    set (a := exp x) in *. set (b := exp (- x)) in *.
    replace ((a - b) / 2 / ((a + b) / 2)) with ((a - b) / (a + b))
      by (field; lra).
    split.
    - apply Rmult_lt_reg_r with (a + b); [lra|].
      unfold Rdiv. rewrite Rmult_assoc, Rinv_l by lra. lra.
    - apply Rmult_lt_reg_r with (a + b); [lra|].
      unfold Rdiv. rewrite Rmult_assoc, Rinv_l by lra. lra.
Qed.

(** The gates keep the working state inside (-1, 1) and let the memory
    state grow by less than one per step. *)
Lemma gate_step_range (hd : nat) (cc c : T4 R) (M : R) :
    0 <= M → all4 (λ v, - M <= v <= M) c →
    all4 (λ v, -1 < v < 1) (gate_step hd cc c).1 ∧
    all4 (λ v, - (M + 1) < v < M + 1) (gate_step hd cc c).2.
Proof.
    intros HM Hc. unfold gate_step. cbn [fst snd]. split.
    - apply (all4_zip4 (λ v, 0 < v < 1) (λ v, -1 < v < 1)).
      + intros a b ? ?. simpl. nra.
      + apply all4_map4, sigmoid_range.
      + apply all4_map4, tanh_range.
    - apply (all4_zip4 (λ v, - M <= v <= M) (λ v, -1 < v < 1)).
      + intros a b ? ?. simpl. lra.
      + apply (all4_zip4 (λ v, 0 < v < 1) (λ v, - M <= v <= M)).
        * intros a b ? ?. simpl. nra.
        * apply all4_map4, sigmoid_range.
        * done.
      + apply (all4_zip4 (λ v, 0 < v < 1) (λ v, -1 < v < 1)).
        * intros a b ? ?. simpl. nra.
        * apply all4_map4, sigmoid_range.
        * apply all4_map4, tanh_range.
Qed.


(** X22. Over the real numbers, with any weights, every entry of the
    tensor the pipeline returns lies strictly between -1 and 1. *)
Theorem pipeline_output_range_over_reals
    (net : LongShortTimeAutoEncodeDecoder.t R) (b t h w : nat) (clip : T5 R) :
    net_ok net → (0 < b)%nat → (9 ≤ t)%nat → (0 < h)%nat → (0 < w)%nat →
    shape5 b 3 t h w clip →
    ∃ out,
      LongShortTimeAutoEncodeDecoder.forward net clip = Some out ∧
      shape4 1 3 h w out ∧
      all4 (λ v, -1 < v < 1) out.
Proof.
    intros Hnet ? ? ? ? Hclip.
    destruct (pipeline_shape h w net b t clip) as
      (? & hc_enc & hc_pred & c79 & cell & hc_dec & _ & _ & [_ Senc] & _ &
       [_ Spred] & Hc79 & Hcells & Hdec & [Sdec _] & ->); try done.
    exists hc_dec.1. split; [done|]. split; [done|].
    destruct Hnet as (_ & _ & Hd).
    destruct (stack331_cell _ Hd) as (cell' & Hcells' & Hok & _).
    rewrite Hcells in Hcells'. injection Hcells' as <-.
    assert (shape4 1 3 h w (torch.unsqueeze0 c79)) as Hx.
    { split; [done|]. constructor; [|constructor].
      destruct Senc as [_ Hrows]. by eapply Forall_lookup_1 in Hrows. }
    destruct (cell_forward_eq 3 3 3 3 cell 1 h w (torch.unsqueeze0 c79)
                (torch.zeros 1 3 h w) hc_pred.2 Hok)
      as (_ & _ & Hfwd);
      [lia|lia|apply odd_3|apply odd_3|done|apply shape4_zeros|done|lia|done
      |done|].
    rewrite Hfwd in Hdec. injection Hdec as <-.
    unfold gate_step. cbn [fst].
    apply (all4_zip4 (λ v, 0 < v < 1) (λ v, -1 < v < 1)).
    - intros a b' ? ?. simpl. nra.
    - apply all4_map4, sigmoid_range.
    - apply all4_map4, tanh_range.
Qed.

Lemma steps_range cin hd kh kw (cell : ConvLSTMCell.t R) (b h w : nat)
    (xs : list (T4 R)) :
    cell_ok cin hd kh kw cell →
    (0 < cin)%nat → (0 < hd)%nat → Nat.Odd kh → Nat.Odd kw →
    (0 < b)%nat → (0 < h)%nat → (0 < w)%nat →
    Forall (shape4 b cin h w) xs →
    ∀ (hc : T4 R * T4 R) (M : R),
    state_shape b hd h w hc → 0 <= M → all4 (λ v, - M <= v <= M) hc.2 →
    ∃ r, steps cell xs hc = Some r ∧ state_shape b hd h w r ∧
         all4 (λ v, - (M + INR (length xs)) <= v <= M + INR (length xs)) r.2.
Proof.
    intros Hok ? ? Hkh Hkw ? ? ? Hxs.
    induction Hxs as [|x xs Hx _ IH]; intros [hp c] M [Hhp Hc] HM HcM.
    - exists (hp, c). split; [done|]. split; [done|]. simpl in *.
      eapply all4_impl; [|done]. intros v ?. simpl in *. lra.
    - cbn [fst snd] in *.
      destruct (cell_forward_eq cin hd kh kw cell b h w x hp c) as (Hcc & _ & Hfwd);
        [done..|].
      set (cc := conv_out (ConvLSTMCell.conv cell) kh kw (kh `div` 2)
                   (kw `div` 2) h w (zip_with app x hp)) in *.
      destruct (gate_step_range hd cc c M HM HcM) as [_ Hc'].
      destruct (IH (gate_step hd cc c) (M + 1)) as (r & Hr & Sr & Hrange).
      + by apply gate_step_shape.
      + lra.
      + eapply all4_impl; [|done]. intros v ?. simpl in *. lra.
      + exists r. cbn [steps]. rewrite Hfwd. split; [done|]. split; [done|].
        eapply all4_impl; [|done]. intros v Hv. cbn beta in Hv.
        cbn [length]. rewrite S_INR. lra.
Qed.

(** X23. Over the real numbers, with any weights: after [n] steps from
    the zero state every entry of the memory state lies in [-n, n]. *)
Theorem memory_grows_at_most_one_per_step cin hd kh kw (cell : ConvLSTMCell.t R)
    (b h w : nat) (xs : list (T4 R)) :
    cell_ok cin hd kh kw cell →
    (0 < cin)%nat → (0 < hd)%nat → Nat.Odd kh → Nat.Odd kw →
    (0 < b)%nat → (0 < h)%nat → (0 < w)%nat →
    Forall (shape4 b cin h w) xs →
    ∃ h_last c_last,
      steps cell xs (zero_state b hd h w) = Some (h_last, c_last) ∧
      all4 (λ v, - INR (length xs) <= v <= INR (length xs)) c_last.
Proof.
    intros Hok ? ? Hkh Hkw ? ? ? Hxs.
    destruct (steps_range cin hd kh kw cell b h w xs Hok ltac:(done) ltac:(done)
                Hkh Hkw ltac:(done) ltac:(done) ltac:(done) Hxs
                (zero_state b hd h w) 0)
      as ([h_last c_last] & Hr & _ & Hrange).
    - split; apply shape4_zeros.
    - lra.
    - apply all4_zeros. simpl. lra.
    - exists h_last, c_last. split; [done|].
      eapply all4_impl; [|exact Hrange]. intros v. cbn beta. lra.
Qed.
End real_bounds.


Lemma pipeline_output_range_over_reals_witness :
  ∃ (net : LongShortTimeAutoEncodeDecoder.t R) out,
    LongShortTimeAutoEncodeDecoder.__init__
      (λ _, ConvParams (λ _ _ _ _, 2%R) (λ _, 1%R))
      (λ _, ConvParams (λ _ _ _ _, 1%R) (λ _, 0%R))
      (λ _, ConvParams (λ _ _ _ _, (-1)%R) (λ _, 3%R)) = inr net ∧
    LongShortTimeAutoEncodeDecoder.forward net (full5 1 3 9 4 4 5%R) = Some out ∧
    all4 (λ v, (-1 < v < 1)%R) out.
Proof.
  destruct (net_init (A:=R) (λ _, ConvParams (λ _ _ _ _, 2%R) (λ _, 1%R))
              (λ _, ConvParams (λ _ _ _ _, 1%R) (λ _, 0%R))
              (λ _, ConvParams (λ _ _ _ _, (-1)%R) (λ _, 3%R)))
    as (net & Hnet & Hok & _).
  destruct (pipeline_output_range_over_reals net 1 9 4 4 (full5 1 3 9 4 4 5%R) Hok)
    as (out & Hfwd & _ & Hout); [lia|lia|lia|lia|apply shape5_full5|].
  exists net, out. split; [exact Hnet|]. split; [exact Hfwd|exact Hout].
Defined.

Lemma memory_grows_at_most_one_per_step_witness :
  ∃ (cell : ConvLSTMCell.t R) h_last c_last,
    ConvLSTMCell.__init__ (PyInt 3) (PyInt 2) (PyTuple [PyInt 3; PyInt 5]) true
      (ConvParams (λ _ _ _ _, 2%R) (λ _, 1%R)) = inr cell ∧
    steps cell [torch.zeros 1 3 4 4; torch.zeros 1 3 4 4] (zero_state 1 2 4 4)
      = Some (h_last, c_last) ∧
    all4 (λ v, (- INR 2 <= v <= INR 2)%R) c_last.
Proof.
  destruct (cell_init_ok (A:=R) 3 2 3 5 true (ConvParams (λ _ _ _ _, 2%R) (λ _, 1%R)))
    as (cell & Hcell & Hok & _).
  destruct (memory_grows_at_most_one_per_step 3 2 3 5 cell 1 4 4
              [torch.zeros 1 3 4 4; torch.zeros 1 3 4 4] Hok)
    as (h_last & c_last & Hsteps & Hrange);
    [lia|lia|by exists 1|by exists 2|lia|lia|lia
    |repeat constructor; apply shape4_zeros|].
  exists cell, h_last, c_last. split; [exact Hcell|]. split; [exact Hsteps|].
  exact Hrange.
Defined.

(** ** Time-major input *)

Section time_major.
Context {A : Type} `{Scalar A}.





End time_major.

